(** * HardbanRecords Lab: the client-side store, the dirty-state check and
    the navigation guard of [src/index.tsx], embedded in Rocq.

    The development follows the source top-down: JavaScript strings and
    the two library functions the dirty check relies on ([trim] and
    [JSON.stringify]), the data model, the Zustand store and its actions,
    then the two module views ([MusicPublishingView] and
    [DigitalPublishingAIView]) with their handlers and effects, the
    onboarding tour, the toast container, the task manager, and the
    grouping of rows in [GET /api/data] of [src/backend/server.js].

    Conventions. Identifiers and times are integers. A handler runs to
    its end before the next event is taken, also across its [await]s,
    except where a handler is split in two below. An event is a handler
    followed by the effects of the renders it causes ([after]). The cells
    of a view stay in its record when [setView] leaves the view. *)

From Stdlib Require Import ZArith NArith List Bool Lia String Ascii DecimalString.
From stdpp Require Import base list gmap.
Import ListNotations.

(** ** JavaScript strings *)

Module JS.

(** A string value is a finite sequence of UTF-16 code units. *)
Definition jsstring := list N.

(** ASCII literals of the source, as code units. *)
Definition js (s : string) : jsstring :=
  map N_of_ascii (list_ascii_of_string s).

Definition str_eqb (a b : jsstring) : bool := bool_decide (a = b).

(** WhiteSpace and LineTerminator of ECMA-262: TAB, LF, VT, FF, CR, SP,
    NBSP, U+1680, U+2000..U+200A, U+2028, U+2029, U+202F, U+205F, U+3000
    and U+FEFF. *)
Definition isWhiteSpace (c : N) : bool :=
  match c with
  | 9 | 10 | 11 | 12 | 13 | 32 | 160 | 5760
  | 8232 | 8233 | 8239 | 8287 | 12288 | 65279 => true
  | _ => (8192 <=? c) && (c <=? 8202)
  end%N.

Fixpoint trimStart (s : jsstring) : jsstring :=
  match s with
  | c :: t => if isWhiteSpace c then trimStart t else s
  | [] => []
  end.

Definition trimEnd (s : jsstring) : jsstring := rev (trimStart (rev s)).

(** [String.prototype.trim]. *)
Definition trim (s : jsstring) : jsstring := trimEnd (trimStart s).

(** *** [JSON.stringify] on strings (QuoteJSONString) *)

Definition hexDigit (d : N) : N :=
  (if d <? 10 then 48 + d else 87 + d)%N.

(** [\uXXXX], four lower-case hexadecimal digits. *)
Definition UnicodeEscape (c : N) : jsstring :=
  [92; 117; hexDigit (c / 4096 mod 16); hexDigit (c / 256 mod 16);
   hexDigit (c / 16 mod 16); hexDigit (c mod 16)]%N.

Definition isLeadingSurrogate (c : N) : bool :=
  ((55296 <=? c) && (c <=? 56319))%N.

Definition isTrailingSurrogate (c : N) : bool :=
  ((56320 <=? c) && (c <=? 57343))%N.

(** The single-character escapes: backspace, tab, line feed, form feed,
    carriage return, the double quote and the backslash. *)
Definition singleCharEscape (c : N) : option N :=
  (if c =? 8 then Some 98
   else if c =? 9 then Some 116
   else if c =? 10 then Some 110
   else if c =? 12 then Some 102
   else if c =? 13 then Some 114
   else if c =? 34 then Some 34
   else if c =? 92 then Some 92
   else None)%N.

(** One code point that is not a surrogate pair. *)
Definition quoteUnit (c : N) : jsstring :=
  match singleCharEscape c with
  | Some e => [92%N; e]
  | None =>
      if (c <? 32)%N || isLeadingSurrogate c || isTrailingSurrogate c
      then UnicodeEscape c
      else [c]
  end.

(** The string is read code point by code point: a leading surrogate
    followed by a trailing one is copied, a lone surrogate is escaped. *)
Fixpoint quoteBody (s : jsstring) : jsstring :=
  match s with
  | [] => []
  | c :: t =>
      match t with
      | d :: t' =>
          if isLeadingSurrogate c && isTrailingSurrogate d
          then c :: d :: quoteBody t'
          else quoteUnit c ++ quoteBody t
      | [] => quoteUnit c
      end
  end.

Definition QuoteJSONString (s : jsstring) : jsstring :=
  34%N :: quoteBody s ++ [34%N].

(** [list.join(sep)]. *)
Fixpoint join (sep : jsstring) (l : list jsstring) : jsstring :=
  match l with
  | [] => []
  | [x] => x
  | x :: t => x ++ sep ++ join sep t
  end.

(** *** The share input: [/^\d*\.?\d*$/] and [parseFloat(value) > 100] *)

Definition isDigit (c : N) : bool := ((48 <=? c) && (c <=? 57))%N.

Fixpoint takeDigits (s : jsstring) : jsstring :=
  match s with
  | c :: t => if isDigit c then c :: takeDigits t else []
  | [] => []
  end.

Fixpoint dropDigits (s : jsstring) : jsstring :=
  match s with
  | c :: t => if isDigit c then dropDigits t else s
  | [] => []
  end.

(** [/^\d*\.?\d*$/.test(s)]: digits, at most one dot, digits. *)
Definition isDecimalInput (s : jsstring) : bool :=
  match dropDigits s with
  | 46%N :: t => match dropDigits t with [] => true | _ => false end
  | [] => true
  | _ => false
  end.

Definition digitsValue (ds : jsstring) : N :=
  fold_left (fun acc d => 10 * acc + (d - 48))%N ds 0%N.

(** [parseFloat(s) > 100] for [s] accepted by [isDecimalInput].
    [parseFloat] yields NaN when [s] has no digit (the comparison is then
    false) and otherwise the binary64 nearest to the decimal, ties to
    even. 100 is a binary64 with an even significand and its successor
    is 100 + 2^-46, so the result exceeds 100 exactly when the decimal
    exceeds 100 + 2^-47. *)
Definition parseFloat_gt_100 (s : jsstring) : bool :=
  let int := takeDigits s in
  let frac := match dropDigits s with 46%N :: t => takeDigits t | _ => [] end in
  ((100 * 2 ^ 47 + 1) * 10 ^ N.of_nat (length frac)
     <? digitsValue (int ++ frac) * 2 ^ 47)%N.

End JS.

Import JS.

(** ** Data model (the type definitions of [src/index.tsx]) *)

Inductive View := DASHBOARD | MUSIC | PUBLISHING.

(** A reference to a collaborator row object. Arrays of rows hold
    references: [[...release.splits]] copies the references, not the
    rows, and [rows[i].name = v] writes through them. *)
Abbreviation ref := nat.

Module Collaborator.
(** [ReleaseCollaborator] and [Collaborator]: the same shape. *)
Record t := mk { name : jsstring; share : jsstring }.
End Collaborator.

Module Task.
Record t := mk { id : Z; text : jsstring; dueDate : jsstring; completed : bool }.
End Task.

Inductive ToastType := success | error.

Module ToastMessage.
Record t := mk { id : Z; message : jsstring; type : ToastType }.
End ToastMessage.

Inductive ReleaseStatus := Live | InReview | Submitted | RProcessing.

Module Release.
Record t := mk {
  id : Z; title : jsstring; artist : jsstring; status : ReleaseStatus;
  genre : option jsstring; releaseDate : option jsstring;
  splits : list ref }.
(** [Omit<Release, 'id' | 'status'>], the argument of [addRelease]. *)
Record data := mkData {
  d_title : jsstring; d_artist : jsstring;
  d_genre : option jsstring; d_releaseDate : option jsstring;
  d_splits : list ref }.
End Release.

Inductive BookStatus := Published | BProcessing | Draft.

Record BookRights := {
  territorial : bool; translation : bool; adaptation : bool;
  audio : bool; drm : bool }.

Module BookChapter.
(** [title] is absent on a chapter that [updateChapterContent] created
    by writing past the end of the array. *)
Record t := mk { title : option jsstring; content : jsstring }.
End BookChapter.

Record BookIllustration := { url : jsstring; prompt : jsstring }.

Module Book.
(** [chapters] is a JavaScript array: [None] is a hole. *)
Record t := mk {
  id : Z; title : jsstring; author : jsstring; genre : jsstring;
  status : BookStatus; rights : BookRights; splits : list ref;
  chapters : list (option BookChapter.t); blurb : jsstring;
  keywords : jsstring; illustrations : list BookIllustration;
  coverImageUrl : jsstring }.
(** [Omit<Book, 'id'>], the argument of [addBook]. *)
Record data := mkData {
  d_title : jsstring; d_author : jsstring; d_genre : jsstring;
  d_status : BookStatus; d_rights : BookRights; d_splits : list ref;
  d_chapters : list (option BookChapter.t); d_blurb : jsstring;
  d_keywords : jsstring; d_illustrations : list BookIllustration;
  d_coverImageUrl : jsstring }.
(** [Partial<Book>], the argument of [updateBook]: every field optional. *)
Record partial := mkPartial {
  p_id : option Z; p_title : option jsstring; p_author : option jsstring;
  p_genre : option jsstring; p_status : option BookStatus;
  p_rights : option BookRights; p_splits : option (list ref);
  p_chapters : option (list (option BookChapter.t));
  p_blurb : option jsstring; p_keywords : option jsstring;
  p_illustrations : option (list BookIllustration);
  p_coverImageUrl : option jsstring }.
(** [{}] *)
Definition noChange : partial :=
  mkPartial None None None None None None None None None None None None.
End Book.

#[global] Instance View_eq_dec : EqDecision View.
Proof. solve_decision. Defined.
#[global] Instance Collaborator_eq_dec : EqDecision Collaborator.t.
Proof. solve_decision. Defined.
#[global] Instance Task_eq_dec : EqDecision Task.t.
Proof. solve_decision. Defined.
#[global] Instance ReleaseStatus_eq_dec : EqDecision ReleaseStatus.
Proof. solve_decision. Defined.
#[global] Instance Release_eq_dec : EqDecision Release.t.
Proof. solve_decision. Defined.
#[global] Instance BookStatus_eq_dec : EqDecision BookStatus.
Proof. solve_decision. Defined.
#[global] Instance BookRights_eq_dec : EqDecision BookRights.
Proof. solve_decision. Defined.
#[global] Instance BookChapter_eq_dec : EqDecision BookChapter.t.
Proof. solve_decision. Defined.
#[global] Instance BookIllustration_eq_dec : EqDecision BookIllustration.
Proof. solve_decision. Defined.
#[global] Instance Book_eq_dec : EqDecision Book.t.
Proof. solve_decision. Defined.

(** ** The Zustand store *)

Record Onboarding := {
  tourStepIndex : Z;
  onboardingComplete : bool;
  activeTabOverride : option jsstring }.

Record MusicData := { releases : list Release.t; music_tasks : list Task.t }.

Record PublishingData := { books : list Book.t; publishing_tasks : list Task.t }.

(** [AppState]. The [loading] flags of the AI helpers are left out: no
    action below reads or writes them. *)
Record AppState := {
  isInitialized : bool;
  view : View;
  toasts : list ToastMessage.t;
  onboarding : Onboarding;
  music : MusicData;
  publishing : PublishingData }.

(** The argument of [api.saveData]. *)
Record Snapshot := {
  s_music : MusicData;
  s_publishing : PublishingData;
  s_onboardingComplete : bool }.

(** What the store runs in: the millisecond clock read by [Date.now()],
    the store's state, the collaborator row objects (by reference), the
    calls made to [api.saveData] (time of the call and argument), and the
    due times of the callbacks [() => get()._saveState()] handed to
    [setTimeout] and not yet run. *)
Record World := {
  now : Z;
  state : AppState;
  objects : list Collaborator.t;
  saveCalls : list (Z * Snapshot);
  timers : list Z }.

Definition set_state (w : World) (s : AppState) : World :=
  {| now := now w; state := s; objects := objects w;
     saveCalls := saveCalls w; timers := timers w |}.

Definition set_music (s : AppState) (m : MusicData) : AppState :=
  {| isInitialized := isInitialized s; view := view s; toasts := toasts s;
     onboarding := onboarding s; music := m; publishing := publishing s |}.

Definition set_publishing (s : AppState) (p : PublishingData) : AppState :=
  {| isInitialized := isInitialized s; view := view s; toasts := toasts s;
     onboarding := onboarding s; music := music s; publishing := p |}.

Definition set_isInitialized (s : AppState) (b : bool) : AppState :=
  {| isInitialized := b; view := view s; toasts := toasts s;
     onboarding := onboarding s; music := music s; publishing := publishing s |}.

(** The initial state of [create<AppStore>(...)]. *)
Definition initialState : AppState :=
  {| isInitialized := false;
     view := DASHBOARD;
     toasts := [];
     onboarding := {| tourStepIndex := (-1)%Z; onboardingComplete := false;
                      activeTabOverride := None |};
     music := {| releases := []; music_tasks := [] |};
     publishing := {| books := []; publishing_tasks := [] |} |}.

Definition initialWorld (t : Z) : World :=
  {| now := t; state := initialState; objects := []; saveCalls := []; timers := [] |}.

(** [_saveState]: reads the store and calls [api.saveData] at once; the
    promise it returns resolves 250 ms later with no further effect. *)
Definition _saveState (w : World) : World :=
  let s := state w in
  {| now := now w; state := s; objects := objects w;
     saveCalls := saveCalls w ++
       [(now w, {| s_music := music s; s_publishing := publishing s;
                   s_onboardingComplete := onboardingComplete (onboarding s) |})];
     timers := timers w |}.

Definition forceSave (w : World) : World := _saveState w.

Definition setView (v : View) (w : World) : World :=
  let s := state w in
  set_state w {| isInitialized := isInitialized s; view := v; toasts := toasts s;
                 onboarding := onboarding s; music := music s;
                 publishing := publishing s |}.

Definition addToast (message : jsstring) (type : ToastType) (w : World) : World :=
  let s := state w in
  set_state w {| isInitialized := isInitialized s; view := view s;
                 toasts := toasts s ++ [ToastMessage.mk (now w) message type];
                 onboarding := onboarding s; music := music s;
                 publishing := publishing s |}.

Definition dismissToast (id : Z) (w : World) : World :=
  let s := state w in
  set_state w {| isInitialized := isInitialized s; view := view s;
                 toasts := List.filter (fun t => negb (ToastMessage.id t =? id)%Z) (toasts s);
                 onboarding := onboarding s; music := music s;
                 publishing := publishing s |}.

(** The outcome of [api.fetchData()]: the parsed body of a 2xx response,
    together with the row objects it allocates, or a rejection (network
    error, non-2xx status, unparsable body). *)
Record FetchedData := {
  f_music : MusicData;
  f_publishing : PublishingData;
  f_onboardingComplete : bool;
  f_objects : list Collaborator.t }.

Inductive FetchOutcome := Fetched (data : FetchedData) | FetchRejected.

(** An asynchronous computation either fulfils with a value or rejects
    (an exception thrown inside an [async] function). *)
Inductive Outcome (A : Type) := Fulfilled (a : A) | Rejected.
Arguments Fulfilled {A} a.
Arguments Rejected {A}.

Definition bind {A B} (m : Outcome A) (k : A -> Outcome B) : Outcome B :=
  match m with
  | Fulfilled a => k a
  | Rejected => Rejected
  end.

(** [try { body } catch { handler }]. *)
Definition try_catch {A} (body handler : Outcome A) : Outcome A :=
  match body with
  | Fulfilled a => Fulfilled a
  | Rejected => handler
  end.

(** [api.fetchData]: throws unless the response is ok and parses. *)
Definition fetchData (r : FetchOutcome) : Outcome FetchedData :=
  match r with
  | Fetched data => Fulfilled data
  | FetchRejected => Rejected
  end.

Definition msg_could_not_load : jsstring :=
  js "Could not load data from the server. Please ensure the backend is running.".

Definition initializeApp (r : FetchOutcome) (w : World) : Outcome World :=
  let w0 := set_state w (set_isInitialized (state w) false) in
  try_catch
    (bind (fetchData r) (fun data =>
       let s := state w0 in
       Fulfilled
         {| now := now w0;
            state := {| isInitialized := true; view := view s; toasts := toasts s;
                        onboarding :=
                          {| tourStepIndex := tourStepIndex (onboarding s);
                             onboardingComplete := f_onboardingComplete data;
                             activeTabOverride := activeTabOverride (onboarding s) |};
                        music := f_music data; publishing := f_publishing data |};
            objects := objects w0 ++ f_objects data;
            saveCalls := saveCalls w0; timers := timers w0 |}))
    (let w1 := addToast msg_could_not_load error w0 in
     Fulfilled (set_state w1 (set_isInitialized (state w1) true))).

(** *** Music data *)

Definition addRelease (releaseData : Release.data) (w : World) : World :=
  let newRelease :=
    Release.mk (now w) (Release.d_title releaseData) (Release.d_artist releaseData)
      Submitted (Release.d_genre releaseData) (Release.d_releaseDate releaseData)
      (Release.d_splits releaseData) in
  let s := state w in
  _saveState (set_state w (set_music s
    {| releases := releases (music s) ++ [newRelease];
       music_tasks := music_tasks (music s) |})).

Definition withSplits (r : Release.t) (splits : list ref) : Release.t :=
  Release.mk (Release.id r) (Release.title r) (Release.artist r) (Release.status r)
    (Release.genre r) (Release.releaseDate r) splits.

Definition updateMusicSplits (releaseId : Z) (splits : list ref) (w : World) : World :=
  let s := state w in
  _saveState (set_state w (set_music s
    {| releases := map (fun r => if (Release.id r =? releaseId)%Z
                                 then withSplits r splits else r)
                       (releases (music s));
       music_tasks := music_tasks (music s) |})).

Definition addMusicTask (text dueDate : jsstring) (w : World) : World :=
  let s := state w in
  _saveState (set_state w (set_music s
    {| releases := releases (music s);
       music_tasks := music_tasks (music s) ++ [Task.mk (now w) text dueDate false] |})).

Definition toggled (t : Task.t) : Task.t :=
  Task.mk (Task.id t) (Task.text t) (Task.dueDate t) (negb (Task.completed t)).

Definition toggleMusicTask (id : Z) (w : World) : World :=
  let s := state w in
  _saveState (set_state w (set_music s
    {| releases := releases (music s);
       music_tasks := map (fun t => if (Task.id t =? id)%Z then toggled t else t)
                          (music_tasks (music s)) |})).

(** *** Publishing data *)

(** [addBook] also returns [newBook.id.toString()]; the identifier is
    kept as a number here. *)
Definition addBook (bookData : Book.data) (w : World) : World * Z :=
  let newBook :=
    Book.mk (now w) (Book.d_title bookData) (Book.d_author bookData)
      (Book.d_genre bookData) (Book.d_status bookData) (Book.d_rights bookData)
      (Book.d_splits bookData) (Book.d_chapters bookData) (Book.d_blurb bookData)
      (Book.d_keywords bookData) (Book.d_illustrations bookData)
      (Book.d_coverImageUrl bookData) in
  let s := state w in
  (_saveState (set_state w (set_publishing s
     {| books := books (publishing s) ++ [newBook];
        publishing_tasks := publishing_tasks (publishing s) |})),
   Book.id newBook).

(** [{ splits: l }] and [{ chapters: l }]. *)
Definition splitsOnly (l : list ref) : Book.partial :=
  Book.mkPartial None None None None None None (Some l) None None None None None.

Definition chaptersOnly (l : list (option BookChapter.t)) : Book.partial :=
  Book.mkPartial None None None None None None None (Some l) None None None None.

(** [{ ...b, ...data }]. *)
Definition withData (b : Book.t) (data : Book.partial) : Book.t :=
  Book.mk
    (default (Book.id b) (Book.p_id data))
    (default (Book.title b) (Book.p_title data))
    (default (Book.author b) (Book.p_author data))
    (default (Book.genre b) (Book.p_genre data))
    (default (Book.status b) (Book.p_status data))
    (default (Book.rights b) (Book.p_rights data))
    (default (Book.splits b) (Book.p_splits data))
    (default (Book.chapters b) (Book.p_chapters data))
    (default (Book.blurb b) (Book.p_blurb data))
    (default (Book.keywords b) (Book.p_keywords data))
    (default (Book.illustrations b) (Book.p_illustrations data))
    (default (Book.coverImageUrl b) (Book.p_coverImageUrl data)).

Definition updateBook (bookId : Z) (data : Book.partial) (w : World) : World :=
  let s := state w in
  _saveState (set_state w (set_publishing s
    {| books := map (fun b => if (Book.id b =? bookId)%Z then withData b data else b)
                    (books (publishing s));
       publishing_tasks := publishing_tasks (publishing s) |})).

(** [a[i] = x] on a JavaScript array: in range the slot is replaced, past
    the end the array grows and the slots in between are holes. *)
Definition array_set {A} (a : list (option A)) (i : nat) (x : A) : list (option A) :=
  if (i <? length a)%nat then <[i := Some x]> a
  else a ++ replicate (i - length a) None ++ [Some x].

(** [a[i]], [undefined] on a hole or out of range. *)
Definition array_get {A} (a : list (option A)) (i : nat) : option A :=
  match a !! i with
  | Some (Some x) => Some x
  | _ => None
  end.

(** [{ ...updatedChapters[chapterIndex], content }]. *)
Definition withContent (c : option BookChapter.t) (content : jsstring) : BookChapter.t :=
  match c with
  | Some ch => BookChapter.mk (BookChapter.title ch) content
  | None => BookChapter.mk None content
  end.

Definition withChapters (b : Book.t) (chapters : list (option BookChapter.t)) : Book.t :=
  Book.mk (Book.id b) (Book.title b) (Book.author b) (Book.genre b) (Book.status b)
    (Book.rights b) (Book.splits b) chapters (Book.blurb b) (Book.keywords b)
    (Book.illustrations b) (Book.coverImageUrl b).

(** The state is updated at once; the save is handed to
    [setTimeout(..., 500)] and no earlier timer is cleared. *)
Definition updateChapterContent (bookId : Z) (chapterIndex : nat) (content : jsstring)
    (w : World) : World :=
  let s := state w in
  let w' := set_state w (set_publishing s
    {| books := map (fun book =>
                  if (Book.id book =? bookId)%Z then
                    let updatedChapters :=
                      array_set (Book.chapters book) chapterIndex
                        (withContent (array_get (Book.chapters book) chapterIndex) content) in
                    withChapters book updatedChapters
                  else book)
                (books (publishing s));
       publishing_tasks := publishing_tasks (publishing s) |}) in
  {| now := now w'; state := state w'; objects := objects w';
     saveCalls := saveCalls w'; timers := timers w' ++ [(now w' + 500)%Z] |}.

Definition addPublishingTask (text dueDate : jsstring) (w : World) : World :=
  let s := state w in
  _saveState (set_state w (set_publishing s
    {| books := books (publishing s);
       publishing_tasks :=
         publishing_tasks (publishing s) ++ [Task.mk (now w) text dueDate false] |})).

Definition togglePublishingTask (id : Z) (w : World) : World :=
  let s := state w in
  _saveState (set_state w (set_publishing s
    {| books := books (publishing s);
       publishing_tasks := map (fun t => if (Task.id t =? id)%Z then toggled t else t)
                               (publishing_tasks (publishing s)) |})).

(** *** Time *)

(** [d] milliseconds pass with no other event: the clock advances and
    every timer that has come due runs its callback, [_saveState], in
    the order the timers were set. *)
Definition elapse (d : Z) (w : World) : World :=
  let t := (now w + d)%Z in
  let due := List.filter (fun x => (x <=? t)%Z) (timers w) in
  let later := List.filter (fun x => negb (x <=? t)%Z) (timers w) in
  let s := state w in
  {| now := t; state := s; objects := objects w;
     saveCalls := saveCalls w ++
       map (fun x => (x, {| s_music := music s; s_publishing := publishing s;
                            s_onboardingComplete := onboardingComplete (onboarding s) |}))
           due;
     timers := later |}.

(** *** Sequences of mutations *)

(** The add, update and toggle actions, as data. *)
Inductive Mutation :=
| AddRelease (releaseData : Release.data)
| UpdateMusicSplits (releaseId : Z) (splits : list ref)
| AddMusicTask (text dueDate : jsstring)
| ToggleMusicTask (id : Z)
| AddBook (bookData : Book.data)
| UpdateBook (bookId : Z) (data : Book.partial)
| UpdateChapterContent (bookId : Z) (chapterIndex : nat) (content : jsstring)
| AddPublishingTask (text dueDate : jsstring)
| TogglePublishingTask (id : Z).

Definition mutate (m : Mutation) (w : World) : World :=
  match m with
  | AddRelease d => addRelease d w
  | UpdateMusicSplits k sp => updateMusicSplits k sp w
  | AddMusicTask text due => addMusicTask text due w
  | ToggleMusicTask k => toggleMusicTask k w
  | AddBook d => fst (addBook d w)
  | UpdateBook k data => updateBook k data w
  | UpdateChapterContent k i content => updateChapterContent k i content w
  | AddPublishingTask text due => addPublishingTask text due w
  | TogglePublishingTask k => togglePublishingTask k w
  end.

(** What happens to the store over a stretch of time: an action is
    called, or [d] milliseconds go by with no call, the timers that come
    due running their callback. *)
Inductive StoreEvent :=
| Call (m : Mutation)
| Pass (d : Z).

Definition occur (e : StoreEvent) (w : World) : World :=
  match e with
  | Call m => mutate m w
  | Pass d => elapse d w
  end.

(** The events one after the other, first to last. *)
Definition run (es : list StoreEvent) (w : World) : World :=
  fold_left (fun w e => occur e w) es w.

(** The identifier a mutation is aimed at, per collection. *)
Definition aimsAtRelease (k : Z) (m : Mutation) : bool :=
  match m with UpdateMusicSplits k' _ => (k' =? k)%Z | _ => false end.

Definition aimsAtMusicTask (k : Z) (m : Mutation) : bool :=
  match m with ToggleMusicTask k' => (k' =? k)%Z | _ => false end.

Definition aimsAtBook (k : Z) (m : Mutation) : bool :=
  match m with
  | UpdateBook k' _ | UpdateChapterContent k' _ _ => (k' =? k)%Z
  | _ => false
  end.

Definition aimsAtPublishingTask (k : Z) (m : Mutation) : bool :=
  match m with TogglePublishingTask k' => (k' =? k)%Z | _ => false end.

(** The event is a call of a mutation that [p] holds of. *)
Definition calls (p : Mutation -> bool) (e : StoreEvent) : bool :=
  match e with
  | Call m => p m
  | Pass _ => false
  end.

(** [updateBook] with an [id] among the fields it is given: the book
    leaves with another identifier. *)
Definition givesIdentifier (m : Mutation) : bool :=
  match m with
  | UpdateBook _ data => match Book.p_id data with Some _ => true | None => false end
  | _ => false
  end.

(** The splits that the calls of [updateMusicSplits] with the identifier
    [k] carry, in the order of the calls. *)
Definition splitsWritten (k : Z) (es : list StoreEvent) : list (list ref) :=
  flat_map (fun e => match e with
                     | Call (UpdateMusicSplits k' sp) => if (k' =? k)%Z then [sp] else []
                     | _ => []
                     end) es.

(** What one update does to one entity, field by field: the new value
    is stored and every other field is kept. *)
Definition splitsStored (sp : list ref) (r r' : Release.t) : Prop :=
  Release.splits r' = sp
  /\ Release.id r' = Release.id r
  /\ Release.title r' = Release.title r
  /\ Release.artist r' = Release.artist r
  /\ Release.status r' = Release.status r
  /\ Release.genre r' = Release.genre r
  /\ Release.releaseDate r' = Release.releaseDate r.

Definition flagFlipped (t t' : Task.t) : Prop :=
  Task.completed t' = negb (Task.completed t)
  /\ Task.id t' = Task.id t
  /\ Task.text t' = Task.text t
  /\ Task.dueDate t' = Task.dueDate t.

(** Every field that [data] gives is stored, every field it leaves out
    is kept. *)
Definition dataStored (data : Book.partial) (b b' : Book.t) : Prop :=
  Book.id b' = default (Book.id b) (Book.p_id data)
  /\ Book.title b' = default (Book.title b) (Book.p_title data)
  /\ Book.author b' = default (Book.author b) (Book.p_author data)
  /\ Book.genre b' = default (Book.genre b) (Book.p_genre data)
  /\ Book.status b' = default (Book.status b) (Book.p_status data)
  /\ Book.rights b' = default (Book.rights b) (Book.p_rights data)
  /\ Book.splits b' = default (Book.splits b) (Book.p_splits data)
  /\ Book.chapters b' = default (Book.chapters b) (Book.p_chapters data)
  /\ Book.blurb b' = default (Book.blurb b) (Book.p_blurb data)
  /\ Book.keywords b' = default (Book.keywords b) (Book.p_keywords data)
  /\ Book.illustrations b' = default (Book.illustrations b) (Book.p_illustrations data)
  /\ Book.coverImageUrl b' = default (Book.coverImageUrl b) (Book.p_coverImageUrl data).

(** Chapter [i] reads [content] under the title it had (none, when the
    write created it), every other chapter reads as before, the array
    has grown to hold chapter [i] and no further, and the other fields
    of the book are kept. *)
Definition contentStored (i : nat) (content : jsstring) (b b' : Book.t) : Prop :=
  array_get (Book.chapters b') i
    = Some (BookChapter.mk (match array_get (Book.chapters b) i with
                            | Some ch => BookChapter.title ch
                            | None => None
                            end) content)
  /\ (forall j, j <> i -> array_get (Book.chapters b') j = array_get (Book.chapters b) j)
  /\ length (Book.chapters b') = Nat.max (length (Book.chapters b)) (S i)
  /\ Book.id b' = Book.id b
  /\ Book.title b' = Book.title b
  /\ Book.author b' = Book.author b
  /\ Book.genre b' = Book.genre b
  /\ Book.status b' = Book.status b
  /\ Book.rights b' = Book.rights b
  /\ Book.splits b' = Book.splits b
  /\ Book.blurb b' = Book.blurb b
  /\ Book.keywords b' = Book.keywords b
  /\ Book.illustrations b' = Book.illustrations b
  /\ Book.coverImageUrl b' = Book.coverImageUrl b.

(** A collection rewritten in place by identifier: no entity is added,
    removed or moved; every entity that carries [k] is rewritten as [R]
    has it and every other entity is as it was. When the identifiers of
    the collection are distinct, that is one entity at most: the
    collection is the one before with the entity at one place replaced. *)
Definition rewrittenInPlace {A} (idOf : A -> Z) (k : Z) (R : A -> A -> Prop)
    (before after : list A) : Prop :=
  length after = length before
  /\ (forall i x, before !! i = Some x ->
        exists y, after !! i = Some y /\ if (idOf x =? k)%Z then R x y else y = x)
  /\ (NoDup (map idOf before) ->
      forall i x, before !! i = Some x -> idOf x = k ->
        exists y, R x y /\ after = <[i := y]> before).

(** What one event does to the four collections, in the words of the
    specification: an add appends the new entity, whose identifier is the
    clock reading, at the end of its collection; an update or a toggle
    rewrites its collection in place by identifier; the collections an
    action is not about, and all four while time passes, stay as they
    are. *)
Definition outcome (e : StoreEvent) (w w' : World) : Prop :=
  let rs := releases (music (state w)) in
  let mt := music_tasks (music (state w)) in
  let bs := books (publishing (state w)) in
  let pt := publishing_tasks (publishing (state w)) in
  let rs' := releases (music (state w')) in
  let mt' := music_tasks (music (state w')) in
  let bs' := books (publishing (state w')) in
  let pt' := publishing_tasks (publishing (state w')) in
  match e with
  | Call (AddRelease d) =>
      rs' = rs ++ [Release.mk (now w) (Release.d_title d) (Release.d_artist d) Submitted
                     (Release.d_genre d) (Release.d_releaseDate d) (Release.d_splits d)]
      /\ mt' = mt /\ bs' = bs /\ pt' = pt
  | Call (UpdateMusicSplits k sp) =>
      rewrittenInPlace Release.id k (splitsStored sp) rs rs'
      /\ mt' = mt /\ bs' = bs /\ pt' = pt
  | Call (AddMusicTask text due) =>
      mt' = mt ++ [Task.mk (now w) text due false]
      /\ rs' = rs /\ bs' = bs /\ pt' = pt
  | Call (ToggleMusicTask k) =>
      rewrittenInPlace Task.id k flagFlipped mt mt'
      /\ rs' = rs /\ bs' = bs /\ pt' = pt
  | Call (AddBook d) =>
      bs' = bs ++ [Book.mk (now w) (Book.d_title d) (Book.d_author d) (Book.d_genre d)
                     (Book.d_status d) (Book.d_rights d) (Book.d_splits d)
                     (Book.d_chapters d) (Book.d_blurb d) (Book.d_keywords d)
                     (Book.d_illustrations d) (Book.d_coverImageUrl d)]
      /\ rs' = rs /\ mt' = mt /\ pt' = pt
  | Call (UpdateBook k data) =>
      rewrittenInPlace Book.id k (dataStored data) bs bs'
      /\ rs' = rs /\ mt' = mt /\ pt' = pt
  | Call (UpdateChapterContent k i content) =>
      rewrittenInPlace Book.id k (contentStored i content) bs bs'
      /\ rs' = rs /\ mt' = mt /\ pt' = pt
  | Call (AddPublishingTask text due) =>
      pt' = pt ++ [Task.mk (now w) text due false]
      /\ rs' = rs /\ mt' = mt /\ bs' = bs
  | Call (TogglePublishingTask k) =>
      rewrittenInPlace Task.id k flagFlipped pt pt'
      /\ rs' = rs /\ mt' = mt /\ bs' = bs
  | Pass _ =>
      rs' = rs /\ mt' = mt /\ bs' = bs /\ pt' = pt
  end.

(** ** Collaborator rows: what both split editors share *)

(** Reading a row through its reference. Every reference held by the
    store or by a view was obtained from an allocation, so the default is
    never used on a state the handlers produce. *)
Definition deref (h : list Collaborator.t) (r : ref) : Collaborator.t :=
  default (Collaborator.mk [] []) (h !! r).

Definition rows (h : list Collaborator.t) (l : list ref) : list Collaborator.t :=
  map (deref h) l.

(** [c => c.name.trim() !== '' || c.share.trim() !== ''] *)
Definition keepRow (c : Collaborator.t) : bool :=
  negb (str_eqb (trim (Collaborator.name c)) []) ||
  negb (str_eqb (trim (Collaborator.share c)) []).

(** [collaborators.filter(c => ...)]: the result holds the references of
    the rows that are kept. *)
Definition cleaned (h : list Collaborator.t) (collaborators : list ref) : list ref :=
  List.filter (fun r => keepRow (deref h r)) collaborators.

(** The rows the dirty check disregards, in the words of the
    specification: a field is blank when it is empty or white space only,
    and normalising a list removes the rows whose two fields are blank. *)
Definition isBlank (s : jsstring) : bool := forallb isWhiteSpace s.

Definition blankRow (c : Collaborator.t) : bool :=
  isBlank (Collaborator.name c) && isBlank (Collaborator.share c).

Definition normalize (l : list Collaborator.t) : list Collaborator.t :=
  List.filter (fun c => negb (blankRow c)) l.

Definition noBlankRow (l : list Collaborator.t) : bool :=
  forallb (fun c => negb (blankRow c)) l.

(** [JSON.stringify] of a row object: its own properties in creation
    order, [name] then [share]. *)
Definition stringifyCollaborator (c : Collaborator.t) : jsstring :=
  js "{" ++ QuoteJSONString (js "name") ++ js ":" ++ QuoteJSONString (Collaborator.name c)
  ++ js "," ++ QuoteJSONString (js "share") ++ js ":" ++ QuoteJSONString (Collaborator.share c)
  ++ js "}".

(** [JSON.stringify] of an array of rows. *)
Definition JSON_stringify (l : list Collaborator.t) : jsstring :=
  js "[" ++ join (js ",") (map stringifyCollaborator l) ++ js "]".

(** The comparison both views make:
    [JSON.stringify(cleanedCurrentSplits) !== JSON.stringify(saved.splits)]. *)
Definition splitsDiffer (h : list Collaborator.t) (collaborators saved : list ref) : bool :=
  let cleanedCurrentSplits := cleaned h collaborators in
  negb (str_eqb (JSON_stringify (rows h cleanedCurrentSplits))
                (JSON_stringify (rows h saved))).

(** [{ name: '', share: '' }] *)
Definition emptyRow : Collaborator.t := Collaborator.mk [] [].

Inductive Field := f_name | f_share.

(** [rows[index][field] = value]: a write through the reference. *)
Definition writeField (h : list Collaborator.t) (r : ref) (field : Field)
    (value : jsstring) : list Collaborator.t :=
  let c := deref h r in
  <[r := match field with
         | f_name => Collaborator.mk value (Collaborator.share c)
         | f_share => Collaborator.mk (Collaborator.name c) value
         end]> h.

Definition set_objects (w : World) (h : list Collaborator.t) : World :=
  {| now := now w; state := state w; objects := h;
     saveCalls := saveCalls w; timers := timers w |}.

(** [handleCollaboratorChange], the same function in both views, on the
    row heap and the buffer [collaborators]. [[...collaborators]] is a new
    array of the same references, so the buffer passed to
    [setCollaborators] holds what it held; the write lands in the row
    object itself. An [index] past the end raises a TypeError before
    anything is written. *)
Definition changeCollaborator (index : nat) (field : Field) (value : jsstring)
    (collaborators : list ref) (w : World) : World :=
  match field with
  | f_share =>
      if str_eqb value [] || isDecimalInput value then
        match collaborators !! index with
        | Some r =>
            set_objects w
              (writeField (objects w) r f_share
                 (if parseFloat_gt_100 value then js "100" else value))
        | None => w
        end
      else w
  | f_name =>
      match collaborators !! index with
      | Some r => set_objects w (writeField (objects w) r f_name value)
      | None => w
      end
  end.

(** The dependency arrays of [useEffect]. React compares a dependency
    with [Object.is], for an object its identity. The store replaces a
    release or a book by a new object exactly when an action rewrites it
    and never writes into one, so a dependency whose value differs from
    that of the render before has changed; the comparison below is by
    value. It misses only the rebuilding of the selected entity with the
    very content it had, which re-runs effects that set the buffers to
    what the store holds. *)
Definition changed {A} `{EqDecision A} (before after : A) : bool :=
  negb (bool_decide (before = after)).

(** ** [MusicPublishingView] *)

Module Music.

Inductive Tab :=
  tab_studio | tab_releases | tab_analytics | tab_splits
| tab_sync | tab_career | tab_tasks | tab_help.

#[global] Instance Tab_eq_dec : EqDecision Tab.
Proof. solve_decision. Defined.

(** The closures handed to [handleNavigate]:
    [() => setView('DASHBOARD')] and [() => setActiveTab(tab)]. *)
Inductive NavAction :=
| NavSetView (v : View)
| NavSetActiveTab (tab : Tab).

(** The [useState] cells of the component that the guard reads or
    writes. [selectedReleaseId] holds [''] ([None]) or the decimal form
    of an identifier, which [parseInt(_, 10)] reads back. *)
Record Local := {
  activeTab : Tab;
  selectedReleaseId : option Z;
  collaborators : list ref;
  isNavModalOpen : bool;
  nextNavigationAction : option NavAction }.

Definition initialLocal : Local :=
  {| activeTab := tab_studio; selectedReleaseId := None; collaborators := [];
     isNavModalOpen := false; nextNavigationAction := None |}.

Definition St : Type := World * Local.

Definition setActiveTab (tab : Tab) (c : Local) : Local :=
  {| activeTab := tab; selectedReleaseId := selectedReleaseId c;
     collaborators := collaborators c; isNavModalOpen := isNavModalOpen c;
     nextNavigationAction := nextNavigationAction c |}.

Definition setSelectedReleaseId (v : option Z) (c : Local) : Local :=
  {| activeTab := activeTab c; selectedReleaseId := v;
     collaborators := collaborators c; isNavModalOpen := isNavModalOpen c;
     nextNavigationAction := nextNavigationAction c |}.

Definition setCollaborators (l : list ref) (c : Local) : Local :=
  {| activeTab := activeTab c; selectedReleaseId := selectedReleaseId c;
     collaborators := l; isNavModalOpen := isNavModalOpen c;
     nextNavigationAction := nextNavigationAction c |}.

Definition setNavModalOpen (b : bool) (c : Local) : Local :=
  {| activeTab := activeTab c; selectedReleaseId := selectedReleaseId c;
     collaborators := collaborators c; isNavModalOpen := b;
     nextNavigationAction := nextNavigationAction c |}.

Definition setNextNavigationAction (a : option NavAction) (c : Local) : Local :=
  {| activeTab := activeTab c; selectedReleaseId := selectedReleaseId c;
     collaborators := collaborators c; isNavModalOpen := isNavModalOpen c;
     nextNavigationAction := a |}.

(** [releases.find(r => r.id === parseInt(selectedReleaseId, 10))] *)
Definition selectedRelease (s : St) : option Release.t :=
  match selectedReleaseId (snd s) with
  | Some k => List.find (fun r => (Release.id r =? k)%Z) (releases (music (state (fst s))))
  | None => None
  end.

(** The [useMemo] at lines 744-752, on the values it closes over. *)
Definition isDirty (h : list Collaborator.t) (collaborators : list ref)
    (selectedRelease : option Release.t) (activeTab : Tab) : bool :=
  match selectedRelease with
  | None => false
  | Some r =>
      if negb (bool_decide (activeTab = tab_splits)) then false
      else splitsDiffer h collaborators (Release.splits r)
  end.

Definition isDirtyAt (s : St) : bool :=
  isDirty (objects (fst s)) (collaborators (snd s)) (selectedRelease s) (activeTab (snd s)).

Definition runAction (action : NavAction) (s : St) : St :=
  match action with
  | NavSetView v => (setView v (fst s), snd s)
  | NavSetActiveTab tab => (fst s, setActiveTab tab (snd s))
  end.

Definition handleNavigate (action : NavAction) (s : St) : St :=
  if isDirtyAt s then
    (fst s, setNavModalOpen true (setNextNavigationAction (Some action) (snd s)))
  else runAction action s.

(** [setCollaborators(prev => [...prev, { name: '', share: '' }])]: a
    new row object, referenced from the buffer only. *)
Definition handleAddCollaborator (s : St) : St :=
  let w := fst s in
  (set_objects w (objects w ++ [emptyRow]),
   setCollaborators (collaborators (snd s) ++ [length (objects w)]) (snd s)).

Definition handleCollaboratorChange (index : nat) (field : Field) (value : jsstring)
    (s : St) : St :=
  (changeCollaborator index field value (collaborators (snd s)) (fst s), snd s).

Definition msg_splits_updated (title : jsstring) : jsstring :=
  js "Splits for " ++ [34%N] ++ title ++ [34%N] ++ js " have been updated.".

Definition handleSaveSplits (s : St) : St :=
  match selectedRelease s with
  | None => s
  | Some r =>
      let cleanedCollaborators := cleaned (objects (fst s)) (collaborators (snd s)) in
      let w1 := updateMusicSplits (Release.id r) cleanedCollaborators (fst s) in
      let c1 := setCollaborators cleanedCollaborators (snd s) in
      (addToast (msg_splits_updated (Release.title r)) success w1, c1)
  end.

Definition handleCancelNavigation (s : St) : St :=
  (fst s, setNextNavigationAction None (setNavModalOpen false (snd s))).

Definition handleDiscardAndNavigate (s : St) : St :=
  let s1 := match selectedRelease s with
            | Some r => (fst s, setCollaborators (Release.splits r) (snd s))
            | None => s
            end in
  let s2 := match nextNavigationAction (snd s) with
            | Some action => runAction action s1
            | None => s1
            end in
  handleCancelNavigation s2.

Definition handleSaveAndNavigate (s : St) : St :=
  let s1 := handleSaveSplits s in
  let s2 := match nextNavigationAction (snd s) with
            | Some action => runAction action s1
            | None => s1
            end in
  handleCancelNavigation s2.

(** *** Effects

    The effect that follows [onboarding.activeTabOverride] (lines
    763-767) is left out: the override is written by the actions of the
    onboarding tour only, and the views are taken outside the tour, so
    it never changes and the effect never runs after mounting. *)

(** Lines 769-773, dependencies [[releases, selectedReleaseId]]. *)
Definition effectSelectFirst (cur : St) (acc : Local) : Local :=
  match releases (music (state (fst cur))), selectedReleaseId (snd cur) with
  | r :: _, None => setSelectedReleaseId (Some (Release.id r)) acc
  | _, _ => acc
  end.

(** Lines 775-779, dependencies [[selectedRelease, activeTab]]. *)
Definition effectSyncCollaborators (cur : St) (acc : Local) : Local :=
  match selectedRelease cur with
  | Some r =>
      if bool_decide (activeTab (snd cur) = tab_splits)
      then setCollaborators (Release.splits r) acc
      else acc
  | None => acc
  end.

(** The effects of one render: each effect whose dependencies changed
    since the render before runs on the values of this render, and the
    state updates they request are applied together. *)
Definition renderPass (prev cur : St) : St :=
  let acc0 := snd cur in
  let acc1 :=
    if changed (releases (music (state (fst prev)))) (releases (music (state (fst cur))))
       || changed (selectedReleaseId (snd prev)) (selectedReleaseId (snd cur))
    then effectSelectFirst cur acc0 else acc0 in
  let acc2 :=
    if changed (selectedRelease prev) (selectedRelease cur)
       || changed (activeTab (snd prev)) (activeTab (snd cur))
    then effectSyncCollaborators cur acc1 else acc1 in
  (fst cur, acc2).

(** Renders until the effects are quiet: the first render can select a
    release, the second then copies its splits into the buffer; a third
    would find no dependency changed (lemma [music_flush_settled]
    below). *)
Definition flushEffects (prev cur : St) : St :=
  renderPass cur (renderPass prev cur).

(** An event: the handler runs on the settled state, then the effects. *)
Definition after (handler : St -> St) (s : St) : St :=
  flushEffects s (handler s).

(** Mounting on a world whose tab override is unset: every effect runs
    once on the initial cells, then the renders that follow. *)
Definition mount (w : World) : St :=
  let s0 := (w, initialLocal) in
  let s1 := (w, effectSyncCollaborators s0 (effectSelectFirst s0 initialLocal)) in
  flushEffects s0 s1.

End Music.

(** ** [DigitalPublishingAIView] *)

Module Publishing.

Inductive Tab :=
  tab_studio | tab_distribution | tab_analytics | tab_rights_splits
| tab_marketing | tab_audiobook | tab_world_building | tab_tasks | tab_help.

#[global] Instance Tab_eq_dec : EqDecision Tab.
Proof. solve_decision. Defined.

(** The closures handed to [handleNavigate]: [() => setView('DASHBOARD')],
    [() => setActiveTab(tab)], [() => setSelectedBookId(e.target.value)],
    [() => setActiveChapterIndex(index)] and the [action] of
    [handleCreateNewChapter], which closes over [selectedBook]. *)
Inductive NavAction :=
| NavSetView (v : View)
| NavSetActiveTab (tab : Tab)
| NavSetSelectedBookId (v : option Z)
| NavSetActiveChapterIndex (index : nat)
| NavNewChapter (selectedBook : Book.t).

Record Local := {
  activeTab : Tab;
  selectedBookId : option Z;
  isNavModalOpen : bool;
  nextNavigationAction : option NavAction;
  isManuscriptDirty : bool;
  manuscriptText : jsstring;
  lastManuscriptState : option jsstring;
  activeChapterIndex : nat;
  collaborators : list ref }.

Definition initialLocal : Local :=
  {| activeTab := tab_studio; selectedBookId := None; isNavModalOpen := false;
     nextNavigationAction := None; isManuscriptDirty := false; manuscriptText := [];
     lastManuscriptState := None; activeChapterIndex := 0; collaborators := [] |}.

Definition St : Type := World * Local.

Definition setActiveTab (tab : Tab) (c : Local) : Local :=
  {| activeTab := tab; selectedBookId := selectedBookId c;
     isNavModalOpen := isNavModalOpen c; nextNavigationAction := nextNavigationAction c;
     isManuscriptDirty := isManuscriptDirty c; manuscriptText := manuscriptText c;
     lastManuscriptState := lastManuscriptState c;
     activeChapterIndex := activeChapterIndex c; collaborators := collaborators c |}.

Definition setSelectedBookId (v : option Z) (c : Local) : Local :=
  {| activeTab := activeTab c; selectedBookId := v;
     isNavModalOpen := isNavModalOpen c; nextNavigationAction := nextNavigationAction c;
     isManuscriptDirty := isManuscriptDirty c; manuscriptText := manuscriptText c;
     lastManuscriptState := lastManuscriptState c;
     activeChapterIndex := activeChapterIndex c; collaborators := collaborators c |}.

Definition setNavModalOpen (b : bool) (c : Local) : Local :=
  {| activeTab := activeTab c; selectedBookId := selectedBookId c;
     isNavModalOpen := b; nextNavigationAction := nextNavigationAction c;
     isManuscriptDirty := isManuscriptDirty c; manuscriptText := manuscriptText c;
     lastManuscriptState := lastManuscriptState c;
     activeChapterIndex := activeChapterIndex c; collaborators := collaborators c |}.

Definition setNextNavigationAction (a : option NavAction) (c : Local) : Local :=
  {| activeTab := activeTab c; selectedBookId := selectedBookId c;
     isNavModalOpen := isNavModalOpen c; nextNavigationAction := a;
     isManuscriptDirty := isManuscriptDirty c; manuscriptText := manuscriptText c;
     lastManuscriptState := lastManuscriptState c;
     activeChapterIndex := activeChapterIndex c; collaborators := collaborators c |}.

Definition setManuscriptDirty (b : bool) (c : Local) : Local :=
  {| activeTab := activeTab c; selectedBookId := selectedBookId c;
     isNavModalOpen := isNavModalOpen c; nextNavigationAction := nextNavigationAction c;
     isManuscriptDirty := b; manuscriptText := manuscriptText c;
     lastManuscriptState := lastManuscriptState c;
     activeChapterIndex := activeChapterIndex c; collaborators := collaborators c |}.

Definition setManuscriptText (t : jsstring) (c : Local) : Local :=
  {| activeTab := activeTab c; selectedBookId := selectedBookId c;
     isNavModalOpen := isNavModalOpen c; nextNavigationAction := nextNavigationAction c;
     isManuscriptDirty := isManuscriptDirty c; manuscriptText := t;
     lastManuscriptState := lastManuscriptState c;
     activeChapterIndex := activeChapterIndex c; collaborators := collaborators c |}.

Definition setLastManuscriptState (t : option jsstring) (c : Local) : Local :=
  {| activeTab := activeTab c; selectedBookId := selectedBookId c;
     isNavModalOpen := isNavModalOpen c; nextNavigationAction := nextNavigationAction c;
     isManuscriptDirty := isManuscriptDirty c; manuscriptText := manuscriptText c;
     lastManuscriptState := t;
     activeChapterIndex := activeChapterIndex c; collaborators := collaborators c |}.

Definition setActiveChapterIndex (i : nat) (c : Local) : Local :=
  {| activeTab := activeTab c; selectedBookId := selectedBookId c;
     isNavModalOpen := isNavModalOpen c; nextNavigationAction := nextNavigationAction c;
     isManuscriptDirty := isManuscriptDirty c; manuscriptText := manuscriptText c;
     lastManuscriptState := lastManuscriptState c;
     activeChapterIndex := i; collaborators := collaborators c |}.

Definition setCollaborators (l : list ref) (c : Local) : Local :=
  {| activeTab := activeTab c; selectedBookId := selectedBookId c;
     isNavModalOpen := isNavModalOpen c; nextNavigationAction := nextNavigationAction c;
     isManuscriptDirty := isManuscriptDirty c; manuscriptText := manuscriptText c;
     lastManuscriptState := lastManuscriptState c;
     activeChapterIndex := activeChapterIndex c; collaborators := l |}.

(** [books.find(b => b.id === parseInt(selectedBookId, 10))] *)
Definition selectedBook (s : St) : option Book.t :=
  match selectedBookId (snd s) with
  | Some k => List.find (fun b => (Book.id b =? k)%Z) (books (publishing (state (fst s))))
  | None => None
  end.

(** The [useMemo] at lines 1344-1351. *)
Definition areSplitsDirty (h : list Collaborator.t) (collaborators : list ref)
    (selectedBook : option Book.t) (activeTab : Tab) : bool :=
  match selectedBook with
  | None => false
  | Some b =>
      if negb (bool_decide (activeTab = tab_rights_splits)) then false
      else splitsDiffer h collaborators (Book.splits b)
  end.

(** The [useMemo] at lines 1353-1357. *)
Definition isDirty (activeTab : Tab) (isManuscriptDirty areSplitsDirty : bool) : bool :=
  if bool_decide (activeTab = tab_studio) then isManuscriptDirty
  else if bool_decide (activeTab = tab_rights_splits) then areSplitsDirty
  else false.

Definition areSplitsDirtyAt (s : St) : bool :=
  areSplitsDirty (objects (fst s)) (collaborators (snd s)) (selectedBook s)
    (activeTab (snd s)).

Definition isDirtyAt (s : St) : bool :=
  isDirty (activeTab (snd s)) (isManuscriptDirty (snd s)) (areSplitsDirtyAt s).

(** [selectedBook.chapters[activeChapterIndex]?.content || ''] *)
Definition chapterContent (b : Book.t) (i : nat) : jsstring :=
  match array_get (Book.chapters b) i with
  | Some ch => BookChapter.content ch
  | None => []
  end.

Definition msg_new_chapter : jsstring := js "New chapter added.".

(** [`Chapter ${n}`] *)
Definition chapterTitle (n : nat) : jsstring :=
  js "Chapter " ++ js (NilZero.string_of_uint (Nat.to_uint n)).

(** Running a captured closure. The [action] of [handleCreateNewChapter]
    awaits [updateBook] before it moves to the new chapter; no other
    event is taken to run in between. *)
Definition runAction (action : NavAction) (s : St) : St :=
  match action with
  | NavSetView v => (setView v (fst s), snd s)
  | NavSetActiveTab tab => (fst s, setActiveTab tab (snd s))
  | NavSetSelectedBookId v => (fst s, setSelectedBookId v (snd s))
  | NavSetActiveChapterIndex index => (fst s, setActiveChapterIndex index (snd s))
  | NavNewChapter selectedBook =>
      let newChapter :=
        BookChapter.mk (Some (chapterTitle (length (Book.chapters selectedBook) + 1))) [] in
      let updatedChapters := Book.chapters selectedBook ++ [Some newChapter] in
      let w1 := updateBook (Book.id selectedBook) (chaptersOnly updatedChapters) (fst s) in
      (addToast msg_new_chapter success w1,
       setActiveChapterIndex (length updatedChapters - 1) (snd s))
  end.

Definition handleNavigate (action : NavAction) (s : St) : St :=
  if isDirtyAt s then
    (fst s, setNavModalOpen true (setNextNavigationAction (Some action) (snd s)))
  else runAction action s.

Definition handleManuscriptChange (newContent : jsstring) (s : St) : St :=
  let c1 := setManuscriptDirty true (setManuscriptText newContent (snd s)) in
  match selectedBook s with
  | Some b =>
      (updateChapterContent (Book.id b) (activeChapterIndex (snd s)) newContent (fst s), c1)
  | None => (fst s, c1)
  end.

Definition handleChapterChange (index : nat) (s : St) : St :=
  handleNavigate (NavSetActiveChapterIndex index) s.

Definition handleCreateNewChapter (s : St) : St :=
  match selectedBook s with
  | None => s
  | Some b => handleNavigate (NavNewChapter b) s
  end.

Definition msg_uploaded : jsstring := js "Manuscript uploaded successfully.".

(** [reader.onload] of [handleFileUpload], up to its [await]: the book
    that was selected when the file was chosen gets the single chapter. *)
Definition uploadStart (selectedBook : Book.t) (text : jsstring) (s : St) : St :=
  let updatedChapters :=
    [Some (BookChapter.mk (Some (js "Chapter 1 (from TXT)")) text)] in
  (updateBook (Book.id selectedBook) (chaptersOnly updatedChapters) (fst s), snd s).

(** [reader.onload] after the [await]. *)
Definition uploadResume (text : jsstring) (s : St) : St :=
  (addToast msg_uploaded success (fst s),
   setManuscriptDirty true
     (setLastManuscriptState None
        (setManuscriptText text (setActiveChapterIndex 0 (snd s))))).

Definition handleAddCollaborator (s : St) : St :=
  let w := fst s in
  (set_objects w (objects w ++ [emptyRow]),
   setCollaborators (collaborators (snd s) ++ [length (objects w)]) (snd s)).

Definition handleCollaboratorChange (index : nat) (field : Field) (value : jsstring)
    (s : St) : St :=
  (changeCollaborator index field value (collaborators (snd s)) (fst s), snd s).

Definition msg_splits_updated (title : jsstring) : jsstring :=
  js "Splits for " ++ [34%N] ++ title ++ [34%N] ++ js " have been updated.".

Definition handleSaveSplits (s : St) : St :=
  match selectedBook s with
  | None => s
  | Some b =>
      let cleanedCollaborators := cleaned (objects (fst s)) (collaborators (snd s)) in
      let w1 := updateBook (Book.id b) (splitsOnly cleanedCollaborators) (fst s) in
      let c1 := setCollaborators cleanedCollaborators (snd s) in
      (addToast (msg_splits_updated (Book.title b)) success w1, c1)
  end.

Definition handleCancelNavigation (s : St) : St :=
  (fst s, setNextNavigationAction None (setNavModalOpen false (snd s))).

Definition handleDiscardAndNavigate (s : St) : St :=
  let s1 :=
    match selectedBook s with
    | Some b =>
        if bool_decide (activeTab (snd s) = tab_studio) then
          (fst s, setManuscriptDirty false
                    (setManuscriptText (chapterContent b (activeChapterIndex (snd s)))
                       (snd s)))
        else s
    | None => s
    end in
  let s2 :=
    match selectedBook s with
    | Some b =>
        if bool_decide (activeTab (snd s) = tab_rights_splits) then
          (fst s1, setCollaborators (Book.splits b) (snd s1))
        else s1
    | None => s1
    end in
  let s3 := match nextNavigationAction (snd s) with
            | Some action => runAction action s2
            | None => s2
            end in
  handleCancelNavigation s3.

(** [await forceSave()] is taken to complete before any other event. *)
Definition handleSaveAndNavigate (s : St) : St :=
  let s1 :=
    match selectedBook s with
    | Some _ =>
        if bool_decide (activeTab (snd s) = tab_studio) then
          (forceSave (fst s), setManuscriptDirty false (snd s))
        else s
    | None => s
    end in
  let s2 :=
    if bool_decide (activeTab (snd s) = tab_rights_splits)
    then handleSaveSplits s1 else s1 in
  let s3 := match nextNavigationAction (snd s) with
            | Some action => runAction action s2
            | None => s2
            end in
  handleCancelNavigation s3.

(** *** Effects

    As in the music view, the effect on [activeTabOverride] (lines
    1427-1431) is left out. *)

(** Lines 1433-1437, dependencies [[books, selectedBookId]]. *)
Definition effectSelectFirst (cur : St) (acc : Local) : Local :=
  match books (publishing (state (fst cur))), selectedBookId (snd cur) with
  | b :: _, None => setSelectedBookId (Some (Book.id b)) acc
  | _, _ => acc
  end.

(** Lines 1440-1448, dependencies [[selectedBook, activeChapterIndex]]. *)
Definition effectManuscript (cur : St) (acc : Local) : Local :=
  let acc := setLastManuscriptState None acc in
  match selectedBook cur with
  | Some b =>
      setManuscriptDirty false
        (setManuscriptText (chapterContent b (activeChapterIndex (snd cur))) acc)
  | None => setManuscriptText [] acc
  end.

(** Lines 1451-1455, dependencies [[selectedBook, activeTab]]. *)
Definition effectSyncCollaborators (cur : St) (acc : Local) : Local :=
  match selectedBook cur with
  | Some b =>
      if bool_decide (activeTab (snd cur) = tab_rights_splits)
      then setCollaborators (Book.splits b) acc
      else acc
  | None => acc
  end.

Definition renderPass (prev cur : St) : St :=
  let acc0 := snd cur in
  let acc1 :=
    if changed (books (publishing (state (fst prev)))) (books (publishing (state (fst cur))))
       || changed (selectedBookId (snd prev)) (selectedBookId (snd cur))
    then effectSelectFirst cur acc0 else acc0 in
  let acc2 :=
    if changed (selectedBook prev) (selectedBook cur)
       || changed (activeChapterIndex (snd prev)) (activeChapterIndex (snd cur))
    then effectManuscript cur acc1 else acc1 in
  let acc3 :=
    if changed (selectedBook prev) (selectedBook cur)
       || changed (activeTab (snd prev)) (activeTab (snd cur))
    then effectSyncCollaborators cur acc2 else acc2 in
  (fst cur, acc3).

(** Two renders, as in the music view: the first can select a book, the
    second then loads its chapter and its splits; a third would find no
    dependency changed (lemma [flush_settled] below). *)
Definition flushEffects (prev cur : St) : St :=
  renderPass cur (renderPass prev cur).

Definition after (handler : St -> St) (s : St) : St :=
  flushEffects s (handler s).

Definition mount (w : World) : St :=
  let s0 := (w, initialLocal) in
  let s1 := (w, effectSyncCollaborators s0
                  (effectManuscript s0 (effectSelectFirst s0 initialLocal))) in
  flushEffects s0 s1.

End Publishing.

Arguments Music.renderPass : simpl never.
Arguments Music.flushEffects : simpl never.
Arguments Publishing.renderPass : simpl never.
Arguments Publishing.flushEffects : simpl never.

(** ** What it is for a captured action to have been carried out *)



(** ** The onboarding tour *)

(** A step of the tour, as far as the store reads it: the [title],
    [content], [style] and [arrowDirection] of a step are only shown. *)
Module TourStep.
Record t := mk { view : View; targetTab : option jsstring }.
End TourStep.

Definition TOUR_STEPS : list TourStep.t :=
  [ TourStep.mk DASHBOARD None;
    TourStep.mk MUSIC None;
    TourStep.mk MUSIC (Some (js "studio"));
    TourStep.mk DASHBOARD None;
    TourStep.mk PUBLISHING None;
    TourStep.mk PUBLISHING (Some (js "studio"));
    TourStep.mk DASHBOARD None ].

(** [TOUR_STEPS[i]] for a number [i]: [undefined] outside the array. *)
Definition tourStepAt (i : Z) : option TourStep.t :=
  if (i <? 0)%Z then None else TOUR_STEPS !! Z.to_nat i.

(** [set(state => ({ view: step.view, onboarding: { ...state.onboarding,
    tourStepIndex: i, activeTabOverride: step.targetTab } }))] *)
Definition showStep (i : Z) (step : TourStep.t) (w : World) : World :=
  let s := state w in
  set_state w
    {| isInitialized := isInitialized s; view := TourStep.view step; toasts := toasts s;
       onboarding := {| tourStepIndex := i;
                        onboardingComplete := onboardingComplete (onboarding s);
                        activeTabOverride := TourStep.targetTab step |};
       music := music s; publishing := publishing s |}.

Definition startTour (w : World) : World :=
  if negb (onboardingComplete (onboarding (state w))) then
    match tourStepAt 0 with
    | Some firstStep => showStep 0 firstStep w
    | None => w
    end
  else w.

Definition msg_all_set : jsstring := js "You're all set! Feel free to explore.".

(** [skipTour]: the state is set and [api.saveData] called at once; the
    toast follows when the save resolves, 250 ms later, no other event
    being taken in between. *)
Definition skipTour (w : World) : World :=
  let s := state w in
  let w1 :=
    set_state w
      {| isInitialized := isInitialized s; view := DASHBOARD; toasts := toasts s;
         onboarding := {| tourStepIndex := (-1)%Z; onboardingComplete := true;
                          activeTabOverride := None |};
         music := music s; publishing := publishing s |} in
  addToast msg_all_set success (elapse 250 (_saveState w1)).

(** [nextTourStep]. Reading [nextStep.view] of a missing step raises a
    TypeError inside the updater and the store is left as it was; this
    takes an index below -1, which no action of the store produces. *)
Definition nextTourStep (w : World) : World :=
  let currentStepIndex := tourStepIndex (onboarding (state w)) in
  if (currentStepIndex <? Z.of_nat (length TOUR_STEPS) - 1)%Z then
    let nextStepIndex := (currentStepIndex + 1)%Z in
    match tourStepAt nextStepIndex with
    | Some nextStep => showStep nextStepIndex nextStep w
    | None => w
    end
  else skipTour w.

(** The tour's three actions, as data. *)
Inductive TourAction := StartTour | NextTourStep | SkipTour.

Definition tour (a : TourAction) (w : World) : World :=
  match a with
  | StartTour => startTour w
  | NextTourStep => nextTourStep w
  | SkipTour => skipTour w
  end.

(** [App]: [const currentTourStep = tourStepIndex >= 0 ?
    TOUR_STEPS[tourStepIndex] : null], and [isLastStep]. *)
Definition currentTourStep (w : World) : option TourStep.t :=
  let i := tourStepIndex (onboarding (state w)) in
  if (0 <=? i)%Z then tourStepAt i else None.

Definition isLastStep (w : World) : bool :=
  (tourStepIndex (onboarding (state w)) =? Z.of_nat (length TOUR_STEPS) - 1)%Z.

(** The effect of [App] on mounting:
    [initializeApp().then(() => { if (!onboardingComplete) startTour(); })]. *)
Definition App_mount (r : FetchOutcome) (w : World) : Outcome World :=
  bind (initializeApp r w) (fun w1 =>
    Fulfilled (if negb (onboardingComplete (onboarding (state w1)))
               then startTour w1 else w1)).

(** ** [ToastContainer] and [Toast] *)

Module ToastContainer.

(** A mounted [Toast]: its React key, which is the toast's [id], and the
    time at which the timer set by its effect calls [onDismiss]. *)
Record Mounted := { key : Z; due : Z }.

Definition St : Type := World * list Mounted.

Definition isShown (ts : list ToastMessage.t) (m : Mounted) : bool :=
  existsb (fun t => (ToastMessage.id t =? key m)%Z) ts.

Definition isMounted (ms : list Mounted) (t : ToastMessage.t) : bool :=
  existsb (fun m => (key m =? ToastMessage.id t)%Z) ms.

(** A render of [toasts.map(toast => <Toast key={toast.id} ... />)] and
    its commit: a [Toast] whose key has left the list unmounts and its
    clean-up clears its timer; a [Toast] whose key is new mounts and its
    effect sets a timer 5000 ms ahead; the others keep their timer, the
    dependencies [[message.id, onDismiss]] being unchanged. Toasts added
    within one millisecond share their id, hence their key; whichever
    timers stand for a key, each dismisses every toast of that id. *)
Definition commit (s : St) : St :=
  let w := fst s in
  let ts := toasts (state w) in
  (w,
   List.filter (isShown ts) (snd s) ++
   map (fun t => {| key := ToastMessage.id t; due := (now w + 5000)%Z |})
       (List.filter (fun t => negb (isMounted (snd s) t)) ts)).

(** [ToastContainer] mounts with [App]'s main tree, once the store is
    initialized. *)
Definition mount (w : World) : St := commit (w, []).

(** [d] milliseconds pass: the timers of the store and of the mounted
    toasts that come due run; a toast's timer calls [dismissToast] with
    its key. *)
Definition expire (d : N) (s : St) : St :=
  let w1 := elapse (Z.of_N d) (fst s) in
  let fired := List.filter (fun m => (due m <=? now w1)%Z) (snd s) in
  commit (fold_left (fun w m => dismissToast (key m) w) fired w1, snd s).

Inductive Event :=
| AddToast (message : jsstring) (type : ToastType)
| DismissToast (id : Z)
| Wait (d : N).

Definition step (s : St) (e : Event) : St :=
  match e with
  | AddToast message type => commit (addToast message type (fst s), snd s)
  | DismissToast id => commit (dismissToast id (fst s), snd s)
  | Wait d => expire d s
  end.

End ToastContainer.

(** ** [TaskManager] *)

(** [Array.prototype.sort] with a comparator whose sign orders the
    elements: the sort is stable, so the result is the one an insertion
    from the right builds, an element going before the first one it
    does not exceed. *)
Fixpoint Array_sort_insert {A} (compareFn : A -> A -> Z) (x : A) (l : list A) : list A :=
  match l with
  | [] => [x]
  | y :: t => if (compareFn x y <=? 0)%Z then x :: l else y :: Array_sort_insert compareFn x t
  end.

Definition Array_sort {A} (compareFn : A -> A -> Z) (l : list A) : list A :=
  fold_right (Array_sort_insert compareFn) [] l.

Module TaskManager.

(** The [module] property. *)
Inductive Kind := for_music | for_publishing.

(** The two input cells. *)
Record Local := { newTask : jsstring; newDueDate : jsstring }.

Definition St : Type := World * Local.

Definition tasks (module : Kind) (w : World) : list Task.t :=
  match module with
  | for_music => music_tasks (music (state w))
  | for_publishing => publishing_tasks (publishing (state w))
  end.

Definition addTask (module : Kind) : jsstring -> jsstring -> World -> World :=
  match module with
  | for_music => addMusicTask
  | for_publishing => addPublishingTask
  end.

Definition toggleTask (module : Kind) : Z -> World -> World :=
  match module with
  | for_music => toggleMusicTask
  | for_publishing => togglePublishingTask
  end.

Definition handleAddTask (module : Kind) (s : St) : St :=
  let c := snd s in
  if str_eqb (trim (newTask c)) [] then s
  else (addTask module (trim (newTask c)) (newDueDate c) (fst s),
        {| newTask := []; newDueDate := [] |}).

(** [(a, b) => a.completed === b.completed ? 0 : a.completed ? 1 : -1] *)
Definition byCompletion (a b : Task.t) : Z :=
  if Bool.eqb (Task.completed a) (Task.completed b) then 0%Z
  else if Task.completed a then 1%Z else (-1)%Z.

(** The rows of the list, in the order shown: [[...tasks].sort(...)]. *)
Definition shownTasks (module : Kind) (w : World) : list Task.t :=
  Array_sort byCompletion (tasks module w).

End TaskManager.

(** ** Handlers of [MusicPublishingView] outside the guard *)

Module MusicStudio.

(** The release selector of the splits tab:
    [onChange={e => setSelectedReleaseId(e.target.value)}]. *)
Definition handleSelectRelease (v : option Z) (s : Music.St) : Music.St :=
  (fst s, Music.setSelectedReleaseId v (snd s)).

(** The cells of the studio tab that [handleSubmitRelease] reads or
    writes. *)
Record Form := {
  artist : jsstring; title : jsstring; genre : jsstring;
  mood : jsstring; tags : jsstring; generatedCoverArt : jsstring }.

Definition initialForm : Form :=
  {| artist := js "Synth Rider"; title := js "Neon Pulse"; genre := js "Synthwave";
     mood := []; tags := []; generatedCoverArt := [] |}.

Definition St : Type := Music.St * Form.

Definition msg_fill_in : jsstring := js "Please fill in Artist, Title, and Genre.".

Definition msg_submitted (title : jsstring) : jsstring :=
  [34%N] ++ title ++ [34%N] ++ js " has been submitted for distribution!".

(** [{ name: artist, share: '100' }] is a new row object, held by the
    new release only. *)
Definition handleSubmitRelease (s : St) : St :=
  let w := fst (fst s) in
  let c := snd (fst s) in
  let f := snd s in
  if str_eqb (title f) [] || str_eqb (artist f) [] || str_eqb (genre f) [] then
    ((addToast msg_fill_in error w, c), f)
  else
    let w1 := set_objects w (objects w ++ [Collaborator.mk (artist f) (js "100")]) in
    let newReleaseData :=
      Release.mkData (title f) (artist f) (Some (genre f)) None [length (objects w)] in
    let w2 := addRelease newReleaseData w1 in
    let w3 := addToast (msg_submitted (title f)) success w2 in
    ((w3, Music.setActiveTab Music.tab_releases c),
     {| artist := []; title := []; genre := []; mood := []; tags := [];
        generatedCoverArt := [] |}).

(** An event of the studio tab, with the effects of the view. *)
Definition after (handler : St -> St) (s : St) : St :=
  (Music.flushEffects (fst s) (fst (handler s)), snd (handler s)).

End MusicStudio.

(** ** Handlers of [DigitalPublishingAIView] outside the guard *)

Module PublishingStudio.
Import Publishing.

(** [applyAiChange], called with the text the model returned. *)
Definition applyAiChange (newText : jsstring) (s : St) : St :=
  match selectedBook s with
  | Some b =>
      (updateChapterContent (Book.id b) (activeChapterIndex (snd s)) newText (fst s),
       setManuscriptDirty true
         (setManuscriptText newText
            (setLastManuscriptState (Some (manuscriptText (snd s))) (snd s))))
  | None => s
  end.

Definition msg_reverted : jsstring := js "AI change has been reverted.".

Definition handleUndo (s : St) : St :=
  match selectedBook s, lastManuscriptState (snd s) with
  | Some b, Some last =>
      (addToast msg_reverted success
         (updateChapterContent (Book.id b) (activeChapterIndex (snd s)) last (fst s)),
       setLastManuscriptState None
         (setManuscriptDirty true (setManuscriptText last (snd s))))
  | _, _ => s
  end.

(** [keyof BookRights] *)
Inductive RightKey := k_territorial | k_translation | k_adaptation | k_audio | k_drm.

Definition getRight (r : BookRights) (key : RightKey) : bool :=
  match key with
  | k_territorial => territorial r
  | k_translation => translation r
  | k_adaptation => adaptation r
  | k_audio => audio r
  | k_drm => drm r
  end.

(** [{ ...rights, [rightKey]: value }] *)
Definition setRight (r : BookRights) (key : RightKey) (value : bool) : BookRights :=
  match key with
  | k_territorial =>
      {| territorial := value; translation := translation r; adaptation := adaptation r;
         audio := audio r; drm := drm r |}
  | k_translation =>
      {| territorial := territorial r; translation := value; adaptation := adaptation r;
         audio := audio r; drm := drm r |}
  | k_adaptation =>
      {| territorial := territorial r; translation := translation r; adaptation := value;
         audio := audio r; drm := drm r |}
  | k_audio =>
      {| territorial := territorial r; translation := translation r;
         adaptation := adaptation r; audio := value; drm := drm r |}
  | k_drm =>
      {| territorial := territorial r; translation := translation r;
         adaptation := adaptation r; audio := audio r; drm := value |}
  end.

(** [{ rights: r }] *)
Definition rightsOnly (r : BookRights) : Book.partial :=
  Book.mkPartial None None None None None (Some r) None None None None None None.

Definition handleToggleRight (rightKey : RightKey) (s : St) : St :=
  match selectedBook s with
  | None => s
  | Some b =>
      let updatedRights :=
        setRight (Book.rights b) rightKey (negb (getRight (Book.rights b) rightKey)) in
      (updateBook (Book.id b) (rightsOnly updatedRights) (fst s), snd s)
  end.

End PublishingStudio.

(** ** The backend: [GET /api/data] of [src/backend/server.js] *)

Module Backend.

(** The [reduce] that builds [musicSplitsMap], [bookSplitsMap],
    [bookChaptersMap] and [bookIllustrationsMap]: an object keyed by the
    identifier of the owner, each key holding the array of the items
    pushed for it. The keys are integers (the identifiers of the
    tables). *)
Definition groupStep {Row A} (keyOf : Row -> Z) (item : Row -> A)
    (acc : gmap Z (list A)) (row : Row) : gmap Z (list A) :=
  let acc1 := match acc !! keyOf row with
              | Some _ => acc
              | None => <[keyOf row := []]> acc
              end in
  <[keyOf row := default [] (acc1 !! keyOf row) ++ [item row]]> acc1.

Definition groupRows {Row A} (keyOf : Row -> Z) (item : Row -> A) (rows : list Row)
    : gmap Z (list A) :=
  fold_left (groupStep keyOf item) rows ∅.

(** [map[id] || []] *)
Definition itemsOf {A} (m : gmap Z (list A)) (id : Z) : list A :=
  default [] (m !! id).

Section Rows.

(** What the database driver returns for a [share] column, and
    [String(...)] on it. *)
Context {DbValue : Type} (String_ : DbValue -> jsstring).

Record MusicSplitRow := { ms_release_id : Z; ms_name : jsstring; ms_share : DbValue }.
Record BookSplitRow := { bs_book_id : Z; bs_name : jsstring; bs_share : DbValue }.
Record BookChapterRow := { bc_book_id : Z; bc_title : jsstring; bc_content : jsstring }.
Record BookIllustrationRow := { bi_book_id : Z; bi_url : jsstring; bi_prompt : jsstring }.

Definition musicSplitsMap (rows : list MusicSplitRow) : gmap Z (list Collaborator.t) :=
  groupRows ms_release_id
    (fun split => Collaborator.mk (ms_name split) (String_ (ms_share split))) rows.

Definition bookSplitsMap (rows : list BookSplitRow) : gmap Z (list Collaborator.t) :=
  groupRows bs_book_id
    (fun split => Collaborator.mk (bs_name split) (String_ (bs_share split))) rows.

Definition bookChaptersMap (rows : list BookChapterRow) : gmap Z (list BookChapter.t) :=
  groupRows bc_book_id
    (fun chapter => BookChapter.mk (Some (bc_title chapter)) (bc_content chapter)) rows.

Definition bookIllustrationsMap (rows : list BookIllustrationRow)
    : gmap Z (list BookIllustration) :=
  groupRows bi_book_id
    (fun illustration => {| url := bi_url illustration; prompt := bi_prompt illustration |})
    rows.

End Rows.

End Backend.

(** ** Sample data *)

Definition rowA : Collaborator.t := Collaborator.mk (js "A") (js "60").
Definition rowB : Collaborator.t := Collaborator.mk (js "B") (js "40").

Definition rowK : Collaborator.t := Collaborator.mk (js "K. Ito") (js "100").

(** A release whose saved splits are A 60 and B 40. *)
Definition sample_release : Release.t :=
  Release.mk 1 (js "Neon Pulse") (js "Synth Rider") Live None None [0; 1].

Definition sample_rights : BookRights :=
  {| territorial := true; translation := false; adaptation := false;
     audio := false; drm := true |}.

(** Two books; the first has one chapter and K. Ito holding 100. *)
Definition sample_book : Book.t :=
  Book.mk 7 (js "Night Train") (js "K. Ito") (js "Sci-Fi") Draft sample_rights
    [2] [Some (BookChapter.mk (Some (js "Chapter 1")) (js "It rained."))] [] [] [] [].

Definition rowM : Collaborator.t := Collaborator.mk (js "M. Rae") (js "100").

Definition other_book : Book.t :=
  Book.mk 8 (js "Day Boat") (js "M. Rae") (js "Sci-Fi") Draft sample_rights
    [3] [Some (BookChapter.mk (Some (js "Chapter 1")) [])] [] [] [] [].

Definition sample_tasks : list Task.t :=
  [Task.mk 11 (js "Master the single") (js "2025-01-31") false;
   Task.mk 12 (js "Book the studio") [] true].

Definition sample_world : World :=
  {| now := 1000;
     state := set_isInitialized
                (set_publishing
                   (set_music initialState
                      {| releases := [sample_release]; music_tasks := sample_tasks |})
                   {| books := [sample_book; other_book]; publishing_tasks := [] |})
                true;
     objects := [rowA; rowB; rowK; rowM]; saveCalls := []; timers := [] |}.

(** The music view mounted on that world, then moved to the splits tab. *)
Definition sample_splits_tab : Music.St :=
  Music.after (Music.handleNavigate (Music.NavSetActiveTab Music.tab_splits))
    (Music.mount sample_world).

(** The scenario of the specification and one more row: the share of B
    is edited from 40 to 41, a row is added and named C, the user asks
    for the releases tab and then discards. *)
Definition sample_edited : Music.St :=
  Music.after (Music.handleCollaboratorChange 1 f_share (js "41")) sample_splits_tab.

Definition sample_dirty : Music.St :=
  Music.after (Music.handleCollaboratorChange 2 f_name (js "C"))
    (Music.after Music.handleAddCollaborator sample_edited).

Definition sample_pending : Music.St :=
  Music.after (Music.handleNavigate (Music.NavSetActiveTab Music.tab_releases))
    sample_dirty.

Definition sample_discarded : Music.St :=
  Music.after Music.handleDiscardAndNavigate sample_pending.

(** The publishing view mounted on the sample world and moved to the
    rights tab; a row named Z is added to the first book; the user then
    selects the second book. *)
Definition pub_rights : Publishing.St :=
  Publishing.after
    (Publishing.handleNavigate (Publishing.NavSetActiveTab Publishing.tab_rights_splits))
    (Publishing.mount sample_world).

Definition pub_dirty : Publishing.St :=
  Publishing.after (Publishing.handleCollaboratorChange 1 f_name (js "Z"))
    (Publishing.after Publishing.handleAddCollaborator pub_rights).

Definition pub_pending : Publishing.St :=
  Publishing.after
    (Publishing.handleNavigate (Publishing.NavSetSelectedBookId (Some 8%Z))) pub_dirty.

(** A text file is loaded into the first book on the studio tab, which
    leaves the manuscript flagged dirty; the user asks for the rights
    tab. *)
Definition pub_uploaded : Publishing.St :=
  Publishing.after (Publishing.uploadResume (js "It rained all night."))
    (Publishing.after (Publishing.uploadStart sample_book (js "It rained all night."))
       (Publishing.mount sample_world)).







(** A release and a book whose saved splits are one blank row. *)
Definition blank_heap : list Collaborator.t := [emptyRow].

Definition blank_release : Release.t :=
  Release.mk 1 (js "Neon Pulse") (js "Synth Rider") Live None None [0].

Definition blank_book : Book.t :=
  Book.mk 7 (js "Night Train") (js "K. Ito") (js "Sci-Fi") Draft sample_rights
    [0] [Some (BookChapter.mk (Some (js "Chapter 1")) [])] [] [] [] [].

Definition blank_world : World :=
  {| now := 1000;
     state := set_isInitialized
                (set_music initialState
                   {| releases := [blank_release]; music_tasks := [] |}) true;
     objects := blank_heap; saveCalls := []; timers := [] |}.

Definition blank_splits_tab : Music.St :=
  Music.after (Music.handleNavigate (Music.NavSetActiveTab Music.tab_splits))
    (Music.mount blank_world).

(** A second release, held by M. Rae alone, beside the first. *)
Definition second_release : Release.t :=
  Release.mk 2 (js "Afterglow") (js "Synth Rider") Live None None [3].

Definition two_releases_world : World :=
  {| now := 1000;
     state := set_music (state sample_world)
                {| releases := [sample_release; second_release]; music_tasks := [] |};
     objects := objects sample_world; saveCalls := []; timers := [] |}.

(** On the splits tab of the first release a row is added and named. *)
Definition two_releases_dirty : Music.St :=
  Music.after (Music.handleCollaboratorChange 2 f_name (js "C"))
    (Music.after Music.handleAddCollaborator
       (Music.after (Music.handleNavigate (Music.NavSetActiveTab Music.tab_splits))
          (Music.mount two_releases_world))).

(** The tour at its last step. *)
Definition last_step_world : World :=
  Nat.iter 6 nextTourStep (startTour (initialWorld 1000)).

(** Two toasts, the second 1.2 s after the first, and 4 s more. *)
Definition toast_events : list ToastContainer.Event :=
  [ToastContainer.AddToast (js "Metadata generated successfully.") success;
   ToastContainer.Wait 1200;
   ToastContainer.AddToast (js "New chapter added.") success;
   ToastContainer.Wait 4000].

(** ** Notions used in the proofs *)

(** The three shapes of an escaped code unit. *)
Inductive unit_shape (c : N) : jsstring -> Prop :=
| shape_plain :
    c <> 34%N -> c <> 92%N ->
    isLeadingSurrogate c = false -> isTrailingSurrogate c = false ->
    unit_shape c [c]
| shape_short e :
    singleCharEscape c = Some e -> e <> 117%N ->
    unit_shape c [92%N; e]
| shape_unicode :
    (c < 65536)%N -> unit_shape c (UnicodeEscape c).

(** The elements of a non-empty array after the first, and the closing
    bracket. *)
Fixpoint elements (l : list Collaborator.t) : jsstring :=
  match l with
  | [] => js "]"
  | c :: t => js "," ++ stringifyCollaborator c ++ elements t
  end.

(** A flag flipped [n] times. *)
Fixpoint flips (b : bool) (n : nat) : bool :=
  match n with O => b | S n => flips (negb b) n end.

(** The argument [_saveState] hands to [api.saveData] on a state. *)
Definition snapshotOf (s : AppState) : Snapshot :=
  {| s_music := music s; s_publishing := publishing s;
     s_onboardingComplete := onboardingComplete (onboarding s) |}.

(** With the toast container mounted at [t0]: every mounted timer is
    still to come, at most five seconds after its toast was added (or
    the container mounted); every toast of the store has one; the clock
    has not gone back. *)
Definition timed (t0 : Z) (s : ToastContainer.St) : Prop :=
  (forall m, In m (snd s) ->
     (now (fst s) < ToastContainer.due m <= Z.max (ToastContainer.key m) t0 + 5000)%Z)
  /\ (forall t, In t (toasts (state (fst s))) ->
        exists m, In m (snd s) /\ ToastContainer.key m = ToastMessage.id t)
  /\ (t0 <= now (fst s))%Z.

(** No white space at the start of [s]. *)
Definition startsClean (s : jsstring) : Prop :=
  match s with
  | c :: _ => isWhiteSpace c = false
  | [] => True
  end.

(** A share the editor lets through: digits with at most one point, and
    not above 100 once parsed. *)
Definition acceptedShare (s : jsstring) : bool :=
  (str_eqb s [] || isDecimalInput s) && negb (parseFloat_gt_100 s).

(** The chapter [i] of [b] rewritten with [content], as
    [updateChapterContent] does it. *)
Definition rewritten (b : Book.t) (i : nat) (content : jsstring) : Book.t :=
  withChapters b
    (array_set (Book.chapters b) i (withContent (array_get (Book.chapters b) i) content)).

(** The book [b] with one right flipped, as [handleToggleRight] stores
    it. *)
Definition flipped (b : Book.t) (key : PublishingStudio.RightKey) : Book.t :=
  withData b
    (PublishingStudio.rightsOnly
       (PublishingStudio.setRight (Book.rights b) key
          (negb (PublishingStudio.getRight (Book.rights b) key)))).

(** * Properties *)

(** ** [JSON.stringify] separates distinct values *)

Lemma hexDigit_inj d1 d2 :
  (d1 < 16)%N -> (d2 < 16)%N -> hexDigit d1 = hexDigit d2 -> d1 = d2.
Proof.
  unfold hexDigit. intros H1 H2.
  destruct (N.ltb_spec d1 10), (N.ltb_spec d2 10); lia.
Qed.

Lemma hex4_decompose c :
  (c < 65536)%N ->
  c = (4096 * (c / 4096 mod 16) + 256 * (c / 256 mod 16)
       + 16 * (c / 16 mod 16) + c mod 16)%N.
Proof.
  intros H.
  assert (E1 : (c / 256 = c / 16 / 16)%N) by (rewrite N.Div0.div_div; reflexivity).
  assert (E2 : (c / 4096 = c / 256 / 16)%N) by (rewrite N.Div0.div_div; reflexivity).
  pose proof (N.div_mod c 16 ltac:(lia)) as D0.
  pose proof (N.div_mod (c / 16) 16 ltac:(lia)) as D1.
  pose proof (N.div_mod (c / 256) 16 ltac:(lia)) as D2.
  assert (L : (c / 4096 < 16)%N) by (apply N.Div0.div_lt_upper_bound; lia).
  rewrite (N.mod_small (c / 4096) 16 L).
  rewrite <- E1 in D1. rewrite <- E2 in D2. lia.
Qed.

Lemma UnicodeEscape_inj c1 c2 :
  (c1 < 65536)%N -> (c2 < 65536)%N -> UnicodeEscape c1 = UnicodeEscape c2 -> c1 = c2.
Proof.
  unfold UnicodeEscape. intros H1 H2 H. injection H as Ha Hb Hc Hd.
  apply hexDigit_inj in Ha, Hb, Hc, Hd; try (apply N.mod_lt; lia).
  rewrite (hex4_decompose c1 H1), (hex4_decompose c2 H2). congruence.
Qed.

Lemma singleCharEscape_inj c1 c2 e :
  singleCharEscape c1 = Some e -> singleCharEscape c2 = Some e -> c1 = c2.
Proof.
  unfold singleCharEscape.
  repeat match goal with
         | |- context [N.eqb ?a ?b] => destruct (N.eqb_spec a b)
         end; intros; subst; congruence.
Qed.

Lemma quoteUnit_shape c : unit_shape c (quoteUnit c).
Proof.
  unfold quoteUnit. destruct (singleCharEscape c) as [e|] eqn:E.
  - apply shape_short; [assumption|]. revert E. unfold singleCharEscape.
    repeat match goal with
           | |- context [N.eqb ?a ?b] => destruct (N.eqb_spec a b)
           end; intros; try discriminate; injection E as <-; lia.
  - destruct (N.ltb_spec c 32) as [L|L]; simpl.
    + apply shape_unicode. lia.
    + destruct (isLeadingSurrogate c) eqn:EL; simpl.
      { apply shape_unicode. unfold isLeadingSurrogate in EL.
        apply andb_true_iff in EL as [_ EL]. apply N.leb_le in EL. lia. }
      destruct (isTrailingSurrogate c) eqn:ET.
      { apply shape_unicode. unfold isTrailingSurrogate in ET.
        apply andb_true_iff in ET as [_ ET]. apply N.leb_le in ET. lia. }
      apply shape_plain; auto; intros ->; discriminate E.
Qed.

Lemma unit_shape_inj c1 c2 u1 u2 r1 r2 :
  unit_shape c1 u1 -> unit_shape c2 u2 ->
  u1 ++ r1 = u2 ++ r2 -> c1 = c2 /\ r1 = r2.
Proof.
  intros S1 S2 H. destruct S1, S2; unfold UnicodeEscape in H; simpl in H;
    try (injection H; intros; subst; congruence).
  - injection H as -> ->; auto.
  - injection H as E ->. subst. split; [|reflexivity].
    eapply singleCharEscape_inj; eauto.
  - injection H as Ha Hb Hc Hd ->.
    split; [|reflexivity]. apply UnicodeEscape_inj; auto.
    unfold UnicodeEscape. congruence.
Qed.

Lemma unit_shape_head c u r x rest :
  unit_shape c u -> u ++ r = x :: rest ->
  x <> 34%N /\ isLeadingSurrogate x = false.
Proof.
  intros S H. destruct S; simpl in H; injection H as <- _; auto.
Qed.

(** The first code point of a non-empty string: a surrogate pair, copied,
    or a single unit, escaped. *)
Lemma quoteBody_cons c t :
  (exists d t', t = d :: t' /\ isLeadingSurrogate c = true /\
                quoteBody (c :: t) = c :: d :: quoteBody t')
  \/ quoteBody (c :: t) = quoteUnit c ++ quoteBody t.
Proof.
  destruct t as [|d t'].
  - right. simpl. rewrite app_nil_r. reflexivity.
  - simpl. destruct (isLeadingSurrogate c) eqn:EL; simpl.
    + destruct (isTrailingSurrogate d) eqn:ET.
      * left. exists d, t'. auto.
      * right. reflexivity.
    + right. reflexivity.
Qed.

Lemma quoteBody_head c t r x rest :
  quoteBody (c :: t) ++ r = x :: rest -> x <> 34%N.
Proof.
  destruct (quoteBody_cons c t) as [(d & t' & -> & EL & E)|E]; rewrite E.
  - simpl. intros H. injection H as <- _. intros ->. discriminate EL.
  - rewrite <- app_assoc. intros H.
    eapply unit_shape_head in H; [tauto | apply quoteUnit_shape].
Qed.

(** The closing quote ends the body: two escaped bodies, each followed by
    a quote, agree only if the strings and what follows agree. *)
Lemma quoteBody_inj n : forall s1 s2 r1 r2,
  length s1 <= n ->
  quoteBody s1 ++ 34%N :: r1 = quoteBody s2 ++ 34%N :: r2 ->
  s1 = s2 /\ r1 = r2.
Proof.
  induction n as [n IH] using lt_wf_ind. intros s1 s2 r1 r2 Hn H.
  destruct s1 as [|c1 t1], s2 as [|c2 t2].
  - simpl in H. injection H as ->. auto.
  - simpl quoteBody at 1 in H. simpl app at 1 in H. symmetry in H.
    apply quoteBody_head in H. congruence.
  - simpl quoteBody at 2 in H. simpl app at 2 in H.
    apply quoteBody_head in H. congruence.
  - simpl in Hn.
    destruct (quoteBody_cons c1 t1) as [(d1 & t1' & -> & EL1 & E1)|E1];
    destruct (quoteBody_cons c2 t2) as [(d2 & t2' & -> & EL2 & E2)|E2];
    rewrite E1, E2 in H.
    + simpl in H. injection H as -> -> H. simpl in Hn.
      destruct (IH (length t1') ltac:(lia) t1' t2' r1 r2 ltac:(lia) H) as [-> ->].
      auto.
    + rewrite <- app_assoc in H. simpl app at 1 in H. symmetry in H.
      eapply unit_shape_head in H; [|apply quoteUnit_shape].
      destruct H as [_ H]. congruence.
    + rewrite <- app_assoc in H. simpl app at 3 in H.
      eapply unit_shape_head in H; [|apply quoteUnit_shape].
      destruct H as [_ H]. congruence.
    + rewrite <- !app_assoc in H.
      eapply unit_shape_inj in H; try apply quoteUnit_shape.
      destruct H as [-> H].
      destruct (IH (length t1) ltac:(lia) t1 t2 r1 r2 ltac:(lia) H) as [-> ->].
      auto.
Qed.

Lemma QuoteJSONString_inj s1 s2 r1 r2 :
  QuoteJSONString s1 ++ r1 = QuoteJSONString s2 ++ r2 -> s1 = s2 /\ r1 = r2.
Proof.
  unfold QuoteJSONString. rewrite <- !app_comm_cons, <- !app_assoc.
  change ([34%N] ++ r1) with (34%N :: r1). change ([34%N] ++ r2) with (34%N :: r2).
  intros H. injection H as H. eapply quoteBody_inj; eauto.
Qed.

Lemma stringifyCollaborator_inj a b r1 r2 :
  stringifyCollaborator a ++ r1 = stringifyCollaborator b ++ r2 -> a = b /\ r1 = r2.
Proof.
  unfold stringifyCollaborator. rewrite <- !app_assoc.
  intros H. do 3 apply app_inv_head in H.
  apply QuoteJSONString_inj in H as [En H].
  do 3 apply app_inv_head in H.
  apply QuoteJSONString_inj in H as [Es H].
  apply app_inv_head in H.
  destruct a, b; simpl in *; subst; auto.
Qed.

Lemma stringifyCollaborator_head c r : exists rest,
  stringifyCollaborator c ++ r = 123%N :: rest.
Proof.
  unfold stringifyCollaborator. change (js "{") with [123%N].
  rewrite <- app_assoc. simpl app at 1. eauto.
Qed.

Lemma JSON_stringify_cons c t :
  JSON_stringify (c :: t) = js "[" ++ stringifyCollaborator c ++ elements t.
Proof.
  unfold JSON_stringify. f_equal. revert c.
  induction t as [|c' t IH]; intros c.
  - reflexivity.
  - change (map stringifyCollaborator (c :: c' :: t))
      with (stringifyCollaborator c :: map stringifyCollaborator (c' :: t)).
    change (join (js ",") (stringifyCollaborator c :: map stringifyCollaborator (c' :: t)))
      with (stringifyCollaborator c ++ js "," ++ join (js ",") (map stringifyCollaborator (c' :: t))).
    rewrite <- !app_assoc. rewrite IH. reflexivity.
Qed.

Lemma elements_inj l1 : forall l2, elements l1 = elements l2 -> l1 = l2.
Proof.
  induction l1 as [|a l1 IH]; intros [|b l2] H; auto.
  - discriminate H.
  - discriminate H.
  - change (elements (a :: l1)) with (js "," ++ stringifyCollaborator a ++ elements l1) in H.
    change (elements (b :: l2)) with (js "," ++ stringifyCollaborator b ++ elements l2) in H.
    apply app_inv_head in H. apply stringifyCollaborator_inj in H as [-> H].
    f_equal. auto.
Qed.

Theorem JSON_stringify_inj l1 l2 :
  JSON_stringify l1 = JSON_stringify l2 -> l1 = l2.
Proof.
  destruct l1 as [|a l1], l2 as [|b l2]; auto.
  - rewrite JSON_stringify_cons.
    destruct (stringifyCollaborator_head b (elements l2)) as [x ->]. discriminate.
  - rewrite JSON_stringify_cons.
    destruct (stringifyCollaborator_head a (elements l1)) as [x ->]. discriminate.
  - rewrite !JSON_stringify_cons. intros H. apply app_inv_head in H.
    apply stringifyCollaborator_inj in H as [-> H].
    f_equal. apply elements_inj. exact H.
Qed.

(** ** [trim] and blank fields *)

Lemma trimStart_shape s :
  trimStart s = [] \/ exists c t, trimStart s = c :: t /\ isWhiteSpace c = false.
Proof.
  induction s as [|c t IH]; simpl; auto.
  destruct (isWhiteSpace c) eqn:E; eauto.
Qed.

Lemma trimStart_nil s : trimStart s = [] <-> forallb isWhiteSpace s = true.
Proof.
  induction s as [|c t IH]; simpl; [tauto|].
  destruct (isWhiteSpace c); simpl; [exact IH|]. split; discriminate.
Qed.

Lemma forallb_rev {A} (f : A -> bool) l : forallb f (rev l) = forallb f l.
Proof.
  induction l as [|x l IH]; simpl; auto.
  rewrite forallb_app, IH. simpl. rewrite andb_true_r. apply andb_comm.
Qed.

Lemma trim_nil s : trim s = [] <-> isBlank s = true.
Proof.
  unfold trim, trimEnd, isBlank. rewrite <- trimStart_nil. split.
  - intros H. apply (f_equal (@rev N)) in H. rewrite rev_involutive in H.
    simpl in H. apply trimStart_nil in H. rewrite forallb_rev in H.
    destruct (trimStart_shape s) as [E|(c & t & E & Hc)]; [exact E|].
    rewrite E in H. simpl in H. rewrite Hc in H. discriminate.
  - intros ->. reflexivity.
Qed.

Lemma keepRow_spec c : keepRow c = negb (blankRow c).
Proof.
  unfold keepRow, blankRow, str_eqb. rewrite negb_andb. f_equal; f_equal.
  - destruct (isBlank (Collaborator.name c)) eqn:E.
    + apply bool_decide_eq_true. apply trim_nil. exact E.
    + apply bool_decide_eq_false. rewrite trim_nil. congruence.
  - destruct (isBlank (Collaborator.share c)) eqn:E.
    + apply bool_decide_eq_true. apply trim_nil. exact E.
    + apply bool_decide_eq_false. rewrite trim_nil. congruence.
Qed.

(** Filtering the references and reading them is normalising the rows
    read. *)
Lemma rows_cleaned h l : rows h (cleaned h l) = normalize (rows h l).
Proof.
  unfold rows, cleaned, normalize. induction l as [|r l IH]; simpl; auto.
  rewrite <- keepRow_spec. destruct (keepRow (deref h r)); simpl; congruence.
Qed.


Lemma normalize_noBlank l : noBlankRow l = true <-> normalize l = l.
Proof.
  unfold normalize, noBlankRow. induction l as [|c l IH]; simpl; [tauto|].
  destruct (blankRow c) eqn:E; simpl.
  - split; [discriminate|]. intros H.
    assert (L : length (List.filter (fun c => negb (blankRow c)) l) <= length l)
      by apply filter_length_le.
    rewrite H in L. simpl in L. lia.
  - rewrite IH. split; [congruence|]. intros H. injection H. auto.
Qed.

(** The comparison is structural equality of the cleaned buffer with the
    saved list as it is stored. *)
Lemma splitsDiffer_false h B S :
  splitsDiffer h B S = false <-> normalize (rows h B) = rows h S.
Proof.
  unfold splitsDiffer, str_eqb. rewrite negb_false_iff, bool_decide_eq_true.
  rewrite rows_cleaned. split; [apply JSON_stringify_inj | congruence].
Qed.

(** ** The dirty check (C1, C9) *)

Lemma deref_alloc h r : deref (h ++ [emptyRow]) r = deref h r.
Proof.
  unfold deref. destruct (Nat.lt_ge_cases r (length h)) as [L|L].
  - rewrite lookup_app_l by exact L. reflexivity.
  - rewrite (lookup_ge_None_2 h r L).
    destruct (decide (r = length h)) as [->|Hne].
    + rewrite list_lookup_middle by reflexivity. reflexivity.
    + rewrite lookup_ge_None_2; [reflexivity|].
      rewrite length_app. simpl. lia.
Qed.

Lemma rows_alloc h l : rows (h ++ [emptyRow]) l = rows h l.
Proof. unfold rows. apply map_ext. intros r. apply deref_alloc. Qed.

Lemma normalize_app_empty l : normalize (l ++ [emptyRow]) = normalize l.
Proof.
  unfold normalize. rewrite List.filter_app. simpl. apply app_nil_r.
Qed.

(** Appending the empty row to the buffer changes neither side of the
    comparison. *)
Lemma splitsDiffer_add h B S :
  splitsDiffer (h ++ [emptyRow]) (B ++ [length h]) S = splitsDiffer h B S.
Proof.
  apply eq_true_iff_eq. rewrite <- !not_false_iff_true. apply not_iff_compat.
  rewrite !splitsDiffer_false, !rows_alloc.
  unfold rows at 1. rewrite map_app. simpl.
  assert (E : deref h (length h) = emptyRow).
  { unfold deref. rewrite lookup_ge_None_2 by lia. reflexivity. }
  rewrite E. fold (rows h B). rewrite normalize_app_empty. tauto.
Qed.

(** C1 (as amended). The dirty check of either split editor returns false
    exactly when no entity is selected, or the split tab is not the
    active one, or the buffer with its blank rows removed is structurally
    equal to the saved list as the store holds it; the saved list is not
    normalised. In particular it returns false whenever
    normalize(B) = normalize(S) and S holds no blank row. *)
Theorem isDirty_false_iff_cleaned_equals_saved :
  (forall h B sel tab,
     Music.isDirty h B sel tab = false <->
     (forall r, sel = Some r -> tab = Music.tab_splits ->
                normalize (rows h B) = rows h (Release.splits r)))
  /\ (forall h B sel tab,
        Publishing.areSplitsDirty h B sel tab = false <->
        (forall b, sel = Some b -> tab = Publishing.tab_rights_splits ->
                   normalize (rows h B) = rows h (Book.splits b)))
  /\ (forall h B S,
        normalize (rows h B) = normalize (rows h S) ->
        noBlankRow (rows h S) = true ->
        splitsDiffer h B S = false).
Proof.
  split; [|split].
  - intros h B [r|] tab; simpl.
    + destruct (decide (tab = Music.tab_splits)) as [->|Hne].
      * rewrite bool_decide_eq_true_2 by reflexivity. simpl.
        rewrite splitsDiffer_false. split; [intros H r' [= <-] _; exact H|].
        intros H. apply H; reflexivity.
      * rewrite bool_decide_eq_false_2 by exact Hne. simpl.
        split; [intros _ r' _ E; contradiction | reflexivity].
    + split; [intros _ r' E; discriminate E | reflexivity].
  - intros h B [b|] tab; simpl.
    + destruct (decide (tab = Publishing.tab_rights_splits)) as [->|Hne].
      * rewrite bool_decide_eq_true_2 by reflexivity. simpl.
        rewrite splitsDiffer_false. split; [intros H b' [= <-] _; exact H|].
        intros H. apply H; reflexivity.
      * rewrite bool_decide_eq_false_2 by exact Hne. simpl.
        split; [intros _ b' _ E; contradiction | reflexivity].
    + split; [intros _ b' E; discriminate E | reflexivity].
  - intros h B S E HS. apply splitsDiffer_false.
    apply normalize_noBlank in HS. congruence.
Qed.

(** C1, the claim as stated, fails: with an empty buffer and a saved
    list that holds one blank row the two lists are equal once both are
    normalised, and the check still reports dirty. *)
Lemma isDirty_normalized_equal_counterexample :
  normalize (rows blank_heap []) = normalize (rows blank_heap (Release.splits blank_release))
  /\ Music.isDirty blank_heap [] (Some blank_release) Music.tab_splits = true
  /\ Publishing.areSplitsDirty blank_heap [] (Some blank_book)
       Publishing.tab_rights_splits = true.
Proof. vm_compute. auto. Qed.

(** C9 (as amended). [handleAddCollaborator] never changes the value of
    the dirty check; so when the buffer equals the saved splits of the
    selected release and that list holds no blank row, the check is false
    after the empty row is appended. *)
Theorem add_empty_row_keeps_dirty_check :
  (forall s, Music.isDirtyAt (Music.handleAddCollaborator s) = Music.isDirtyAt s)
  /\ (forall s r,
        Music.selectedRelease s = Some r ->
        rows (objects (fst s)) (Music.collaborators (snd s))
          = rows (objects (fst s)) (Release.splits r) ->
        noBlankRow (rows (objects (fst s)) (Release.splits r)) = true ->
        Music.isDirtyAt (Music.handleAddCollaborator s) = false).
Proof.
  assert (A : forall s, Music.isDirtyAt (Music.handleAddCollaborator s) = Music.isDirtyAt s).
  { intros [w c]. unfold Music.isDirtyAt, Music.handleAddCollaborator, Music.selectedRelease.
    simpl. destruct (Music.selectedReleaseId c) as [k|]; [|reflexivity].
    destruct (find _ _) as [r|]; [|reflexivity]. simpl.
    destruct (bool_decide (Music.activeTab c = Music.tab_splits)); [|reflexivity].
    simpl. apply splitsDiffer_add. }
  split; [exact A|].
  intros s r Hsel HB HS. rewrite A. unfold Music.isDirtyAt. rewrite Hsel. simpl.
  destruct (bool_decide _); [|reflexivity]. simpl.
  apply splitsDiffer_false. rewrite HB. apply normalize_noBlank. exact HS.
Qed.

Lemma add_empty_row_witness :
  Music.isDirtyAt (Music.handleAddCollaborator sample_splits_tab) = false.
Proof.
  apply (proj2 add_empty_row_keeps_dirty_check sample_splits_tab sample_release);
    reflexivity.
Defined.

(** C9, the claim as stated, fails when the saved list itself holds a
    blank row: the buffer equals the saved splits, the empty row is
    appended, and the check reports dirty. *)
Lemma add_empty_row_counterexample :
  Music.selectedRelease blank_splits_tab = Some blank_release
  /\ Music.collaborators (snd blank_splits_tab) = Release.splits blank_release
  /\ Music.isDirtyAt (Music.handleAddCollaborator blank_splits_tab) = true.
Proof. vm_compute. auto. Qed.

(** ** The store: start-up (C7) *)

(** C7. When the snapshot fetch fails, [initializeApp] fulfils (nothing
    is thrown to the caller) with a state in which the error toast has
    been added, the music and publishing collections are what they were,
    empty from the store's initial state, and [isInitialized] is true.
    Whatever the fetch does, [initializeApp] never rejects. *)
Theorem initializeApp_fetch_failure :
  (forall w, exists w',
     initializeApp FetchRejected w = Fulfilled w'
     /\ toasts (state w') =
          toasts (state w) ++ [ToastMessage.mk (now w) msg_could_not_load error]
     /\ music (state w') = music (state w)
     /\ publishing (state w') = publishing (state w)
     /\ isInitialized (state w') = true)
  /\ (forall t, exists w',
        initializeApp FetchRejected (initialWorld t) = Fulfilled w'
        /\ releases (music (state w')) = [] /\ music_tasks (music (state w')) = []
        /\ books (publishing (state w')) = []
        /\ publishing_tasks (publishing (state w')) = []
        /\ isInitialized (state w') = true
        /\ toasts (state w') = [ToastMessage.mk t msg_could_not_load error])
  /\ (forall r w, initializeApp r w <> Rejected).
Proof.
  split; [|split].
  - intros w. eexists. split; [reflexivity|]. simpl. auto.
  - intros t. eexists. split; [reflexivity|]. simpl. auto 10.
  - intros [data|] w; discriminate.
Qed.

(** ** The store: toggling a task (C10) *)

Lemma toggled_involutive t : toggled (toggled t) = t.
Proof. destruct t. unfold toggled. simpl. rewrite negb_involutive. reflexivity. Qed.

Lemma toggle_twice id l :
  map (fun t => if (Task.id t =? id)%Z then toggled t else t)
      (map (fun t => if (Task.id t =? id)%Z then toggled t else t) l) = l.
Proof.
  induction l as [|t l IH]; simpl; [reflexivity|]. rewrite IH. f_equal.
  destruct (Task.id t =? id)%Z eqn:E; [|rewrite E; reflexivity].
  change (Task.id (toggled t)) with (Task.id t). rewrite E.
  apply toggled_involutive.
Qed.

Lemma toggle_absent id l :
  Forall (fun t => Task.id t <> id) l ->
  map (fun t => if (Task.id t =? id)%Z then toggled t else t) l = l.
Proof.
  induction 1 as [|t l Ht _ IH]; simpl; [reflexivity|]. rewrite IH. f_equal.
  destruct (Z.eqb_spec (Task.id t) id); [contradiction | reflexivity].
Qed.

Lemma MusicData_eta m : {| releases := releases m; music_tasks := music_tasks m |} = m.
Proof. destruct m; reflexivity. Qed.

Lemma PublishingData_eta p :
  {| books := books p; publishing_tasks := publishing_tasks p |} = p.
Proof. destruct p; reflexivity. Qed.

Lemma AppState_eta s :
  {| isInitialized := isInitialized s; view := view s; toasts := toasts s;
     onboarding := onboarding s; music := music s; publishing := publishing s |} = s.
Proof. destruct s; reflexivity. Qed.

(** C10. Toggling the same task identifier twice gives back the store
    state it started from, so the task collection is exactly its original
    value; a single toggle with an identifier that no task carries leaves
    the state unchanged. Both hold for music and for publishing tasks. *)
Theorem toggle_task_involution :
  (forall id w, state (toggleMusicTask id (toggleMusicTask id w)) = state w)
  /\ (forall id w, state (togglePublishingTask id (togglePublishingTask id w)) = state w)
  /\ (forall id w,
        Forall (fun t => Task.id t <> id) (music_tasks (music (state w))) ->
        state (toggleMusicTask id w) = state w)
  /\ (forall id w,
        Forall (fun t => Task.id t <> id) (publishing_tasks (publishing (state w))) ->
        state (togglePublishingTask id w) = state w).
Proof.
  repeat split.
  - intros id w. unfold toggleMusicTask, set_music. simpl.
    rewrite toggle_twice, MusicData_eta. apply AppState_eta.
  - intros id w. unfold togglePublishingTask, set_publishing. simpl.
    rewrite toggle_twice, PublishingData_eta. apply AppState_eta.
  - intros id w H. unfold toggleMusicTask, set_music. simpl.
    rewrite toggle_absent by exact H. rewrite MusicData_eta. apply AppState_eta.
  - intros id w H. unfold togglePublishingTask, set_publishing. simpl.
    rewrite toggle_absent by exact H. rewrite PublishingData_eta. apply AppState_eta.
Qed.

Lemma toggle_task_witness :
  state (toggleMusicTask 5 sample_world) = state sample_world.
Proof.
  apply (proj1 (proj2 (proj2 toggle_task_involution)) 5%Z sample_world).
  repeat constructor; discriminate.
Defined.

(** ** The store: identities (C8) *)

(** C8 (as amended). The identity an add mutation assigns is the reading
    of the millisecond clock at the call, and the new entity goes to the
    end of its collection. It is distinct from every identity present
    whenever those are all smaller than the clock reading, which is the
    case for identities assigned at earlier readings once the clock has
    moved on. *)
Theorem add_assigns_clock_reading :
  (forall d w, exists r,
     releases (music (state (addRelease d w))) = releases (music (state w)) ++ [r]
     /\ Release.id r = now w
     /\ (Forall (fun x => (Release.id x < now w)%Z) (releases (music (state w))) ->
         Forall (fun x => Release.id x <> Release.id r) (releases (music (state w)))))
  /\ (forall d w, exists b,
        books (publishing (state (fst (addBook d w)))) = books (publishing (state w)) ++ [b]
        /\ Book.id b = now w /\ snd (addBook d w) = now w
        /\ (Forall (fun x => (Book.id x < now w)%Z) (books (publishing (state w))) ->
            Forall (fun x => Book.id x <> Book.id b) (books (publishing (state w)))))
  /\ (forall text due w, exists t,
        music_tasks (music (state (addMusicTask text due w)))
          = music_tasks (music (state w)) ++ [t]
        /\ Task.id t = now w
        /\ (Forall (fun x => (Task.id x < now w)%Z) (music_tasks (music (state w))) ->
            Forall (fun x => Task.id x <> Task.id t) (music_tasks (music (state w)))))
  /\ (forall text due w, exists t,
        publishing_tasks (publishing (state (addPublishingTask text due w)))
          = publishing_tasks (publishing (state w)) ++ [t]
        /\ Task.id t = now w
        /\ (Forall (fun x => (Task.id x < now w)%Z) (publishing_tasks (publishing (state w))) ->
            Forall (fun x => Task.id x <> Task.id t)
                   (publishing_tasks (publishing (state w))))).
Proof.
  repeat split; intros; eexists; (split; [reflexivity|]); simpl;
    repeat split; intros H; eapply Forall_impl; try exact H; simpl; lia.
Qed.

Lemma add_assigns_clock_reading_witness :
  exists t,
    music_tasks (music (state (addMusicTask (js "Mix") [] sample_world)))
      = sample_tasks ++ [t]
    /\ Task.id t = 1000%Z
    /\ Forall (fun x => Task.id x <> Task.id t) sample_tasks.
Proof.
  destruct (proj1 (proj2 (proj2 add_assigns_clock_reading)) (js "Mix") [] sample_world)
    as (t & E & I & F).
  exists t. split; [exact E|]. split; [exact I|]. apply F.
  repeat constructor.
Defined.

(** C8, the claim as stated, fails: two tasks added one after the other
    within the same millisecond carry the same identity, and so do two
    releases. *)
Lemma add_same_millisecond_counterexample :
  map Task.id
    (music_tasks (music (state
       (addMusicTask (js "Mix") [] (addMusicTask (js "Master") [] (initialWorld 1000))))))
    = [1000; 1000]%Z
  /\ map Release.id
       (releases (music (state
          (addRelease (Release.mkData (js "B") (js "X") None None [])
             (addRelease (Release.mkData (js "A") (js "X") None None [])
                (initialWorld 1000))))))
       = [1000; 1000]%Z.
Proof. split; reflexivity. Qed.

(** ** Arrays with holes *)

Lemma array_get_set_same {A} (a : list (option A)) i x :
  array_get (array_set a i x) i = Some x.
Proof.
  unfold array_get, array_set. destruct (i <? length a)%nat eqn:E.
  - apply Nat.ltb_lt in E. rewrite list_lookup_insert_eq by exact E. reflexivity.
  - apply Nat.ltb_ge in E.
    rewrite lookup_app_r by exact E.
    rewrite lookup_app_r by (rewrite length_replicate; lia).
    rewrite length_replicate. replace (i - length a - (i - length a))%nat with 0%nat by lia.
    reflexivity.
Qed.

Lemma array_get_set_other {A} (a : list (option A)) i j x :
  i <> j -> array_get (array_set a i x) j = array_get a j.
Proof.
  intros Hij. unfold array_get, array_set. destruct (i <? length a)%nat eqn:E.
  - rewrite list_lookup_insert_ne by exact Hij. reflexivity.
  - apply Nat.ltb_ge in E.
    destruct (Nat.lt_ge_cases j (length a)) as [Hj|Hj].
    + rewrite lookup_app_l by exact Hj. reflexivity.
    + rewrite lookup_app_r by exact Hj.
      rewrite (lookup_ge_None_2 a j) by exact Hj.
      destruct (Nat.lt_ge_cases (j - length a) (i - length a)) as [Hk|Hk].
      * rewrite lookup_app_l by (rewrite length_replicate; exact Hk).
        rewrite lookup_replicate_2 by exact Hk. reflexivity.
      * rewrite lookup_app_r by (rewrite length_replicate; exact Hk).
        rewrite length_replicate.
        destruct (j - length a - (i - length a))%nat as [|n] eqn:En; [lia|].
        reflexivity.
Qed.

Lemma array_set_length {A} (a : list (option A)) i x :
  length (array_set a i x) = Nat.max (length a) (S i).
Proof.
  unfold array_set. destruct (i <? length a)%nat eqn:E.
  - apply Nat.ltb_lt in E. rewrite length_insert. lia.
  - apply Nat.ltb_ge in E. rewrite !length_app, length_replicate. cbn. lia.
Qed.

(** ** The store: sequences of mutations (C5) *)

Lemma run_snoc es e w : run (es ++ [e]) w = occur e (run es w).
Proof. unfold run. rewrite fold_left_app. reflexivity. Qed.

Lemma run_cons e es w : run (e :: es) w = run es (occur e w).
Proof. reflexivity. Qed.

Lemma rewrittenInPlace_map {A} (idOf : A -> Z) k (f : A -> A) (R : A -> A -> Prop) l :
  (forall x, R x (f x)) ->
  rewrittenInPlace idOf k R l (map (fun x => if (idOf x =? k)%Z then f x else x) l).
Proof.
  intros HR. split; [apply length_map|]. split.
  - intros i x H. rewrite list_lookup_fmap, H. cbn.
    eexists. split; [reflexivity|].
    destruct (idOf x =? k)%Z; [apply HR | reflexivity].
  - intros Hdistinct i x H Hk. exists (f x). split; [apply HR|].
    apply list_eq. intros j. rewrite list_lookup_fmap.
    destruct (decide (j = i)) as [->|Hne].
    + rewrite list_lookup_insert_eq by (eapply lookup_lt_Some; exact H).
      rewrite H. cbn. rewrite Hk, Z.eqb_refl. reflexivity.
    + rewrite list_lookup_insert_ne by congruence.
      destruct (l !! j) as [y|] eqn:Hj; [|reflexivity]. cbn.
      destruct (Z.eqb_spec (idOf y) k) as [Hy|]; [|reflexivity].
      exfalso. apply Hne.
      apply (NoDup_lookup (map idOf l) j i k Hdistinct).
      * rewrite list_lookup_fmap, Hj. cbn. congruence.
      * rewrite list_lookup_fmap, H. cbn. congruence.
Qed.

Lemma occur_outcome e w : outcome e w (occur e w).
Proof.
  destruct e as [m|d]; [destruct m|]; cbn;
    (split; [|repeat split]); try reflexivity;
    apply rewrittenInPlace_map; intros x.
  - repeat split.
  - repeat split.
  - repeat split.
  - unfold contentStored.
    change (Book.chapters (withChapters x ?c)) with c.
    split; [|split; [|split; [|repeat split]]].
    + rewrite array_get_set_same.
      destruct (array_get (Book.chapters x) chapterIndex); reflexivity.
    + intros j Hj. apply array_get_set_other. congruence.
    + apply array_set_length.
  - repeat split.
Qed.

(** One event leaves in place, unchanged, an entity it is not aimed at. *)
Lemma occur_frame_release e w i r :
  releases (music (state w)) !! i = Some r ->
  calls (aimsAtRelease (Release.id r)) e = false ->
  releases (music (state (occur e w))) !! i = Some r.
Proof.
  intros H He. destruct e as [m|d]; [destruct m|]; cbn in *; try exact H.
  - apply lookup_app_l_Some. exact H.
  - rewrite list_lookup_fmap, H. cbn. rewrite Z.eqb_sym, He. reflexivity.
Qed.

Lemma occur_frame_music_task e w i t :
  music_tasks (music (state w)) !! i = Some t ->
  calls (aimsAtMusicTask (Task.id t)) e = false ->
  music_tasks (music (state (occur e w))) !! i = Some t.
Proof.
  intros H He. destruct e as [m|d]; [destruct m|]; cbn in *; try exact H.
  - apply lookup_app_l_Some. exact H.
  - rewrite list_lookup_fmap, H. cbn. rewrite Z.eqb_sym, He. reflexivity.
Qed.

Lemma occur_frame_book e w i b :
  books (publishing (state w)) !! i = Some b ->
  calls (aimsAtBook (Book.id b)) e = false ->
  books (publishing (state (occur e w))) !! i = Some b.
Proof.
  intros H He. destruct e as [m|d]; [destruct m|]; cbn in *; try exact H.
  - apply lookup_app_l_Some. exact H.
  - rewrite list_lookup_fmap, H. cbn. rewrite Z.eqb_sym, He. reflexivity.
  - rewrite list_lookup_fmap, H. cbn. rewrite Z.eqb_sym, He. reflexivity.
Qed.

Lemma occur_frame_publishing_task e w i t :
  publishing_tasks (publishing (state w)) !! i = Some t ->
  calls (aimsAtPublishingTask (Task.id t)) e = false ->
  publishing_tasks (publishing (state (occur e w))) !! i = Some t.
Proof.
  intros H He. destruct e as [m|d]; [destruct m|]; cbn in *; try exact H.
  - apply lookup_app_l_Some. exact H.
  - rewrite list_lookup_fmap, H. cbn. rewrite Z.eqb_sym, He. reflexivity.
Qed.

(** An entity that no call of the sequence is aimed at stays where it
    is, unchanged, whatever time passes in between. *)
Lemma run_frame_release es : forall w i r,
  releases (music (state w)) !! i = Some r ->
  forallb (fun e => negb (calls (aimsAtRelease (Release.id r)) e)) es = true ->
  releases (music (state (run es w))) !! i = Some r.
Proof.
  induction es as [|e es IH]; intros w i r H Hes; [exact H|].
  cbn in Hes. apply andb_true_iff in Hes as [He Hes].
  rewrite run_cons. apply IH; [|exact Hes].
  apply occur_frame_release; [exact H | apply negb_true_iff; exact He].
Qed.

Lemma run_frame_music_task es : forall w i t,
  music_tasks (music (state w)) !! i = Some t ->
  forallb (fun e => negb (calls (aimsAtMusicTask (Task.id t)) e)) es = true ->
  music_tasks (music (state (run es w))) !! i = Some t.
Proof.
  induction es as [|e es IH]; intros w i t H Hes; [exact H|].
  cbn in Hes. apply andb_true_iff in Hes as [He Hes].
  rewrite run_cons. apply IH; [|exact Hes].
  apply occur_frame_music_task; [exact H | apply negb_true_iff; exact He].
Qed.

Lemma run_frame_book es : forall w i b,
  books (publishing (state w)) !! i = Some b ->
  forallb (fun e => negb (calls (aimsAtBook (Book.id b)) e)) es = true ->
  books (publishing (state (run es w))) !! i = Some b.
Proof.
  induction es as [|e es IH]; intros w i b H Hes; [exact H|].
  cbn in Hes. apply andb_true_iff in Hes as [He Hes].
  rewrite run_cons. apply IH; [|exact Hes].
  apply occur_frame_book; [exact H | apply negb_true_iff; exact He].
Qed.

Lemma run_frame_publishing_task es : forall w i t,
  publishing_tasks (publishing (state w)) !! i = Some t ->
  forallb (fun e => negb (calls (aimsAtPublishingTask (Task.id t)) e)) es = true ->
  publishing_tasks (publishing (state (run es w))) !! i = Some t.
Proof.
  induction es as [|e es IH]; intros w i t H Hes; [exact H|].
  cbn in Hes. apply andb_true_iff in Hes as [He Hes].
  rewrite run_cons. apply IH; [|exact Hes].
  apply occur_frame_publishing_task; [exact H | apply negb_true_iff; exact He].
Qed.

(** A release ends with the splits of the last [updateMusicSplits] that
    carried its identifier, and as it was if there was none. *)
Lemma run_last_splits es : forall w i r,
  releases (music (state w)) !! i = Some r ->
  releases (music (state (run es w))) !! i =
    Some (match last (splitsWritten (Release.id r) es) with
          | Some sp =>
              Release.mk (Release.id r) (Release.title r) (Release.artist r)
                (Release.status r) (Release.genre r) (Release.releaseDate r) sp
          | None => r
          end).
Proof.
  induction es as [|e es IH] using rev_ind; intros w i r H; [exact H|].
  rewrite run_snoc. specialize (IH w i r H).
  unfold splitsWritten in *. rewrite flat_map_app. cbn [flat_map].
  rewrite app_nil_r.
  set (l := flat_map _ es) in *. set (w1 := run es w) in *.
  destruct e as [m|d]; [destruct m|]; cbn [occur mutate];
    try (rewrite app_nil_r; cbn; exact IH).
  - rewrite app_nil_r. cbn. apply lookup_app_l_Some. exact IH.
  - cbn. rewrite list_lookup_fmap, IH. cbn.
    assert (Hid : Release.id
              (match last l with
               | Some sp =>
                   Release.mk (Release.id r) (Release.title r) (Release.artist r)
                     (Release.status r) (Release.genre r) (Release.releaseDate r) sp
               | None => r
               end) = Release.id r) by (destruct (last l); reflexivity).
    rewrite Hid, Z.eqb_sym.
    destruct (releaseId =? Release.id r)%Z.
    + rewrite last_snoc. destruct (last l); reflexivity.
    + rewrite app_nil_r. reflexivity.
Qed.

(** A task that the sequence toggles [n] times ends with its flag
    flipped [n] times, in the place it had. *)
Lemma run_toggle_count_music es : forall w i t,
  music_tasks (music (state w)) !! i = Some t ->
  music_tasks (music (state (run es w))) !! i =
    Some (Task.mk (Task.id t) (Task.text t) (Task.dueDate t)
            (flips (Task.completed t)
               (length (List.filter (calls (aimsAtMusicTask (Task.id t))) es)))).
Proof.
  induction es as [|e es IH]; intros w i t H.
  - cbn. rewrite H. destruct t; reflexivity.
  - rewrite run_cons. cbn [List.filter].
    destruct (calls (aimsAtMusicTask (Task.id t)) e) eqn:He.
    + destruct e as [[]|]; try discriminate He. cbn in He.
      apply Z.eqb_eq in He. subst id.
      rewrite (IH _ i (toggled t)); [reflexivity|].
      cbn. rewrite list_lookup_fmap, H. cbn. rewrite Z.eqb_refl. reflexivity.
    + apply IH. apply occur_frame_music_task; assumption.
Qed.

Lemma run_toggle_count_publishing es : forall w i t,
  publishing_tasks (publishing (state w)) !! i = Some t ->
  publishing_tasks (publishing (state (run es w))) !! i =
    Some (Task.mk (Task.id t) (Task.text t) (Task.dueDate t)
            (flips (Task.completed t)
               (length (List.filter (calls (aimsAtPublishingTask (Task.id t))) es)))).
Proof.
  induction es as [|e es IH]; intros w i t H.
  - cbn. rewrite H. destruct t; reflexivity.
  - rewrite run_cons. cbn [List.filter].
    destruct (calls (aimsAtPublishingTask (Task.id t)) e) eqn:He.
    + destruct e as [[]|]; try discriminate He. cbn in He.
      apply Z.eqb_eq in He. subst id.
      rewrite (IH _ i (toggled t)); [reflexivity|].
      cbn. rewrite list_lookup_fmap, H. cbn. rewrite Z.eqb_refl. reflexivity.
    + apply IH. apply occur_frame_publishing_task; assumption.
Qed.

(** A call aimed at a book rewrites it the same way in any two stores
    that hold the book at the same place, and unless the call gives an
    identifier the book keeps the one it has. *)
Lemma occur_book_alike e w1 w2 i b :
  books (publishing (state w1)) !! i = Some b ->
  books (publishing (state w2)) !! i = Some b ->
  calls givesIdentifier e = false ->
  exists b',
    books (publishing (state (occur e w1))) !! i = Some b'
    /\ books (publishing (state (occur e w2))) !! i = Some b'
    /\ Book.id b' = Book.id b.
Proof.
  intros H1 H2 Hg.
  destruct e as [m|d]; [destruct m|]; cbn in *;
    try (exists b; repeat split; assumption);
    try (exists b; repeat split; apply lookup_app_l_Some; assumption).
  - rewrite !list_lookup_fmap, H1, H2. cbn. eexists. split; [reflexivity|].
    split; [reflexivity|].
    destruct (Book.id b =? bookId)%Z; [|reflexivity].
    cbn. destruct (Book.p_id data); [discriminate | reflexivity].
  - rewrite !list_lookup_fmap, H1, H2. cbn. eexists. split; [reflexivity|].
    split; [reflexivity|].
    destruct (Book.id b =? bookId)%Z; reflexivity.
Qed.

(** A book ends as if only the calls aimed at its identifier had been
    made: the calls aimed at other identifiers, the adds, the calls
    about other collections and the passing of time take nothing from
    it and add nothing to it. *)
Lemma run_book_alone es : forall w1 w2 i b,
  books (publishing (state w1)) !! i = Some b ->
  books (publishing (state w2)) !! i = Some b ->
  forallb (fun e => negb (calls givesIdentifier e)) es = true ->
  books (publishing (state (run es w1))) !! i =
  books (publishing (state
    (run (List.filter (calls (aimsAtBook (Book.id b))) es) w2))) !! i.
Proof.
  induction es as [|e es IH]; intros w1 w2 i b H1 H2 Hes.
  - cbn. congruence.
  - cbn in Hes. apply andb_true_iff in Hes as [He Hes].
    apply negb_true_iff in He.
    cbn [List.filter]. destruct (calls (aimsAtBook (Book.id b)) e) eqn:Ha.
    + rewrite !run_cons.
      destruct (occur_book_alike e w1 w2 i b H1 H2 He) as (b' & E1 & E2 & Eid).
      rewrite <- Eid. apply IH; assumption.
    + rewrite run_cons. apply IH; [|exact H2|exact Hes].
      apply occur_frame_book; assumption.
Qed.

(** C5, amended. Along every finite sequence of add, update and toggle
    calls, with any lapse of time between them, the store holds the
    result of applying them in order. Each event acts on the state its
    predecessors left: an add appends the new entity at the end of its
    collection; [updateMusicSplits] stores the splits, [updateBook]
    every field it is given, [updateChapterContent] the content of the
    one chapter, a toggle the flipped flag, in every entity that carries
    the identifier, keeping its place and its other fields; entities
    with another identifier and the other collections are as they were;
    and where the identifiers of the collection are distinct the update
    changes the collection at one place only. Over the whole sequence:
    an entity that no call is aimed at keeps its place and its value; a
    release ends with the splits of the last [updateMusicSplits] aimed at
    it; a task's flag has been flipped once per toggle aimed at it; and,
    no [updateBook] giving an identifier, a book ends as if only the
    calls aimed at it had been made. *)
Theorem mutations_act_by_identifier :
  (forall es e w,
     run (es ++ [e]) w = occur e (run es w)
     /\ outcome e (run es w) (run (es ++ [e]) w))
  /\ (forall es w i r,
        releases (music (state w)) !! i = Some r ->
        forallb (fun e => negb (calls (aimsAtRelease (Release.id r)) e)) es = true ->
        releases (music (state (run es w))) !! i = Some r)
  /\ (forall es w i b,
        books (publishing (state w)) !! i = Some b ->
        forallb (fun e => negb (calls (aimsAtBook (Book.id b)) e)) es = true ->
        books (publishing (state (run es w))) !! i = Some b)
  /\ (forall es w i t,
        music_tasks (music (state w)) !! i = Some t ->
        forallb (fun e => negb (calls (aimsAtMusicTask (Task.id t)) e)) es = true ->
        music_tasks (music (state (run es w))) !! i = Some t)
  /\ (forall es w i t,
        publishing_tasks (publishing (state w)) !! i = Some t ->
        forallb (fun e => negb (calls (aimsAtPublishingTask (Task.id t)) e)) es = true ->
        publishing_tasks (publishing (state (run es w))) !! i = Some t)
  /\ (forall es w i r,
        releases (music (state w)) !! i = Some r ->
        releases (music (state (run es w))) !! i =
          Some (match last (splitsWritten (Release.id r) es) with
                | Some sp =>
                    Release.mk (Release.id r) (Release.title r) (Release.artist r)
                      (Release.status r) (Release.genre r) (Release.releaseDate r) sp
                | None => r
                end))
  /\ (forall es w i t,
        music_tasks (music (state w)) !! i = Some t ->
        music_tasks (music (state (run es w))) !! i =
          Some (Task.mk (Task.id t) (Task.text t) (Task.dueDate t)
                  (flips (Task.completed t)
                     (length (List.filter (calls (aimsAtMusicTask (Task.id t))) es)))))
  /\ (forall es w i t,
        publishing_tasks (publishing (state w)) !! i = Some t ->
        publishing_tasks (publishing (state (run es w))) !! i =
          Some (Task.mk (Task.id t) (Task.text t) (Task.dueDate t)
                  (flips (Task.completed t)
                     (length (List.filter (calls (aimsAtPublishingTask (Task.id t))) es)))))
  /\ (forall es w i b,
        books (publishing (state w)) !! i = Some b ->
        forallb (fun e => negb (calls givesIdentifier e)) es = true ->
        books (publishing (state (run es w))) !! i =
        books (publishing (state
          (run (List.filter (calls (aimsAtBook (Book.id b))) es) w))) !! i).
Proof.
  split; [|split; [|split; [|split; [|split; [|split; [|split; [|split]]]]]]].
  - intros es e w. rewrite run_snoc. split; [reflexivity | apply occur_outcome].
  - intros es. apply run_frame_release.
  - intros es. apply run_frame_book.
  - intros es. apply run_frame_music_task.
  - intros es. apply run_frame_publishing_task.
  - intros es. apply run_last_splits.
  - intros es. apply run_toggle_count_music.
  - intros es. apply run_toggle_count_publishing.
  - intros es w i b H Hes. apply run_book_alone; assumption.
Qed.

Lemma mutations_act_by_identifier_witness :
  releases (music (state
    (run [Call (UpdateMusicSplits 1 [2]); Pass 40;
          Call (AddRelease (Release.mkData (js "Afterglow") (js "Synth Rider") None None []));
          Pass 3; Call (UpdateMusicSplits 1 [3; 0]); Call (UpdateMusicSplits 5 [1])]
       sample_world))) !! 0
  = Some (Release.mk 1 (js "Neon Pulse") (js "Synth Rider") Live None None [3; 0])
  /\ music_tasks (music (state
       (run [Call (ToggleMusicTask 11); Pass 250; Call (AddMusicTask (js "Mix") []);
             Call (UpdateMusicSplits 1 [1]); Pass 90000; Call (ToggleMusicTask 11);
             Call (ToggleMusicTask 12)] sample_world))) !! 1
     = Some (Task.mk 12 (js "Book the studio") [] false)
  /\ books (publishing (state
       (run [Call (UpdateBook 8 Book.noChange); Pass 700; Call (TogglePublishingTask 7);
             Call (UpdateChapterContent 8 0 (js "Fog."))] sample_world))) !! 0
     = Some sample_book
  /\ books (publishing (state
       (run [Call (UpdateBook 8 (splitsOnly [])); Pass 700;
             Call (UpdateChapterContent 7 0 (js "It rained. H")); Pass 100;
             Call (AddBook (Book.mkData (js "Low Tide") (js "M. Rae") (js "Sci-Fi") Draft
                              sample_rights [] [] [] [] [] []));
             Call (UpdateChapterContent 7 0 (js "It rained. Ha"))] sample_world))) !! 0
     = books (publishing (state
         (run [Call (UpdateChapterContent 7 0 (js "It rained. H"));
               Call (UpdateChapterContent 7 0 (js "It rained. Ha"))] sample_world))) !! 0
  /\ exists r',
       Release.splits r' = [2]
       /\ releases (music (state
            (run ([Pass 40] ++ [Call (UpdateMusicSplits 1 [2])]) two_releases_world)))
          = <[0 := r']> [sample_release; second_release].
Proof.
  split; [|split; [|split; [|split]]].
  - apply (proj1 (proj2 (proj2 (proj2 (proj2 (proj2 mutations_act_by_identifier)))))
             [Call (UpdateMusicSplits 1 [2]); Pass 40;
              Call (AddRelease (Release.mkData (js "Afterglow") (js "Synth Rider")
                                  None None []));
              Pass 3; Call (UpdateMusicSplits 1 [3; 0]); Call (UpdateMusicSplits 5 [1])]
             sample_world 0 sample_release).
    reflexivity.
  - apply (proj1 (proj2 (proj2 (proj2 (proj2 (proj2 (proj2 mutations_act_by_identifier))))))
             [Call (ToggleMusicTask 11); Pass 250; Call (AddMusicTask (js "Mix") []);
              Call (UpdateMusicSplits 1 [1]); Pass 90000; Call (ToggleMusicTask 11);
              Call (ToggleMusicTask 12)] sample_world 1
             (Task.mk 12 (js "Book the studio") [] true)).
    reflexivity.
  - apply (proj1 (proj2 (proj2 mutations_act_by_identifier))
             [Call (UpdateBook 8 Book.noChange); Pass 700; Call (TogglePublishingTask 7);
              Call (UpdateChapterContent 8 0 (js "Fog."))] sample_world 0 sample_book);
      reflexivity.
  - apply (proj2 (proj2 (proj2 (proj2 (proj2 (proj2 (proj2 (proj2
             mutations_act_by_identifier)))))))
             [Call (UpdateBook 8 (splitsOnly [])); Pass 700;
              Call (UpdateChapterContent 7 0 (js "It rained. H")); Pass 100;
              Call (AddBook (Book.mkData (js "Low Tide") (js "M. Rae") (js "Sci-Fi") Draft
                               sample_rights [] [] [] [] [] []));
              Call (UpdateChapterContent 7 0 (js "It rained. Ha"))] sample_world 0
             sample_book); reflexivity.
  - destruct (proj1 mutations_act_by_identifier [Pass 40] (Call (UpdateMusicSplits 1 [2]))
                two_releases_world) as [_ [(_ & _ & H) _]].
    assert (Hdistinct : NoDup (map Release.id
              (releases (music (state (run [Pass 40] two_releases_world))))))
      by (apply (bool_decide_unpack _); vm_compute; exact I).
    destruct (H Hdistinct 0%nat sample_release eq_refl eq_refl) as (r' & (Hs & _) & E).
    exists r'. split; [exact Hs | exact E].
Defined.

(** C5, the claim as stated, fails. On the sample world, two releases
    submitted within one millisecond carry one identifier, and a minute
    later the one call [updateMusicSplits(1000, ...)], aimed at either,
    stores the splits in both: the other entity is changed. In the same
    way one call of [toggleMusicTask] flips two tasks. *)
Lemma shared_identifier_counterexample :
  map (fun r => (Release.id r, Release.title r, Release.splits r))
    (releases (music (state
       (run [Call (AddRelease (Release.mkData (js "A") (js "X") None None []));
             Call (AddRelease (Release.mkData (js "B") (js "X") None None [0; 1]))]
          sample_world))))
  = [(1%Z, js "Neon Pulse", [0; 1]); (1000%Z, js "A", []); (1000%Z, js "B", [0; 1])]
  /\ map (fun r => (Release.id r, Release.title r, Release.splits r))
       (releases (music (state
          (run [Call (AddRelease (Release.mkData (js "A") (js "X") None None []));
                Call (AddRelease (Release.mkData (js "B") (js "X") None None [0; 1]));
                Pass 60000; Call (UpdateMusicSplits 1000 [3])]
             sample_world))))
     = [(1%Z, js "Neon Pulse", [0; 1]); (1000%Z, js "A", [3]); (1000%Z, js "B", [3])]
  /\ map (fun t => (Task.id t, Task.text t, Task.completed t))
       (music_tasks (music (state
          (run [Call (AddMusicTask (js "Mix") []); Call (AddMusicTask (js "Master") []);
                Pass 60000; Call (ToggleMusicTask 1000)]
             sample_world))))
     = [(11%Z, js "Master the single", false); (12%Z, js "Book the studio", true);
        (1000%Z, js "Mix", true); (1000%Z, js "Master", true)].
Proof. repeat split; reflexivity. Qed.

(** ** The store: saving after a burst of manuscript edits (C6) *)

(** Every action but [updateChapterContent] calls [api.saveData] before
    it returns; [updateChapterContent] makes no call and leaves one more
    timer, 500 ms ahead, without touching the timers already set. *)
Lemma save_is_immediate_except_for_content m w :
  match m with
  | UpdateChapterContent _ _ _ =>
      saveCalls (mutate m w) = saveCalls w
      /\ timers (mutate m w) = timers w ++ [(now w + 500)%Z]
  | _ =>
      exists snapshot, saveCalls (mutate m w) = saveCalls w ++ [(now w, snapshot)]
      /\ timers (mutate m w) = timers w
  end.
Proof. destruct m; simpl; eauto. Qed.

(** C6 at a burst of two edits 100 ms apart: the first edit at time 1000,
    the second at 1100, then a quiet second. The store has issued two
    saves, at 1500 and at 1600, where the claim has a single save at
    1600. *)
Theorem content_edits_are_not_coalesced :
  map fst
    (saveCalls
       (elapse 1000
          (updateChapterContent 7 0 (js "It rained. Ha")
             (elapse 100
                (updateChapterContent 7 0 (js "It rained. H") sample_world)))))
  = [1500; 1600]%Z.
Proof. reflexivity. Qed.

(** ** The navigation guard (C2) *)

(** C2. When the dirty check reports dirty, [handleNavigate] leaves the
    store (the view with it) and the tab, the selection and the buffers
    of the component as they were, keeps the requested action as the one
    pending action and opens the prompt. When it reports clean,
    [handleNavigate] runs the action at once and touches neither the
    prompt nor the pending action. *)
Theorem handleNavigate_guard :
  (forall a s,
     Music.isDirtyAt s = true ->
     fst (Music.handleNavigate a s) = fst s
     /\ Music.activeTab (snd (Music.handleNavigate a s)) = Music.activeTab (snd s)
     /\ Music.selectedReleaseId (snd (Music.handleNavigate a s))
          = Music.selectedReleaseId (snd s)
     /\ Music.collaborators (snd (Music.handleNavigate a s)) = Music.collaborators (snd s)
     /\ Music.nextNavigationAction (snd (Music.handleNavigate a s)) = Some a
     /\ Music.isNavModalOpen (snd (Music.handleNavigate a s)) = true)
  /\ (forall a s,
        Music.isDirtyAt s = false ->
        Music.handleNavigate a s = Music.runAction a s
        /\ Music.isNavModalOpen (snd (Music.handleNavigate a s))
             = Music.isNavModalOpen (snd s)
        /\ Music.nextNavigationAction (snd (Music.handleNavigate a s))
             = Music.nextNavigationAction (snd s))
  /\ (forall a s,
        Publishing.isDirtyAt s = true ->
        fst (Publishing.handleNavigate a s) = fst s
        /\ Publishing.activeTab (snd (Publishing.handleNavigate a s))
             = Publishing.activeTab (snd s)
        /\ Publishing.selectedBookId (snd (Publishing.handleNavigate a s))
             = Publishing.selectedBookId (snd s)
        /\ Publishing.activeChapterIndex (snd (Publishing.handleNavigate a s))
             = Publishing.activeChapterIndex (snd s)
        /\ Publishing.manuscriptText (snd (Publishing.handleNavigate a s))
             = Publishing.manuscriptText (snd s)
        /\ Publishing.collaborators (snd (Publishing.handleNavigate a s))
             = Publishing.collaborators (snd s)
        /\ Publishing.nextNavigationAction (snd (Publishing.handleNavigate a s)) = Some a
        /\ Publishing.isNavModalOpen (snd (Publishing.handleNavigate a s)) = true)
  /\ (forall a s,
        Publishing.isDirtyAt s = false ->
        Publishing.handleNavigate a s = Publishing.runAction a s
        /\ Publishing.isNavModalOpen (snd (Publishing.handleNavigate a s))
             = Publishing.isNavModalOpen (snd s)
        /\ Publishing.nextNavigationAction (snd (Publishing.handleNavigate a s))
             = Publishing.nextNavigationAction (snd s)).
Proof.
  split; [|split; [|split]].
  - intros a s H. unfold Music.handleNavigate. rewrite H. simpl. auto 10.
  - intros a s H. unfold Music.handleNavigate. rewrite H.
    split; [reflexivity|]. destruct a; simpl; auto.
  - intros a s H. unfold Publishing.handleNavigate. rewrite H. simpl. auto 10.
  - intros a s H. unfold Publishing.handleNavigate. rewrite H.
    split; [reflexivity|]. destruct a; simpl; auto.
Qed.

Lemma handleNavigate_guard_witness :
  (fst (Music.handleNavigate (Music.NavSetView DASHBOARD) sample_dirty) = fst sample_dirty
   /\ Music.nextNavigationAction
        (snd (Music.handleNavigate (Music.NavSetView DASHBOARD) sample_dirty))
      = Some (Music.NavSetView DASHBOARD)
   /\ Music.isNavModalOpen
        (snd (Music.handleNavigate (Music.NavSetView DASHBOARD) sample_dirty)) = true)
  /\ (view (state (fst (Music.handleNavigate (Music.NavSetView DASHBOARD)
                          sample_splits_tab))) = DASHBOARD
      /\ Music.isNavModalOpen
           (snd (Music.handleNavigate (Music.NavSetView DASHBOARD) sample_splits_tab))
         = false).
Proof.
  split.
  - destruct (proj1 handleNavigate_guard (Music.NavSetView DASHBOARD) sample_dirty)
      as (A & _ & _ & _ & B & C); [reflexivity|]. auto.
  - destruct (proj1 (proj2 handleNavigate_guard) (Music.NavSetView DASHBOARD)
                sample_splits_tab) as (A & B & _); [reflexivity|].
    rewrite A. split; reflexivity.
Defined.

(** ** Discarding (C3) *)

(** C3 on the scenario of the specification, in the music view. The
    release is loaded with A 60 and B 40 and nothing is saved afterwards.
    Editing the share of B to 41 writes into the row object that the
    store holds too, so the check does not even report dirty; once a
    further row makes it dirty and the prompt is answered with Discard,
    the buffer is reset to the store's rows, which carry the edit: B
    stays at 41. *)
Theorem discard_keeps_edit_of_saved_row :
  rows (objects (fst sample_splits_tab)) (Music.collaborators (snd sample_splits_tab))
    = [rowA; rowB]
  /\ Music.isDirtyAt sample_edited = false
  /\ Music.isDirtyAt sample_dirty = true
  /\ Music.isNavModalOpen (snd sample_pending) = true
  /\ Music.nextNavigationAction (snd sample_pending)
       = Some (Music.NavSetActiveTab Music.tab_releases)
  /\ saveCalls (fst sample_discarded) = []
  /\ Music.activeTab (snd sample_discarded) = Music.tab_releases
  /\ rows (objects (fst sample_discarded)) (Music.collaborators (snd sample_discarded))
       = [rowA; Collaborator.mk (js "B") (js "41")].
Proof. vm_compute. auto 10. Qed.

(** What Discard does in general: the buffer is set to the references
    the selected entity holds in the store at that moment. *)
Lemma discard_resets_to_store_rows s r :
  Music.selectedRelease s = Some r ->
  Music.collaborators (snd (Music.handleDiscardAndNavigate s)) = Release.splits r
  /\ Music.isNavModalOpen (snd (Music.handleDiscardAndNavigate s)) = false
  /\ Music.nextNavigationAction (snd (Music.handleDiscardAndNavigate s)) = None.
Proof.
  intros H. unfold Music.handleDiscardAndNavigate. rewrite H.
  destruct (Music.nextNavigationAction (snd s)) as [[v|tab]|]; simpl; auto.
Qed.

(** ** Save and continue (C4) *)

Lemma changed_refl {A} `{EqDecision A} (x : A) : changed x x = false.
Proof. unfold changed. rewrite bool_decide_eq_true_2; reflexivity. Qed.

Lemma changed_true {A} `{EqDecision A} (x y : A) : x <> y -> changed x y = true.
Proof. intros H'. unfold changed. rewrite bool_decide_eq_false_2; auto. Qed.


Lemma find_some_id {A} (idOf : A -> Z) k l x :
  find (fun r => (idOf r =? k)%Z) l = Some x -> idOf x = k.
Proof. intros H. apply find_some in H as [_ H]. apply Z.eqb_eq. exact H. Qed.


Lemma splitsDiffer_same h S :
  noBlankRow (rows h S) = true -> splitsDiffer h S S = false.
Proof. intros H. apply splitsDiffer_false. apply normalize_noBlank. exact H. Qed.

(** *** The music view *)






Module MusicFacts.
Import Music.

Lemma music_renderPass_frame p c :
  fst (renderPass p c) = fst c
  /\ activeTab (snd (renderPass p c)) = activeTab (snd c).
Proof.
  unfold renderPass, effectSelectFirst, effectSyncCollaborators. simpl.
  repeat match goal with
  | |- context [if ?b then _ else _] => destruct b
  | |- context [match ?x with _ => _ end] => destruct x
  end; simpl; auto.
Qed.

Lemma renderPass_selectedReleaseId p c :
  selectedReleaseId (snd (renderPass p c)) =
    if changed (releases (music (state (fst p)))) (releases (music (state (fst c))))
       || changed (selectedReleaseId (snd p)) (selectedReleaseId (snd c))
    then match releases (music (state (fst c))), selectedReleaseId (snd c) with
         | r :: _, None => Some (Release.id r)
         | _, _ => selectedReleaseId (snd c)
         end
    else selectedReleaseId (snd c).
Proof.
  unfold renderPass. cbn [snd].
  assert (E' : forall acc (b : bool),
             selectedReleaseId (if b then effectSyncCollaborators c acc else acc)
             = selectedReleaseId acc).
  { intros acc [|]; [|reflexivity]. unfold effectSyncCollaborators.
    destruct (selectedRelease c); [destruct (bool_decide _)|]; reflexivity. }
  rewrite E'.
  destruct (_ || _); [|reflexivity]. unfold effectSelectFirst.
  destruct (releases _), (selectedReleaseId (snd c)) eqn:E2; simpl; auto.
Qed.

Lemma flush_selectedReleaseId p c :
  selectedReleaseId (snd (flushEffects p c)) = selectedReleaseId (snd (renderPass p c)).
Proof.
  unfold flushEffects.
  pose proof (renderPass_selectedReleaseId p c) as S1.
  assert (F1 : fst (renderPass p c) = fst c) by apply music_renderPass_frame.
  remember (renderPass p c) as c1 eqn:Hc1. clear Hc1.
  rewrite (renderPass_selectedReleaseId c c1). rewrite F1, changed_refl. simpl.
  destruct (changed (selectedReleaseId (snd c)) (selectedReleaseId (snd c1))) eqn:E;
    [|reflexivity].
  destruct (selectedReleaseId (snd c1)) as [k|] eqn:E1;
    [destruct (releases (music (state (fst c)))); reflexivity|].
  exfalso.
  destruct (_ || _) in S1.
  - destruct (releases (music (state (fst c)))), (selectedReleaseId (snd c)) eqn:E2;
      try discriminate; rewrite changed_refl in E; discriminate.
  - rewrite <- S1, changed_refl in E. discriminate.
Qed.

(** After the two renders a further render runs no effect. *)
Lemma music_flush_settled p c :
  renderPass (renderPass p c) (flushEffects p c) = flushEffects p c.
Proof.
  pose proof (flush_selectedReleaseId p c) as S.
  destruct (music_renderPass_frame p c) as (G1 & G2).
  destruct (music_renderPass_frame c (renderPass p c)) as (H1 & H2).
  fold (flushEffects p c) in H1, H2.
  assert (B : selectedRelease (flushEffects p c) = selectedRelease (renderPass p c)).
  { unfold selectedRelease. rewrite S, H1. reflexivity. }
  remember (renderPass p c) as c1 eqn:E1. remember (flushEffects p c) as c2 eqn:E2.
  clear E1 E2. unfold renderPass.
  rewrite H1, S, B, H2, !changed_refl. simpl.
  rewrite <- H1. symmetry. apply surjective_pairing.
Qed.

End MusicFacts.

(** *** The publishing view *)

Module PublishingFacts.
Import Publishing.

(** One render of the publishing view leaves the store, the tab, the
    chapter index, the prompt and the pending action alone. *)
Lemma renderPass_frame p c :
  fst (renderPass p c) = fst c
  /\ activeTab (snd (renderPass p c)) = activeTab (snd c)
  /\ activeChapterIndex (snd (renderPass p c)) = activeChapterIndex (snd c)
  /\ isNavModalOpen (snd (renderPass p c)) = isNavModalOpen (snd c)
  /\ nextNavigationAction (snd (renderPass p c)) = nextNavigationAction (snd c).
Proof.
  unfold renderPass, effectSelectFirst, effectManuscript, effectSyncCollaborators.
  simpl.
  repeat match goal with
  | |- context [if ?b then _ else _] => destruct b
  | |- context [match ?x with _ => _ end] => destruct x
  end; simpl; auto.
Qed.

Lemma renderPass_selectedBookId p c :
  selectedBookId (snd (renderPass p c)) =
    if changed (books (publishing (state (fst p)))) (books (publishing (state (fst c))))
       || changed (selectedBookId (snd p)) (selectedBookId (snd c))
    then match books (publishing (state (fst c))), selectedBookId (snd c) with
         | b :: _, None => Some (Book.id b)
         | _, _ => selectedBookId (snd c)
         end
    else selectedBookId (snd c).
Proof.
  unfold renderPass. cbn [snd].
  assert (E : forall acc (b : bool),
             selectedBookId (if b then effectManuscript c acc else acc) = selectedBookId acc).
  { intros acc [|]; [|reflexivity]. unfold effectManuscript.
    destruct (selectedBook c); reflexivity. }
  assert (E' : forall acc (b : bool),
             selectedBookId (if b then effectSyncCollaborators c acc else acc)
             = selectedBookId acc).
  { intros acc [|]; [|reflexivity]. unfold effectSyncCollaborators.
    destruct (selectedBook c); [destruct (bool_decide _)|]; reflexivity. }
  rewrite E', E.
  destruct (_ || _); [|reflexivity]. unfold effectSelectFirst.
  destruct (books _), (selectedBookId (snd c)) eqn:E2; simpl; auto.
Qed.



(** The second render keeps the selection of the first. *)
Lemma flush_selectedBookId p c :
  selectedBookId (snd (flushEffects p c)) = selectedBookId (snd (renderPass p c)).
Proof.
  unfold flushEffects.
  pose proof (renderPass_selectedBookId p c) as S1.
  assert (F1 : fst (renderPass p c) = fst c) by apply renderPass_frame.
  remember (renderPass p c) as c1 eqn:Hc1. clear Hc1.
  rewrite (renderPass_selectedBookId c c1). rewrite F1, changed_refl. simpl.
  destruct (changed (selectedBookId (snd c)) (selectedBookId (snd c1))) eqn:E;
    [|reflexivity].
  destruct (selectedBookId (snd c1)) as [k|] eqn:E1;
    [destruct (books (publishing (state (fst c)))); reflexivity|].
  exfalso.
  destruct (_ || _) in S1.
  - destruct (books (publishing (state (fst c)))), (selectedBookId (snd c)) eqn:E2;
      try discriminate; rewrite changed_refl in E; discriminate.
  - rewrite <- S1, changed_refl in E. discriminate.
Qed.

Lemma flush_selectedBook p c :
  selectedBook (flushEffects p c) = selectedBook (renderPass p c).
Proof.
  unfold selectedBook. rewrite flush_selectedBookId.
  destruct (renderPass_frame c (renderPass p c)) as (F & _).
  fold (flushEffects p c) in F. rewrite F. reflexivity.
Qed.

Lemma find_updated_book k data l :
  Book.p_id data = None ->
  find (fun b => (Book.id b =? k)%Z)
       (map (fun b => if (Book.id b =? k)%Z then withData b data else b) l)
  = option_map (fun b => withData b data) (find (fun b => (Book.id b =? k)%Z) l).
Proof.
  intros Hd. induction l as [|b l IH]; simpl; [reflexivity|].
  destruct (Book.id b =? k)%Z eqn:E; simpl; rewrite ?Hd; simpl; rewrite E;
    [reflexivity | exact IH].
Qed.



Lemma chapters_update_keeps k' ch k sp l :
  Forall (fun x => Book.id x = k -> Book.splits x = sp) l ->
  Forall (fun x => Book.id x = k -> Book.splits x = sp)
         (map (fun b => if (Book.id b =? k')%Z then withData b (chaptersOnly ch) else b) l).
Proof.
  intros H. apply List.Forall_forall. intros x Hx. apply in_map_iff in Hx as (b & <- & Hb).
  rewrite List.Forall_forall in H. specialize (H b Hb).
  destruct (Book.id b =? k')%Z; [exact H | exact H].
Qed.

Lemma runAction_frame a s :
  objects (fst (runAction a s)) = objects (fst s)
  /\ collaborators (snd (runAction a s)) = collaborators (snd s)
  /\ isManuscriptDirty (snd (runAction a s)) = isManuscriptDirty (snd s)
  /\ isNavModalOpen (snd (runAction a s)) = isNavModalOpen (snd s)
  /\ nextNavigationAction (snd (runAction a s)) = nextNavigationAction (snd s)
  /\ activeTab (snd (runAction a s))
     = match a with NavSetActiveTab tab => tab | _ => activeTab (snd s) end
  /\ (forall k sp,
        Forall (fun x => Book.id x = k -> Book.splits x = sp)
               (books (publishing (state (fst s)))) ->
        Forall (fun x => Book.id x = k -> Book.splits x = sp)
               (books (publishing (state (fst (runAction a s))))))
  /\ (exists rest, saveCalls (fst (runAction a s)) = saveCalls (fst s) ++ rest).
Proof.
  destruct a; simpl; repeat split; auto;
    try (exists []; rewrite app_nil_r; reflexivity).
  - intros k sp H. apply chapters_update_keeps. exact H.
  - eexists. reflexivity.
Qed.





Lemma flush_frame p c :
  fst (flushEffects p c) = fst c
  /\ activeTab (snd (flushEffects p c)) = activeTab (snd c)
  /\ activeChapterIndex (snd (flushEffects p c)) = activeChapterIndex (snd c)
  /\ isNavModalOpen (snd (flushEffects p c)) = isNavModalOpen (snd c)
  /\ nextNavigationAction (snd (flushEffects p c)) = nextNavigationAction (snd c).
Proof.
  unfold flushEffects.
  destruct (renderPass_frame p c) as (A1 & A2 & A3 & A4 & A5).
  destruct (renderPass_frame c (renderPass p c)) as (B1 & B2 & B3 & B4 & B5).
  repeat split; congruence.
Qed.







(** After the two renders no dependency differs from the render before:
    a further render runs no effect. *)
Lemma flush_settled p c :
  renderPass (renderPass p c) (flushEffects p c) = flushEffects p c.
Proof.
  pose proof (flush_selectedBookId p c) as S.
  pose proof (flush_selectedBook p c) as B.
  destruct (flush_frame p c) as (F1 & F2 & F3 & _).
  destruct (renderPass_frame p c) as (G1 & G2 & G3 & _).
  remember (renderPass p c) as c1 eqn:E1. remember (flushEffects p c) as c2 eqn:E2.
  clear E1 E2. unfold renderPass.
  rewrite F1, G1, S, B, F2, G2, F3, G3, !changed_refl. simpl.
  rewrite <- F1. symmetry. apply surjective_pairing.
Qed.

End PublishingFacts.




(** * More of the code: the tour, toasts, tasks, further handlers, the backend *)

(** ** The onboarding tour *)

(** X1. Once started on a store whose onboarding is not complete, the
    tour shows step [k] after [k] presses of Next, for every step [k] of
    [TOUR_STEPS]: the view and the tab override are those of the step,
    the index is [k], and nothing else in the store has changed, no save
    was made. The last-step flag is set at step 6 only. *)
Theorem tour_walk (w : World) (k : nat) (step : TourStep.t) :
  onboardingComplete (onboarding (state w)) = false ->
  TOUR_STEPS !! k = Some step ->
  let w' := Nat.iter k nextTourStep (startTour w) in
  w' = showStep (Z.of_nat k) step w
  /\ currentTourStep w' = Some step
  /\ isLastStep w' = bool_decide (k = 6%nat).
Proof.
  intros Hc Hk.
  assert (Hlt : (k < 7)%nat) by (apply lookup_lt_Some in Hk; exact Hk).
  assert (E : Nat.iter k nextTourStep (startTour w) = showStep (Z.of_nat k) step w).
  { unfold startTour. rewrite Hc. cbn [negb].
    do 7 (destruct k as [|k]; [cbn in Hk; injection Hk as <-; reflexivity|]).
    lia. }
  cbn zeta. rewrite E. split; [reflexivity|]. split.
  - do 7 (destruct k as [|k]; [cbn in Hk; injection Hk as <-; reflexivity|]). lia.
  - do 7 (destruct k as [|k]; [reflexivity|]). lia.
Qed.

Lemma tour_walk_witness :
  currentTourStep (Nat.iter 2 nextTourStep (startTour (initialWorld 1000)))
  = Some (TourStep.mk MUSIC (Some (js "studio"))).
Proof.
  exact (proj1 (proj2 (tour_walk (initialWorld 1000) 2
                         (TourStep.mk MUSIC (Some (js "studio"))) eq_refl eq_refl))).
Defined.

(** X2. Next on the last step is [skipTour]: the tour closes (index -1,
    no step shown), the view is the dashboard, onboarding is complete,
    the collections are untouched, [api.saveData] is called at once with
    [onboardingComplete] true, and the closing toast is added 250 ms
    later. *)
Theorem tour_ends_on_last_step (w : World) :
  isLastStep w = true ->
  let w' := nextTourStep w in
  w' = skipTour w
  /\ onboarding (state w') =
       {| tourStepIndex := (-1)%Z; onboardingComplete := true; activeTabOverride := None |}
  /\ view (state w') = DASHBOARD
  /\ currentTourStep w' = None
  /\ music (state w') = music (state w)
  /\ publishing (state w') = publishing (state w)
  /\ (exists later,
        saveCalls w' =
          saveCalls w ++
          (now w, {| s_music := music (state w); s_publishing := publishing (state w);
                     s_onboardingComplete := true |}) :: later)
  /\ toasts (state w') =
       toasts (state w) ++ [ToastMessage.mk (now w + 250) msg_all_set success].
Proof.
  intros Hl. unfold isLastStep in Hl. apply Z.eqb_eq in Hl.
  assert (E : nextTourStep w = skipTour w).
  { unfold nextTourStep. rewrite Hl. reflexivity. }
  cbn zeta. rewrite E. repeat split.
  eexists. unfold skipTour, addToast, elapse, _saveState. cbn.
  rewrite <- app_assoc. reflexivity.
Qed.

Lemma tour_ends_witness :
  isLastStep last_step_world = true
  /\ onboarding (state (nextTourStep last_step_world)) =
       {| tourStepIndex := (-1)%Z; onboardingComplete := true; activeTabOverride := None |}.
Proof.
  split; [reflexivity|].
  exact (proj1 (proj2 (tour_ends_on_last_step last_step_world eq_refl))).
Defined.

Lemma tourStepAt_in_range i :
  (0 <= i <= 6)%Z -> exists step, tourStepAt i = Some step.
Proof.
  intros H. unfold tourStepAt.
  destruct (i <? 0)%Z eqn:E; [apply Z.ltb_lt in E; lia|].
  destruct (TOUR_STEPS !! Z.to_nat i) eqn:L; [eauto|].
  apply lookup_ge_None_1 in L. cbn in L. lia.
Qed.

Lemma tour_step_keeps a w :
  (-1 <= tourStepIndex (onboarding (state w)) <= 6)%Z ->
  (-1 <= tourStepIndex (onboarding (state (tour a w))) <= 6)%Z
  /\ (onboardingComplete (onboarding (state w)) = true ->
      onboardingComplete (onboarding (state (tour a w))) = true).
Proof.
  intros H. destruct a; cbn [tour].
  - destruct (onboardingComplete (onboarding (state w))) eqn:E.
    + replace (startTour w) with w by (unfold startTour; rewrite E; reflexivity).
      split; [exact H|intros _; exact E].
    + replace (startTour w) with (showStep 0 (TourStep.mk DASHBOARD None) w)
        by (unfold startTour; rewrite E; reflexivity).
      cbn. split; [lia|discriminate].
  - unfold nextTourStep.
    destruct (_ <? _)%Z eqn:E.
    + apply Z.ltb_lt in E. cbn in E.
      destruct (tourStepAt_in_range (tourStepIndex (onboarding (state w)) + 1)) as [st ->];
        [lia|]. cbn. split; [lia|tauto].
    + cbn. split; [lia|reflexivity].
  - cbn. split; [lia|reflexivity].
Qed.

(** X3. Whatever sequence of [startTour], [nextTourStep] and [skipTour]
    is run from an index between -1 and 6, the index stays between -1
    and 6; whenever it is not negative, the step [App] looks up in
    [TOUR_STEPS] exists; and onboarding, once complete, stays
    complete. *)
Theorem tour_keeps_index_in_range (acts : list TourAction) (w : World) :
  (-1 <= tourStepIndex (onboarding (state w)) <= 6)%Z ->
  let w' := fold_left (fun w a => tour a w) acts w in
  (-1 <= tourStepIndex (onboarding (state w')) <= 6)%Z
  /\ ((0 <= tourStepIndex (onboarding (state w')))%Z -> currentTourStep w' <> None)
  /\ (onboardingComplete (onboarding (state w)) = true ->
      onboardingComplete (onboarding (state w')) = true).
Proof.
  revert w. induction acts as [|a acts IH]; intros w H; cbn [fold_left].
  - split; [exact H|]. split; [|tauto].
    intros H0. unfold currentTourStep.
    destruct (0 <=? _)%Z eqn:E; [|apply Z.leb_gt in E; lia].
    destruct (tourStepAt_in_range (tourStepIndex (onboarding (state w)))) as [st ->];
      [lia|discriminate].
  - destruct (tour_step_keeps a w H) as [H1 H2].
    destruct (IH (tour a w) H1) as (I1 & I2 & I3).
    split; [exact I1|]. split; [exact I2|]. intros Hc. apply I3, H2, Hc.
Qed.

Lemma tour_keeps_index_witness :
  currentTourStep
    (fold_left (fun w a => tour a w)
       [StartTour; NextTourStep; NextTourStep; SkipTour; StartTour; NextTourStep]
       (initialWorld 1000)) <> None.
Proof.
  destruct (tour_keeps_index_in_range
              [StartTour; NextTourStep; NextTourStep; SkipTour; StartTour; NextTourStep]
              (initialWorld 1000)) as (_ & H & _); [cbn; lia|].
  apply H. vm_compute. discriminate.
Defined.

(** X4. [App] on mounting, from the store's initial state: whatever the
    fetch does, the store ends initialized with the dashboard shown. If
    the data arrived, the collections are those of the answer and the
    tour starts (at its first step) exactly when the answer says
    onboarding is not complete; if the fetch failed, onboarding counts
    as not complete and the tour starts. *)
Theorem App_mount_shows_tour (t : Z) (r : FetchOutcome) :
  exists w',
    App_mount r (initialWorld t) = Fulfilled w'
    /\ isInitialized (state w') = true
    /\ view (state w') = DASHBOARD
    /\ match r with
       | Fetched d =>
           music (state w') = f_music d /\ publishing (state w') = f_publishing d
           /\ onboardingComplete (onboarding (state w')) = f_onboardingComplete d
           /\ currentTourStep w' =
                (if f_onboardingComplete d then None else head TOUR_STEPS)
       | FetchRejected =>
           currentTourStep w' = head TOUR_STEPS
           /\ onboardingComplete (onboarding (state w')) = false
       end.
Proof.
  destruct r as [[m p [] o]|]; eexists; (split; [reflexivity|]); repeat split.
Qed.

(** ** Toasts *)

Module ToastFacts.
Import ToastContainer.

Lemma commit_timed t0 w ms :
  (t0 <= now w)%Z ->
  (forall m, In m ms -> isShown (toasts (state w)) m = true ->
     (now w < due m <= Z.max (key m) t0 + 5000)%Z) ->
  (forall t, In t (toasts (state w)) -> isMounted ms t = false ->
     ToastMessage.id t = now w \/ now w = t0) ->
  timed t0 (commit (w, ms)).
Proof.
  intros H0 H Hnew. split; [|split]; cbn [commit fst snd]; [| |exact H0].
  - intros m Hm. apply in_app_or in Hm. destruct Hm as [Hm|Hm].
    + apply List.filter_In in Hm. apply H; apply Hm.
    + apply in_map_iff in Hm. destruct Hm as (t & <- & Ht).
      apply List.filter_In in Ht. destruct Ht as [Ht E]. apply negb_true_iff in E.
      cbn. destruct (Hnew t Ht E); lia.
  - intros t Ht. destruct (isMounted ms t) eqn:E.
    + unfold isMounted in E. apply existsb_exists in E. destruct E as (m & Hm & Hk).
      apply Z.eqb_eq in Hk. exists m. split; [|exact Hk].
      apply in_or_app. left. apply List.filter_In. split; [exact Hm|].
      unfold isShown. apply existsb_exists. exists t. split; [exact Ht|].
      apply Z.eqb_eq. congruence.
    + eexists. split.
      * apply in_or_app. right. apply in_map_iff. eexists. split; [reflexivity|].
        apply List.filter_In. split; [exact Ht|]. rewrite E. reflexivity.
      * reflexivity.
Qed.

Lemma isMounted_of t0 w ms t :
  timed t0 (w, ms) -> In t (toasts (state w)) -> isMounted ms t = true.
Proof.
  intros (_ & H & _) Ht. destruct (H t Ht) as (m & Hm & Hk).
  apply existsb_exists. exists m. split; [exact Hm|]. apply Z.eqb_eq. exact Hk.
Qed.

Lemma fold_dismiss fired : forall w,
  toasts (state (fold_left (fun w m => dismissToast (key m) w) fired w)) =
  List.filter (fun t => negb (existsb (fun m => (ToastMessage.id t =? key m)%Z) fired))
    (toasts (state w))
  /\ now (fold_left (fun w m => dismissToast (key m) w) fired w) = now w.
Proof.
  induction fired as [|m fired IH]; intros w; cbn [fold_left].
  - split; [|reflexivity]. cbn. induction (toasts (state w)) as [|t l IHl]; cbn; congruence.
  - destruct (IH (dismissToast (key m) w)) as [-> ->]. split; [|reflexivity].
    cbn. induction (toasts (state w)) as [|t l IHl]; cbn; [reflexivity|].
    destruct (ToastMessage.id t =? key m)%Z; cbn; [exact IHl|].
    destruct (existsb _ fired); cbn; congruence.
Qed.

Lemma step_timed t0 s e : timed t0 s -> timed t0 (step s e).
Proof.
  intros H. pose proof H as (H1 & H2 & H3). destruct s as [w ms]. cbn [fst snd] in *.
  destruct e as [message type|id|d]; cbn [step fst snd].
  - apply commit_timed; [exact H3|intros m Hm _; exact (H1 m Hm)|].
    intros t Ht E. cbn in Ht. apply in_app_or in Ht. destruct Ht as [Ht|[<-|[]]].
    + rewrite (isMounted_of t0 w ms t H Ht) in E. discriminate.
    + left. reflexivity.
  - apply commit_timed; [exact H3|intros m Hm _; exact (H1 m Hm)|].
    intros t Ht E. cbn in Ht. apply List.filter_In in Ht.
    rewrite (isMounted_of t0 w ms t H (proj1 Ht)) in E. discriminate.
  - unfold expire. cbn [fst snd].
    set (w1 := elapse (Z.of_N d) w).
    destruct (fold_dismiss (List.filter (fun m => (due m <=? now w1)%Z) ms) w1) as [Et En].
    apply commit_timed.
    + rewrite En. cbn. lia.
    + intros m Hm Hs. rewrite En. specialize (H1 m Hm). split; [|lia].
      destruct (Z.leb_spec (due m) (now w1)) as [Hle|Hgt]; [|exact Hgt].
      exfalso. unfold isShown in Hs. apply existsb_exists in Hs.
      destruct Hs as (t & Ht & Hk). rewrite Et in Ht. apply List.filter_In in Ht.
      destruct Ht as [_ Ht]. apply negb_true_iff in Ht.
      assert (existsb (fun m0 => (ToastMessage.id t =? key m0)%Z)
                (List.filter (fun m0 => (due m0 <=? now w1)%Z) ms) = true); [|congruence].
      apply existsb_exists. exists m. split; [|exact Hk].
      apply List.filter_In. split; [exact Hm|]. apply Z.leb_le. exact Hle.
    + intros t Ht E. rewrite Et in Ht. apply List.filter_In in Ht.
      rewrite (isMounted_of t0 w ms t H (proj1 Ht)) in E. discriminate.
Qed.

Lemma run_timed t0 es : forall s, timed t0 s -> timed t0 (fold_left step es s).
Proof.
  induction es as [|e es IH]; intros s H; cbn [fold_left]; [exact H|].
  apply IH, step_timed, H.
Qed.

Lemma mount_timed w : timed (now w) (mount w).
Proof.
  apply commit_timed; [lia|intros m []|]. intros; right; reflexivity.
Qed.

End ToastFacts.

(** X5. No toast outlives five seconds on screen. With the toast
    container mounted at some time, after any sequence of toasts
    added, toasts dismissed by hand and time passing, every toast still
    in the store was added (or, if it was already there, the container
    mounted) less than 5000 ms ago: its timer has dismissed it
    otherwise. *)
Theorem toast_lifetime (w : World) (es : list ToastContainer.Event) (t : ToastMessage.t) :
  let s := fold_left ToastContainer.step es (ToastContainer.mount w) in
  In t (toasts (state (fst s))) ->
  (now (fst s) < Z.max (ToastMessage.id t) (now w) + 5000)%Z.
Proof.
  cbn zeta. intros Ht.
  destruct (ToastFacts.run_timed (now w) es _ (ToastFacts.mount_timed w)) as (H1 & H2 & _).
  destruct (H2 t Ht) as (m & Hm & Hk). specialize (H1 m Hm). rewrite <- Hk. lia.
Qed.

Lemma toast_lifetime_witness :
  toasts (state (fst (fold_left ToastContainer.step toast_events
                        (ToastContainer.mount sample_world))))
  = [ToastMessage.mk 2200 (js "New chapter added.") success]
  /\ (now (fst (fold_left ToastContainer.step toast_events
                  (ToastContainer.mount sample_world)))
      < Z.max 2200 (now sample_world) + 5000)%Z.
Proof.
  split; [vm_compute; reflexivity|].
  apply (toast_lifetime sample_world toast_events
           (ToastMessage.mk 2200 (js "New chapter added.") success)).
  vm_compute. left. reflexivity.
Defined.

(** X6. Dismissing the toast just added gives back the store as it was,
    provided no toast already there carries the same identifier (the
    clock reading of this millisecond): [dismissToast] removes every
    toast of that identifier. *)
Theorem dismissToast_undoes_addToast (message : jsstring) (type : ToastType) (w : World) :
  Forall (fun t => ToastMessage.id t <> now w) (toasts (state w)) ->
  dismissToast (now w) (addToast message type w) = w.
Proof.
  intros H. unfold dismissToast, addToast, set_state. cbn.
  rewrite List.filter_app. cbn. rewrite Z.eqb_refl. cbn. rewrite app_nil_r.
  replace (List.filter _ (toasts (state w))) with (toasts (state w)).
  - destruct w as [n s h sc tm]. cbn. rewrite AppState_eta. reflexivity.
  - induction H as [|t l Ht _ IH]; cbn; [reflexivity|].
    destruct (Z.eqb_spec (ToastMessage.id t) (now w)); [contradiction|]. cbn. congruence.
Qed.

Lemma dismissToast_undoes_addToast_witness :
  dismissToast 1100
    (addToast (js "Saved.") success
       (elapse 100 (addToast (js "Welcome.") success sample_world)))
  = elapse 100 (addToast (js "Welcome.") success sample_world).
Proof.
  apply (dismissToast_undoes_addToast (js "Saved.") success
           (elapse 100 (addToast (js "Welcome.") success sample_world))).
  vm_compute. repeat constructor. discriminate.
Defined.

(** ** The task manager *)

Lemma trimStart_clean s : startsClean (trimStart s).
Proof.
  destruct (trimStart_shape s) as [->|(c & t & -> & H)]; [exact I|exact H].
Qed.

Lemma trimStart_split s :
  exists a, s = a ++ trimStart s /\ forallb isWhiteSpace a = true.
Proof.
  induction s as [|c t (a & E & Ha)]; [exists []; auto|].
  cbn. destruct (isWhiteSpace c) eqn:Hc.
  - exists (c :: a). cbn. rewrite Hc, Ha. split; [congruence|reflexivity].
  - exists []. auto.
Qed.

(** [trim] removes white space from the two ends, and all of it. *)
Lemma trim_split s :
  exists a b,
    s = a ++ trim s ++ b
    /\ forallb isWhiteSpace a = true /\ forallb isWhiteSpace b = true
    /\ startsClean (trim s) /\ startsClean (rev (trim s)).
Proof.
  destruct (trimStart_split s) as (a & Es & Ha).
  destruct (trimStart_split (rev (trimStart s))) as (b & Eu & Hb).
  assert (Eu' : trimStart s = trim s ++ rev b).
  { unfold trim, trimEnd. rewrite <- rev_app_distr, <- Eu, rev_involutive. reflexivity. }
  exists a, (rev b). split; [congruence|]. split; [exact Ha|].
  split; [rewrite forallb_rev; exact Hb|]. split.
  - pose proof (trimStart_clean s) as H. rewrite Eu' in H.
    destruct (trim s); [exact I|exact H].
  - unfold trim, trimEnd. rewrite rev_involutive. apply trimStart_clean.
Qed.

(** X7. The add-task form. When the text typed is blank (empty or white
    space only) submitting does nothing: no task, no save, the cells
    keep their content. Otherwise one task is appended to the tasks of
    the module at hand, with the clock reading as identifier, the text
    typed less the white space at its two ends (so never empty), the due
    date as typed and [completed] false; one save is issued, the other
    collections are untouched and the two cells are cleared. *)
Theorem handleAddTask_trims (module : TaskManager.Kind) (s : TaskManager.St) :
  let s' := TaskManager.handleAddTask module s in
  let text := trim (TaskManager.newTask (snd s)) in
  if isBlank (TaskManager.newTask (snd s)) then s' = s
  else
    TaskManager.tasks module (fst s') =
      TaskManager.tasks module (fst s)
      ++ [Task.mk (now (fst s)) text (TaskManager.newDueDate (snd s)) false]
    /\ text <> [] /\ startsClean text /\ startsClean (rev text)
    /\ snd s' = {| TaskManager.newTask := []; TaskManager.newDueDate := [] |}
    /\ (forall other, other <> module ->
          TaskManager.tasks other (fst s') = TaskManager.tasks other (fst s))
    /\ releases (music (state (fst s'))) = releases (music (state (fst s)))
    /\ books (publishing (state (fst s'))) = books (publishing (state (fst s)))
    /\ length (saveCalls (fst s')) = S (length (saveCalls (fst s))).
Proof.
  cbn zeta. unfold TaskManager.handleAddTask, str_eqb.
  destruct (isBlank (TaskManager.newTask (snd s))) eqn:E.
  - rewrite bool_decide_eq_true_2 by (apply trim_nil; exact E). reflexivity.
  - assert (Hn : trim (TaskManager.newTask (snd s)) <> []).
    { rewrite trim_nil. congruence. }
    rewrite bool_decide_eq_false_2 by exact Hn.
    destruct (trim_split (TaskManager.newTask (snd s))) as (a & b & _ & _ & _ & H1 & H2).
    destruct module; cbn; rewrite ?length_app; cbn;
      (repeat split; auto; try lia);
      intros [] Ho; try contradiction; reflexivity.
Qed.

Lemma sort_insert_open (x : Task.t) l :
  Task.completed x = false ->
  Array_sort_insert TaskManager.byCompletion x l = x :: l.
Proof.
  intros Hx. destruct l as [|y t]; [reflexivity|]. cbn.
  unfold TaskManager.byCompletion. rewrite Hx. destruct (Task.completed y); reflexivity.
Qed.

Lemma sort_insert_done (x : Task.t) open done :
  Task.completed x = true ->
  Forall (fun t => Task.completed t = false) open ->
  Forall (fun t => Task.completed t = true) done ->
  Array_sort_insert TaskManager.byCompletion x (open ++ done) = open ++ x :: done.
Proof.
  intros Hx Ho Hd. induction Ho as [|y open Hy Ho IH]; cbn.
  - destruct Hd as [|y done Hy Hd]; [reflexivity|]. cbn.
    unfold TaskManager.byCompletion. rewrite Hx, Hy. reflexivity.
  - unfold TaskManager.byCompletion at 1. rewrite Hx, Hy. cbn. rewrite IH. reflexivity.
Qed.

(** X8. The task list shows the open tasks first and the completed ones
    after them, each group in the order of the store: the sort by
    completion moves nothing else. *)
Theorem shownTasks_open_then_done (module : TaskManager.Kind) (w : World) :
  TaskManager.shownTasks module w =
    List.filter (fun t => negb (Task.completed t)) (TaskManager.tasks module w)
    ++ List.filter Task.completed (TaskManager.tasks module w).
Proof.
  unfold TaskManager.shownTasks, Array_sort.
  induction (TaskManager.tasks module w) as [|x l IH]; [reflexivity|].
  cbn [fold_right List.filter]. rewrite IH.
  destruct (Task.completed x) eqn:Hx; cbn [negb].
  - apply sort_insert_done; [exact Hx| |];
      apply List.Forall_forall; intros t Ht; apply List.filter_In in Ht;
      destruct Ht as [_ Ht]; [apply negb_true_iff in Ht|]; exact Ht.
  - apply sort_insert_open. exact Hx.
Qed.

(** ** The store: edge cases of the updates *)

(** X9. [updateChapterContent] on a book that carries the identifier:
    the book keeps every field but its chapters; reading the chapter
    written gives the new content; the chapter keeps its title (a
    chapter created by the write has none); every other chapter reads as
    before; a write past the end grows the array up to that index, the
    slots in between being holes, and a write inside leaves its length
    alone. *)
Theorem updateChapterContent_writes_one_chapter
    (bookId : Z) (chapterIndex : nat) (content : jsstring) (w : World)
    (p : nat) (b : Book.t) :
  books (publishing (state w)) !! p = Some b ->
  Book.id b = bookId ->
  exists b',
    books (publishing (state (updateChapterContent bookId chapterIndex content w))) !! p
      = Some b'
    /\ b' = withChapters b (Book.chapters b')
    /\ Publishing.chapterContent b' chapterIndex = content
    /\ option_map BookChapter.title (array_get (Book.chapters b') chapterIndex)
       = Some (match array_get (Book.chapters b) chapterIndex with
               | Some ch => BookChapter.title ch
               | None => None
               end)
    /\ (forall j, j <> chapterIndex ->
          array_get (Book.chapters b') j = array_get (Book.chapters b) j)
    /\ length (Book.chapters b') = Nat.max (length (Book.chapters b)) (S chapterIndex).
Proof.
  intros Hp Hid.
  exists (rewritten b chapterIndex content).
  split.
  - cbn. rewrite list_lookup_fmap, Hp. cbn. rewrite Hid, Z.eqb_refl. reflexivity.
  - split; [reflexivity|]. unfold rewritten.
    change (Book.chapters (withChapters b ?c)) with c.
    split; [|split; [|split]].
    + unfold Publishing.chapterContent.
      change (Book.chapters (withChapters b ?c)) with c.
      rewrite array_get_set_same.
      destruct (array_get (Book.chapters b) chapterIndex); reflexivity.
    + rewrite array_get_set_same.
      destruct (array_get (Book.chapters b) chapterIndex); reflexivity.
    + intros j Hj. apply array_get_set_other. congruence.
    + apply array_set_length.
Qed.

Lemma updateChapterContent_witness :
  exists b',
    books (publishing (state (updateChapterContent 7 2 (js "Dawn.") sample_world))) !! 0%nat
      = Some b'
    /\ Publishing.chapterContent b' 2 = js "Dawn."
    /\ array_get (Book.chapters b') 1 = None
    /\ length (Book.chapters b') = 3%nat.
Proof.
  destruct (updateChapterContent_writes_one_chapter 7 2 (js "Dawn.") sample_world 0
              sample_book eq_refl eq_refl) as (b' & H1 & _ & H3 & _ & H5 & H6).
  exists b'. split; [exact H1|]. split; [exact H3|]. split; [|exact H6].
  rewrite H5 by discriminate. reflexivity.
Defined.

(** X10. A content edit is not lost: once 500 ms (or more) have passed
    after [updateChapterContent] with no other event, the timer it set
    has run, the store is as the edit left it, and the last call to
    [api.saveData], made 500 ms after the edit, carries exactly that
    state. *)
Theorem content_edit_reaches_the_server
    (bookId : Z) (chapterIndex : nat) (content : jsstring) (w : World) (d : Z) :
  (500 <= d)%Z ->
  let w1 := updateChapterContent bookId chapterIndex content w in
  let w2 := elapse d w1 in
  state w2 = state w1
  /\ last (saveCalls w2) = Some ((now w + 500)%Z, snapshotOf (state w1)).
Proof.
  intros Hd. cbn zeta. split; [reflexivity|].
  unfold elapse. cbn [saveCalls updateChapterContent timers now set_state].
  rewrite List.filter_app. cbn [List.filter].
  replace (now w + 500 <=? now w + d)%Z with true by (symmetry; apply Z.leb_le; lia).
  rewrite map_app. cbn [map]. rewrite !app_assoc, last_snoc. reflexivity.
Qed.

Lemma content_edit_witness :
  last (saveCalls (elapse 500 (updateChapterContent 7 0 (js "It rained. H") sample_world)))
  = Some (1500%Z,
          snapshotOf (state (updateChapterContent 7 0 (js "It rained. H") sample_world))).
Proof.
  apply (content_edit_reaches_the_server 7 0 (js "It rained. H") sample_world 500). lia.
Defined.

Lemma map_absent {A} (idOf : A -> Z) k (f : A -> A) l :
  Forall (fun x => idOf x <> k) l ->
  map (fun x => if (idOf x =? k)%Z then f x else x) l = l.
Proof.
  induction 1 as [|x l Hx _ IH]; cbn; [reflexivity|].
  rewrite IH. destruct (Z.eqb_spec (idOf x) k); congruence.
Qed.

(** X11. An update aimed at an identifier that no release and no book
    carries changes nothing in the store's state and raises no error,
    yet the save goes out all the same: [updateMusicSplits] and
    [updateBook] call [api.saveData] with the unchanged state, and
    [updateChapterContent] sets its 500 ms timer. *)
Theorem update_of_absent_id_only_saves (w : World) (k : Z) :
  Forall (fun r => Release.id r <> k) (releases (music (state w))) ->
  Forall (fun b => Book.id b <> k) (books (publishing (state w))) ->
  (forall splits,
     state (updateMusicSplits k splits w) = state w
     /\ saveCalls (updateMusicSplits k splits w)
        = saveCalls w ++ [(now w, snapshotOf (state w))])
  /\ (forall data,
        state (updateBook k data w) = state w
        /\ saveCalls (updateBook k data w)
           = saveCalls w ++ [(now w, snapshotOf (state w))])
  /\ (forall i content,
        state (updateChapterContent k i content w) = state w
        /\ saveCalls (updateChapterContent k i content w) = saveCalls w
        /\ timers (updateChapterContent k i content w) = timers w ++ [(now w + 500)%Z]).
Proof.
  intros Hr Hb. split; [|split].
  - intros splits. unfold updateMusicSplits, _saveState, set_state, set_music, snapshotOf.
    cbn. rewrite (map_absent Release.id k _ _ Hr).
    rewrite MusicData_eta, AppState_eta. auto.
  - intros data. unfold updateBook, _saveState, set_state, set_publishing, snapshotOf.
    cbn. rewrite (map_absent Book.id k _ _ Hb).
    rewrite PublishingData_eta, AppState_eta. auto.
  - intros i content. unfold updateChapterContent, set_state, set_publishing.
    cbn. rewrite (map_absent Book.id k _ _ Hb).
    rewrite PublishingData_eta, AppState_eta. auto.
Qed.

Lemma update_of_absent_id_witness :
  state (updateBook 99 (splitsOnly []) sample_world) = state sample_world
  /\ length (saveCalls (updateBook 99 (splitsOnly []) sample_world)) = 1%nat.
Proof.
  destruct (update_of_absent_id_only_saves sample_world 99) as (_ & H & _).
  - vm_compute. repeat constructor; discriminate.
  - vm_compute. repeat constructor; discriminate.
  - destruct (H (splitsOnly [])) as [H1 H2]. rewrite H1, H2. split; reflexivity.
Defined.

(** ** The two views: renders that run no effect *)

Lemma Music_renderPass_quiet p c :
  releases (music (state (fst p))) = releases (music (state (fst c))) ->
  Music.selectedReleaseId (snd p) = Music.selectedReleaseId (snd c) ->
  Music.activeTab (snd p) = Music.activeTab (snd c) ->
  Music.renderPass p c = c.
Proof.
  intros H1 H2 H3. unfold Music.renderPass.
  assert (H4 : Music.selectedRelease p = Music.selectedRelease c).
  { unfold Music.selectedRelease. rewrite H1, H2. reflexivity. }
  rewrite H1, H2, H3, H4, !changed_refl. cbn. symmetry. apply surjective_pairing.
Qed.

Lemma Music_flush_quiet p c :
  releases (music (state (fst p))) = releases (music (state (fst c))) ->
  Music.selectedReleaseId (snd p) = Music.selectedReleaseId (snd c) ->
  Music.activeTab (snd p) = Music.activeTab (snd c) ->
  Music.flushEffects p c = c.
Proof.
  intros H1 H2 H3. unfold Music.flushEffects.
  rewrite (Music_renderPass_quiet p c H1 H2 H3).
  apply Music_renderPass_quiet; reflexivity.
Qed.

Lemma Publishing_renderPass_quiet p c :
  books (publishing (state (fst p))) = books (publishing (state (fst c))) ->
  Publishing.selectedBookId (snd p) = Publishing.selectedBookId (snd c) ->
  Publishing.activeChapterIndex (snd p) = Publishing.activeChapterIndex (snd c) ->
  Publishing.activeTab (snd p) = Publishing.activeTab (snd c) ->
  Publishing.renderPass p c = c.
Proof.
  intros H1 H2 H3 H4. unfold Publishing.renderPass.
  assert (H5 : Publishing.selectedBook p = Publishing.selectedBook c).
  { unfold Publishing.selectedBook. rewrite H1, H2. reflexivity. }
  rewrite H1, H2, H3, H4, H5, !changed_refl. cbn. symmetry. apply surjective_pairing.
Qed.

Lemma Publishing_flush_quiet p c :
  books (publishing (state (fst p))) = books (publishing (state (fst c))) ->
  Publishing.selectedBookId (snd p) = Publishing.selectedBookId (snd c) ->
  Publishing.activeChapterIndex (snd p) = Publishing.activeChapterIndex (snd c) ->
  Publishing.activeTab (snd p) = Publishing.activeTab (snd c) ->
  Publishing.flushEffects p c = c.
Proof.
  intros H1 H2 H3 H4. unfold Publishing.flushEffects.
  rewrite (Publishing_renderPass_quiet p c H1 H2 H3 H4).
  apply Publishing_renderPass_quiet; reflexivity.
Qed.

Lemma Publishing_flush_same_book p c k :
  Publishing.selectedBookId (snd c) = Some k ->
  Publishing.selectedBook p = Publishing.selectedBook c ->
  Publishing.activeChapterIndex (snd p) = Publishing.activeChapterIndex (snd c) ->
  Publishing.activeTab (snd p) = Publishing.activeTab (snd c) ->
  Publishing.flushEffects p c = c.
Proof.
  intros Hk H1 H2 H3. unfold Publishing.flushEffects.
  assert (R : Publishing.renderPass p c = c).
  { unfold Publishing.renderPass. rewrite H1, H2, H3, !changed_refl. cbn [orb].
    assert (E : forall acc, Publishing.effectSelectFirst c acc = acc).
    { intros acc. unfold Publishing.effectSelectFirst. rewrite Hk.
      destruct (books _); reflexivity. }
    rewrite E. destruct (_ || _); symmetry; apply surjective_pairing. }
  rewrite R. apply Publishing_renderPass_quiet; reflexivity.
Qed.

(** ** Cancel *)

(** X12. Cancel gives back the editing state. In both views, when the
    guard has stopped a navigation (the check was dirty, no prompt was
    open, no action pending) and the prompt is answered with Cancel, the
    store and every cell of the view are exactly as they were before the
    navigation was asked for: nothing is saved, nothing discarded, the
    action is dropped. *)

Theorem cancel_returns_to_editing :
  (forall a s,
     Music.isDirtyAt s = true ->
     Music.isNavModalOpen (snd s) = false ->
     Music.nextNavigationAction (snd s) = None ->
     Music.isNavModalOpen (snd (Music.after (Music.handleNavigate a) s)) = true
     /\ Music.after Music.handleCancelNavigation (Music.after (Music.handleNavigate a) s) = s)
  /\ (forall a s,
        Publishing.isDirtyAt s = true ->
        Publishing.isNavModalOpen (snd s) = false ->
        Publishing.nextNavigationAction (snd s) = None ->
        Publishing.isNavModalOpen (snd (Publishing.after (Publishing.handleNavigate a) s))
          = true
        /\ Publishing.after Publishing.handleCancelNavigation
             (Publishing.after (Publishing.handleNavigate a) s) = s).
Proof.
  split.
  - intros a [w c] Hd Hm Hn.
    assert (E : Music.after (Music.handleNavigate a) (w, c)
                = (w, Music.setNavModalOpen true
                        (Music.setNextNavigationAction (Some a) c))).
    { unfold Music.after, Music.handleNavigate. rewrite Hd.
      apply Music_flush_quiet; reflexivity. }
    rewrite E. split; [reflexivity|].
    unfold Music.after. rewrite Music_flush_quiet by reflexivity.
    destruct c. cbn in Hm, Hn. subst. reflexivity.
  - intros a [w c] Hd Hm Hn.
    assert (E : Publishing.after (Publishing.handleNavigate a) (w, c)
                = (w, Publishing.setNavModalOpen true
                        (Publishing.setNextNavigationAction (Some a) c))).
    { unfold Publishing.after, Publishing.handleNavigate. rewrite Hd.
      apply Publishing_flush_quiet; reflexivity. }
    rewrite E. split; [reflexivity|].
    unfold Publishing.after. rewrite Publishing_flush_quiet by reflexivity.
    destruct c. cbn in Hm, Hn. subst. reflexivity.
Qed.

Lemma cancel_returns_to_editing_witness :
  Music.after Music.handleCancelNavigation sample_pending = sample_dirty
  /\ Publishing.after Publishing.handleCancelNavigation pub_pending = pub_dirty.
Proof.
  split.
  - exact (proj2 (proj1 cancel_returns_to_editing
                    (Music.NavSetActiveTab Music.tab_releases) sample_dirty
                    eq_refl eq_refl eq_refl)).
  - exact (proj2 (proj2 cancel_returns_to_editing
                    (Publishing.NavSetSelectedBookId (Some 8%Z)) pub_dirty
                    eq_refl eq_refl eq_refl)).
Defined.

(** ** The share field *)


Lemma deref_writeField h r field value r' :
  (r < length h)%nat ->
  deref (writeField h r field value) r' =
    if bool_decide (r' = r) then
      match field with
      | f_name => Collaborator.mk value (Collaborator.share (deref h r))
      | f_share => Collaborator.mk (Collaborator.name (deref h r)) value
      end
    else deref h r'.
Proof.
  intros Hr. unfold writeField, deref at 1.
  destruct (decide (r' = r)) as [->|Hn].
  - rewrite bool_decide_eq_true_2 by reflexivity.
    rewrite list_lookup_insert_eq by exact Hr. destruct field; reflexivity.
  - rewrite bool_decide_eq_false_2 by exact Hn.
    rewrite list_lookup_insert_ne by congruence. reflexivity.
Qed.

Lemma writeField_out h r field value : (length h <= r)%nat -> writeField h r field value = h.
Proof. intros H. unfold writeField. apply list_insert_ge. exact H. Qed.

(** X13. [handleCollaboratorChange] writes into the row object that the
    buffer holds at [index], and into nothing else. A name edit stores
    the name typed and keeps the share. A share edit with a value made
    of digits with at most one point (the empty value is one) stores
    that value, or ["100"] when the value parses above 100, and keeps
    the name; with any other value it does nothing at all. So a share
    that was of the accepted form, not above 100, is one still. Every
    other row object reads as before; the clock, the timers, the calls
    to [api.saveData] and the lists the store holds are as they were,
    and no row is allocated. The lists hold references: a list that
    holds the row written, be it the buffer or, before any save, the
    splits of a release or a book in the store, reads the new row at
    once. When the buffer has no row at [index] nothing is written. *)
Theorem share_input_is_validated
    (index : nat) (field : Field) (value : jsstring) (B : list ref) (w : World) :
  let w' := changeCollaborator index field value B w in
  (B !! index = None -> w' = w)
  /\ forall r,
       B !! index = Some r -> (r < length (objects w))%nat ->
       let before := deref (objects w) r in
       let after := deref (objects w') r in
       (field = f_name -> after = Collaborator.mk value (Collaborator.share before))
       /\ (field = f_share -> isDecimalInput value = true ->
           parseFloat_gt_100 value = false ->
           after = Collaborator.mk (Collaborator.name before) value)
       /\ (field = f_share -> isDecimalInput value = true ->
           parseFloat_gt_100 value = true ->
           after = Collaborator.mk (Collaborator.name before) (js "100"))
       /\ (field = f_share -> isDecimalInput value = false -> w' = w)
       /\ (field = f_share -> acceptedShare (Collaborator.share before) = true ->
           acceptedShare (Collaborator.share after) = true)
       /\ (forall r', r' <> r -> deref (objects w') r' = deref (objects w) r')
       /\ (forall l,
             rows (objects w') l
             = map (fun r' => if bool_decide (r' = r) then after
                              else deref (objects w) r') l)
       /\ now w' = now w /\ timers w' = timers w /\ saveCalls w' = saveCalls w
       /\ state w' = state w
       /\ length (objects w') = length (objects w).
Proof.
  cbn zeta.
  assert (E0 : str_eqb value [] || isDecimalInput value = isDecimalInput value).
  { unfold str_eqb. destruct (decide (value = [])) as [->|Hn].
    - reflexivity.
    - rewrite bool_decide_eq_false_2 by exact Hn. reflexivity. }
  split.
  - intros Hi. unfold changeCollaborator. rewrite Hi.
    destruct field; [reflexivity|]. destruct (_ || _); reflexivity.
  - intros r Hi Hr.
    assert (Hothers : forall fld v r',
              r' <> r -> deref (writeField (objects w) r fld v) r' = deref (objects w) r').
    { intros fld v r' Hn. rewrite deref_writeField by exact Hr.
      rewrite bool_decide_eq_false_2 by exact Hn. reflexivity. }
    assert (Hself : forall fld v,
              deref (writeField (objects w) r fld v) r =
              match fld with
              | f_name => Collaborator.mk v (Collaborator.share (deref (objects w) r))
              | f_share => Collaborator.mk (Collaborator.name (deref (objects w) r)) v
              end).
    { intros fld v. rewrite deref_writeField by exact Hr.
      rewrite bool_decide_eq_true_2 by reflexivity. reflexivity. }
    assert (Hrows : forall h' l,
              (forall r', r' <> r -> deref h' r' = deref (objects w) r') ->
              rows h' l = map (fun r' => if bool_decide (r' = r) then deref h' r
                                         else deref (objects w) r') l).
    { intros h' l Hh. unfold rows. apply map_ext. intros r'.
      destruct (decide (r' = r)) as [->|Hn].
      - rewrite bool_decide_eq_true_2 by reflexivity. reflexivity.
      - rewrite bool_decide_eq_false_2 by exact Hn. apply Hh. exact Hn. }
    assert (Hlen : forall fld v,
              length (writeField (objects w) r fld v) = length (objects w)).
    { intros. unfold writeField. apply length_insert. }
    unfold changeCollaborator. rewrite Hi, E0.
    destruct field.
    + cbn [objects set_objects now timers saveCalls state].
      rewrite Hself, Hlen.
      repeat split; try discriminate.
      * intros r' Hn. apply Hothers. exact Hn.
      * intros l. rewrite <- (Hself f_name value). apply Hrows.
        intros r' Hn. apply Hothers. exact Hn.
    + destruct (isDecimalInput value) eqn:Hv.
      * cbn [objects set_objects now timers saveCalls state].
        rewrite Hself, Hlen.
        repeat split; try discriminate.
        -- intros _ _ Hp. rewrite Hp. reflexivity.
        -- intros _ _ Hp. rewrite Hp. reflexivity.
        -- intros _ _. cbn [Collaborator.share].
           destruct (parseFloat_gt_100 value) eqn:Hp; [reflexivity|].
           unfold acceptedShare. rewrite Hv, Hp, orb_true_r. reflexivity.
        -- intros r' Hn. apply Hothers. exact Hn.
        -- intros l. rewrite <- (Hself f_share). apply Hrows.
           intros r' Hn. apply Hothers. exact Hn.
      * repeat split; try discriminate.
        -- intros _ Ha. exact Ha.
        -- intros l. apply Hrows. reflexivity.
Qed.

(** On the sample world, whose release holds the rows A 60 and B 40: a
    share of 41 typed into the second row is read at once through the
    release in the store, 250 is stored as 100, and 4x is not stored. *)
Lemma share_input_witness :
  rows (objects (changeCollaborator 1 f_share (js "41") [0; 1] sample_world))
    (Release.splits sample_release)
  = [rowA; Collaborator.mk (js "B") (js "41")]
  /\ deref (objects (changeCollaborator 1 f_share (js "250") [0; 1] sample_world)) 1
     = Collaborator.mk (js "B") (js "100")
  /\ changeCollaborator 1 f_share (js "4x") [0; 1] sample_world = sample_world.
Proof.
  split; [|split].
  - destruct (share_input_is_validated 1 f_share (js "41") [0; 1] sample_world)
      as [_ H].
    destruct (H 1%nat eq_refl ltac:(cbn; lia)) as (_ & H2 & _ & _ & _ & _ & H7 & _).
    rewrite H7, H2 by (vm_compute; reflexivity). reflexivity.
  - destruct (share_input_is_validated 1 f_share (js "250") [0; 1] sample_world)
      as [_ H].
    destruct (H 1%nat eq_refl ltac:(cbn; lia)) as (_ & _ & H3 & _).
    apply H3; vm_compute; reflexivity.
  - destruct (share_input_is_validated 1 f_share (js "4x") [0; 1] sample_world)
      as [_ H].
    destruct (H 1%nat eq_refl ltac:(cbn; lia)) as (_ & _ & _ & H4 & _).
    apply H4; vm_compute; reflexivity.
Defined.

(** ** The release selector *)

(** X14. The release selector of the music view is outside the guard.
    On the splits tab, choosing a release other than the one shown
    replaces the edit buffer by the saved splits of the release chosen,
    at once: the store is untouched, no prompt opens, and what the
    buffer held is gone, whether or not the check was dirty. *)

Theorem selecting_a_release_reloads_the_buffer (s : Music.St) (k : Z) (r : Release.t) :
  Music.activeTab (snd s) = Music.tab_splits ->
  find (fun x => (Release.id x =? k)%Z) (releases (music (state (fst s)))) = Some r ->
  Music.selectedRelease s <> Some r ->
  Music.after (MusicStudio.handleSelectRelease (Some k)) s
  = (fst s,
     Music.setCollaborators (Release.splits r)
       (Music.setSelectedReleaseId (Some k) (snd s))).
Proof.
  intros Htab Hr Hne. destruct s as [w c]. cbn [fst snd] in *.
  unfold Music.after, MusicStudio.handleSelectRelease. cbn [fst snd].
  set (c1 := Music.setSelectedReleaseId (Some k) c).
  assert (S1 : Music.selectedRelease (w, c1) = Some r) by exact Hr.
  assert (R1 : Music.renderPass (w, c) (w, c1)
               = (w, Music.setCollaborators (Release.splits r) c1)).
  { unfold Music.renderPass. rewrite S1. cbn [fst snd].
    rewrite (changed_true (Music.selectedRelease (w, c)) (Some r)) by exact Hne.
    cbn [orb].
    assert (E : forall acc, Music.effectSelectFirst (w, c1) acc = acc).
    { intros acc. unfold Music.effectSelectFirst. cbn.
      destruct (releases _); reflexivity. }
    rewrite E. destruct (_ || _); unfold Music.effectSyncCollaborators;
      rewrite S1; cbn [snd]; change (Music.activeTab c1) with (Music.activeTab c);
      rewrite Htab, bool_decide_eq_true_2 by reflexivity; reflexivity. }
  unfold Music.flushEffects. rewrite R1.
  apply Music_renderPass_quiet; reflexivity.
Qed.

Lemma selecting_a_release_witness :
  Music.isDirtyAt two_releases_dirty = true
  /\ Music.after (MusicStudio.handleSelectRelease (Some 2%Z)) two_releases_dirty
     = (fst two_releases_dirty,
        Music.setCollaborators [3%nat]
          (Music.setSelectedReleaseId (Some 2%Z) (snd two_releases_dirty))).
Proof.
  split; [vm_compute; reflexivity|].
  apply (selecting_a_release_reloads_the_buffer two_releases_dirty 2 second_release).
  - vm_compute. reflexivity.
  - vm_compute. reflexivity.
  - vm_compute. discriminate.
Defined.

(** ** The manuscript *)

Lemma find_rewritten {A} (idOf : A -> Z) (k : Z) (f : A -> A) (l : list A) :
  (forall x, idOf (f x) = idOf x) ->
  find (fun x => (idOf x =? k)%Z) (map (fun x => if (idOf x =? k)%Z then f x else x) l)
  = option_map f (find (fun x => (idOf x =? k)%Z) l).
Proof.
  intros Hf. induction l as [|x l IH]; cbn; [reflexivity|].
  destruct (idOf x =? k)%Z eqn:E; cbn.
  - rewrite Hf, E. reflexivity.
  - rewrite E. exact IH.
Qed.

Module ManuscriptFacts.
Import Publishing.

Lemma chapterContent_rewritten b i content : chapterContent (rewritten b i content) i = content.
Proof.
  unfold chapterContent, rewritten.
  change (Book.chapters (withChapters b ?c)) with c.
  rewrite array_get_set_same. destruct (array_get (Book.chapters b) i); reflexivity.
Qed.

Lemma selected_after_content w c b i content :
  selectedBook (w, c) = Some b ->
  forall c', selectedBookId c' = selectedBookId c ->
  selectedBook (updateChapterContent (Book.id b) i content w, c')
  = Some (rewritten b i content).
Proof.
  intros Hb c' Hc'. unfold selectedBook in *. cbn [fst snd] in *. rewrite Hc'.
  destruct (selectedBookId c) as [k|]; [|discriminate].
  assert (Hk : Book.id b = k) by (eapply (find_some_id Book.id); exact Hb).
  cbn. rewrite Hk.
  rewrite (find_rewritten Book.id k (fun book => rewritten book i content))
    by reflexivity.
  rewrite Hb. reflexivity.
Qed.

(** The effects that follow a handler which rewrote the chapter shown
    and touched neither the selection, the chapter index nor the tab. *)
Lemma flush_after_content w c b content c1 :
  selectedBook (w, c) = Some b ->
  chapterContent b (activeChapterIndex c) <> content ->
  selectedBookId c1 = selectedBookId c ->
  activeChapterIndex c1 = activeChapterIndex c ->
  activeTab c1 = activeTab c ->
  let w1 := updateChapterContent (Book.id b) (activeChapterIndex c) content w in
  exists c2,
    flushEffects (w, c) (w1, c1) = (w1, c2)
    /\ manuscriptText c2 = content
    /\ isManuscriptDirty c2 = false
    /\ lastManuscriptState c2 = None
    /\ selectedBookId c2 = selectedBookId c
    /\ activeChapterIndex c2 = activeChapterIndex c
    /\ activeTab c2 = activeTab c
    /\ isNavModalOpen c2 = isNavModalOpen c1
    /\ nextNavigationAction c2 = nextNavigationAction c1.
Proof.
  intros Hb Hne Hid Hix Htab w1.
  set (b' := rewritten b (activeChapterIndex c) content).
  assert (S1 : forall c', selectedBookId c' = selectedBookId c ->
                          selectedBook (w1, c') = Some b').
  { intros c' Hc'. apply (selected_after_content w c b _ _ Hb c' Hc'). }
  assert (Hbb : selectedBook (w, c) <> selectedBook (w1, c1)).
  { rewrite Hb, (S1 c1 Hid). intros [= E]. apply Hne.
    rewrite E at 1. apply chapterContent_rewritten. }
  assert (Hsome : exists k, selectedBookId c = Some k).
  { unfold selectedBook in Hb. cbn in Hb. destruct (selectedBookId c); [eauto|discriminate]. }
  destruct Hsome as [k Hk].
  assert (R1 : exists c2,
             renderPass (w, c) (w1, c1) = (w1, c2)
             /\ manuscriptText c2 = content /\ isManuscriptDirty c2 = false
             /\ lastManuscriptState c2 = None
             /\ selectedBookId c2 = selectedBookId c
             /\ activeChapterIndex c2 = activeChapterIndex c
             /\ activeTab c2 = activeTab c
             /\ isNavModalOpen c2 = isNavModalOpen c1
             /\ nextNavigationAction c2 = nextNavigationAction c1).
  { unfold renderPass. rewrite (changed_true _ _ Hbb). cbn [orb fst snd].
    assert (E : forall acc, effectSelectFirst (w1, c1) acc = acc).
    { intros acc. unfold effectSelectFirst. cbn [fst snd]. rewrite Hid, Hk.
      destruct (books _); reflexivity. }
    rewrite E. unfold effectManuscript, effectSyncCollaborators.
    rewrite (S1 c1 Hid). cbn [snd]. rewrite Hix.
    fold b'. unfold b'. rewrite chapterContent_rewritten.
    destruct (_ || _); destruct (bool_decide _); eexists; (split; [reflexivity|]);
      cbn; auto 10. }
  destruct R1 as (c2 & R1 & T & D & L & I & X & A & M & N).
  exists c2. unfold flushEffects. rewrite R1.
  rewrite Publishing_renderPass_quiet; [|reflexivity|cbn; congruence..].
  auto 10.
Qed.

End ManuscriptFacts.

(** X15. The effect on [[selectedBook, activeChapterIndex]] runs after
    every rewrite of the chapter shown. With a book selected, once a
    keystroke or an AI change that alters the chapter has been rendered,
    the store holds the new text, the editor shows it, and the
    manuscript is flagged clean; after the AI change the undo state is
    empty as well, so that [handleUndo] does nothing. *)

Theorem manuscript_effect_resets_flags
    (s : Publishing.St) (b : Book.t) (newText : jsstring) :
  Publishing.selectedBook s = Some b ->
  Publishing.chapterContent b (Publishing.activeChapterIndex (snd s)) <> newText ->
  (let s' := Publishing.after (Publishing.handleManuscriptChange newText) s in
   option_map (fun b' => Publishing.chapterContent b' (Publishing.activeChapterIndex (snd s)))
     (Publishing.selectedBook s') = Some newText
   /\ Publishing.manuscriptText (snd s') = newText
   /\ Publishing.isManuscriptDirty (snd s') = false)
  /\ (let s' := Publishing.after (PublishingStudio.applyAiChange newText) s in
      option_map (fun b' => Publishing.chapterContent b' (Publishing.activeChapterIndex (snd s)))
        (Publishing.selectedBook s') = Some newText
      /\ Publishing.manuscriptText (snd s') = newText
      /\ Publishing.isManuscriptDirty (snd s') = false
      /\ Publishing.lastManuscriptState (snd s') = None
      /\ PublishingStudio.handleUndo s' = s').
Proof.
  intros Hb Hne. destruct s as [w c]. cbn [fst snd] in *. split; cbn zeta.
  - unfold Publishing.after, Publishing.handleManuscriptChange. rewrite Hb. cbn [fst snd].
    destruct (ManuscriptFacts.flush_after_content w c b newText
                (Publishing.setManuscriptDirty true (Publishing.setManuscriptText newText c))
                Hb Hne eq_refl eq_refl eq_refl)
      as (c2 & -> & T & D & L & I & X & A & M & N).
    rewrite (ManuscriptFacts.selected_after_content w c b _ _ Hb c2 I).
    cbn. rewrite ManuscriptFacts.chapterContent_rewritten. auto.
  - unfold Publishing.after, PublishingStudio.applyAiChange. rewrite Hb. cbn [fst snd].
    destruct (ManuscriptFacts.flush_after_content w c b newText
                (Publishing.setManuscriptDirty true
                   (Publishing.setManuscriptText newText
                      (Publishing.setLastManuscriptState
                         (Some (Publishing.manuscriptText c)) c)))
                Hb Hne eq_refl eq_refl eq_refl)
      as (c2 & -> & T & D & L & I & X & A & M & N).
    rewrite (ManuscriptFacts.selected_after_content w c b _ _ Hb c2 I).
    cbn [option_map]. rewrite ManuscriptFacts.chapterContent_rewritten.
    repeat split; auto.
    unfold PublishingStudio.handleUndo. cbn [snd].
    rewrite (ManuscriptFacts.selected_after_content w c b _ _ Hb c2 I), L. reflexivity.
Qed.

Lemma manuscript_effect_witness :
  Publishing.isManuscriptDirty
    (snd (Publishing.after (Publishing.handleManuscriptChange (js "It rained. H"))
            (Publishing.mount sample_world))) = false
  /\ Publishing.lastManuscriptState
       (snd (Publishing.after (PublishingStudio.applyAiChange (js "It rained. H"))
               (Publishing.mount sample_world))) = None.
Proof.
  destruct (manuscript_effect_resets_flags (Publishing.mount sample_world) sample_book
              (js "It rained. H")) as [(_ & _ & H1) (_ & _ & _ & H2 & _)].
  - vm_compute. reflexivity.
  - vm_compute. discriminate.
  - split; [exact H1|exact H2].
Defined.

(** ** The rights of a book *)

Module RightsFacts.
Import Publishing PublishingStudio.

Lemma flipped_twice b key : flipped (flipped b key) key = b.
Proof. destruct b as [? ? ? ? ? [[] [] [] [] []] ? ? ? ? ? ?], key; reflexivity. Qed.

Lemma flipped_differs b key : flipped b key <> b.
Proof.
  intros E. apply (f_equal (fun x => getRight (Book.rights x) key)) in E.
  destruct b as [? ? ? ? ? [[] [] [] [] []] ? ? ? ? ? ?], key; discriminate.
Qed.

(** The effects that follow a handler which replaced the selected book
    by [b'] and touched neither the selection, the chapter index nor
    the tab. *)
Lemma flush_after_rewrite w c w1 c1 b b' :
  selectedBook (w, c) = Some b ->
  (forall c', selectedBookId c' = selectedBookId c -> selectedBook (w1, c') = Some b') ->
  b' <> b ->
  selectedBookId c1 = selectedBookId c ->
  activeChapterIndex c1 = activeChapterIndex c ->
  activeTab c1 = activeTab c ->
  flushEffects (w, c) (w1, c1) =
    (w1,
     let c2 := setManuscriptDirty false
                 (setManuscriptText (chapterContent b' (activeChapterIndex c))
                    (setLastManuscriptState None c1)) in
     if bool_decide (activeTab c = tab_rights_splits)
     then setCollaborators (Book.splits b') c2 else c2).
Proof.
  intros Hb S1 Hne Hid Hix Htab.
  assert (Hbb : selectedBook (w, c) <> selectedBook (w1, c1)).
  { rewrite Hb, (S1 c1 Hid). congruence. }
  assert (Hsome : exists k, selectedBookId c = Some k).
  { unfold selectedBook in Hb. cbn in Hb. destruct (selectedBookId c); [eauto|discriminate]. }
  destruct Hsome as [k Hk].
  assert (R1 : renderPass (w, c) (w1, c1) =
               (w1,
                let c2 := setManuscriptDirty false
                            (setManuscriptText (chapterContent b' (activeChapterIndex c))
                               (setLastManuscriptState None c1)) in
                if bool_decide (activeTab c = tab_rights_splits)
                then setCollaborators (Book.splits b') c2 else c2)).
  { unfold renderPass. rewrite (changed_true _ _ Hbb). cbn [orb fst snd].
    assert (E : forall acc, effectSelectFirst (w1, c1) acc = acc).
    { intros acc. unfold effectSelectFirst. cbn [fst snd]. rewrite Hid, Hk.
      destruct (books _); reflexivity. }
    rewrite E. unfold effectManuscript, effectSyncCollaborators.
    rewrite (S1 c1 Hid). cbn [snd]. rewrite Hix, Htab.
    destruct (_ || _); reflexivity. }
  unfold flushEffects. rewrite R1.
  apply Publishing_renderPass_quiet; [reflexivity|cbn zeta..];
    destruct (bool_decide _); cbn; congruence.
Qed.

Lemma selected_after_toggle w c b key :
  selectedBook (w, c) = Some b ->
  forall c', selectedBookId c' = selectedBookId c ->
  selectedBook
    (updateBook (Book.id b)
       (rightsOnly (setRight (Book.rights b) key (negb (getRight (Book.rights b) key)))) w,
     c')
  = Some (flipped b key).
Proof.
  intros Hb c' Hc'. unfold selectedBook in *. cbn [fst snd] in *. rewrite Hc'.
  destruct (selectedBookId c) as [k|]; [|discriminate].
  assert (Hk : Book.id b = k) by (eapply (find_some_id Book.id); exact Hb).
  cbn. rewrite Hk.
  rewrite PublishingFacts.find_updated_book by reflexivity.
  rewrite Hb. reflexivity.
Qed.

Lemma toggle_step w c b key :
  selectedBook (w, c) = Some b ->
  exists c2,
    Publishing.after (handleToggleRight key) (w, c)
    = (updateBook (Book.id b)
         (rightsOnly (setRight (Book.rights b) key (negb (getRight (Book.rights b) key)))) w,
       c2)
    /\ selectedBookId c2 = selectedBookId c
    /\ activeTab c2 = activeTab c
    /\ activeChapterIndex c2 = activeChapterIndex c
    /\ (activeTab c = tab_rights_splits -> collaborators c2 = Book.splits b)
    /\ manuscriptText c2 = chapterContent b (activeChapterIndex c).
Proof.
  intros Hb. unfold Publishing.after, handleToggleRight. rewrite Hb. cbn [fst snd].
  rewrite (flush_after_rewrite w c _ c b (flipped b key) Hb
             (selected_after_toggle w c b key Hb) (flipped_differs b key)
             eq_refl eq_refl eq_refl).
  eexists. split; [reflexivity|]. cbn zeta.
  destruct (decide (activeTab c = tab_rights_splits)) as [E|E].
  - rewrite bool_decide_eq_true_2 by exact E. cbn.
    repeat split; auto; destruct b; reflexivity.
  - rewrite bool_decide_eq_false_2 by exact E. cbn.
    repeat split; auto; try contradiction; destruct b; reflexivity.
Qed.

End RightsFacts.

(** X16. Toggling a right of the selected book flips that right in the
    store and no other field of the book; toggling it again restores the
    book as it was; each toggle is saved. On the rights tab each toggle
    also reloads the collaborator buffer from the saved splits, the
    selected book having been replaced. *)

Theorem toggling_a_right_twice_restores_it
    (s : Publishing.St) (b : Book.t) (key : PublishingStudio.RightKey) :
  Publishing.selectedBook s = Some b ->
  let s1 := Publishing.after (PublishingStudio.handleToggleRight key) s in
  let s2 := Publishing.after (PublishingStudio.handleToggleRight key) s1 in
  (exists b1,
     Publishing.selectedBook s1 = Some b1
     /\ PublishingStudio.getRight (Book.rights b1) key
        = negb (PublishingStudio.getRight (Book.rights b) key)
     /\ (forall key', key' <> key ->
           PublishingStudio.getRight (Book.rights b1) key'
           = PublishingStudio.getRight (Book.rights b) key')
     /\ withData b1 (PublishingStudio.rightsOnly (Book.rights b)) = b)
  /\ Publishing.selectedBook s2 = Some b
  /\ (Publishing.activeTab (snd s) = Publishing.tab_rights_splits ->
      Publishing.collaborators (snd s1) = Book.splits b)
  /\ length (saveCalls (fst s2)) = S (S (length (saveCalls (fst s)))).
Proof.
  intros Hb. cbn zeta. destruct s as [w c]. cbn [fst snd] in *.
  destruct (RightsFacts.toggle_step w c b key Hb) as (c2 & E1 & I1 & T1 & X1 & B1 & M1).
  rewrite E1. cbn [fst snd].
  set (w1 := updateBook _ _ w) in *.
  assert (Hb1 : Publishing.selectedBook (w1, c2) = Some (flipped b key)).
  { apply (RightsFacts.selected_after_toggle w c b key Hb c2 I1). }
  destruct (RightsFacts.toggle_step w1 c2 _ key Hb1) as (c3 & E2 & I2 & T2 & X2 & B2 & M2).
  rewrite E2. cbn [fst snd].
  split; [|split; [|split]].
  - exists (flipped b key). split; [exact Hb1|].
    split; [|split].
    + destruct b as [? ? ? ? ? [] ? ? ? ? ? ?], key; reflexivity.
    + intros key' Hk. destruct b as [? ? ? ? ? [] ? ? ? ? ? ?], key, key';
        try reflexivity; contradiction.
    + destruct b as [? ? ? ? ? [] ? ? ? ? ? ?], key; reflexivity.
  - rewrite (RightsFacts.selected_after_toggle w1 c2 _ key Hb1 c3 I2).
    rewrite RightsFacts.flipped_twice. reflexivity.
  - exact B1.
  - unfold w1. cbn. rewrite !length_app. cbn. lia.
Qed.

Lemma toggling_a_right_witness :
  Publishing.selectedBook
    (Publishing.after (PublishingStudio.handleToggleRight PublishingStudio.k_audio)
       (Publishing.after (PublishingStudio.handleToggleRight PublishingStudio.k_audio)
          pub_rights))
  = Some sample_book.
Proof.
  destruct (toggling_a_right_twice_restores_it pub_rights sample_book
              PublishingStudio.k_audio) as (_ & H & _).
  - vm_compute. reflexivity.
  - exact H.
Defined.

(** ** Saving the splits *)


(** X17. The Save Splits button, in both views, with an entity
    selected: the selected entity's splits become the buffer less its
    blank rows, so the store never receives a blank row from the editor;
    the buffer is set to the same list; and once rendered the splits
    check reports clean. *)



(** ** Loading a text file *)

Module UploadFacts.
Import Publishing.

(** The effects that follow a handler which moved to another chapter of
    the same book and touched nothing else the effects depend on. *)
Lemma flush_after_index p c b :
  books (publishing (state (fst p))) = books (publishing (state (fst c))) ->
  selectedBookId (snd p) = selectedBookId (snd c) ->
  activeTab (snd p) = activeTab (snd c) ->
  activeChapterIndex (snd p) <> activeChapterIndex (snd c) ->
  selectedBook c = Some b ->
  flushEffects p c =
    (fst c,
     setManuscriptDirty false
       (setManuscriptText (chapterContent b (activeChapterIndex (snd c)))
          (setLastManuscriptState None (snd c)))).
Proof.
  intros H1 H2 H3 H4 Hb.
  assert (H5 : selectedBook p = selectedBook c).
  { unfold selectedBook. rewrite H1, H2. reflexivity. }
  unfold flushEffects.
  assert (R : renderPass p c =
              (fst c,
               setManuscriptDirty false
                 (setManuscriptText (chapterContent b (activeChapterIndex (snd c)))
                    (setLastManuscriptState None (snd c))))).
  { unfold renderPass. rewrite H1, H2, H3, H5, !changed_refl.
    rewrite (changed_true _ _ H4). cbn [orb].
    unfold effectManuscript. rewrite Hb. reflexivity. }
  rewrite R. apply Publishing_renderPass_quiet; reflexivity.
Qed.

End UploadFacts.

(** X20. Loading a text file into the selected book. The book's
    chapters are replaced by one chapter, titled "Chapter 1 (from TXT)",
    that holds the text, whatever chapters it had; the change is saved;
    chapter 0 is shown with the text and the undo state is empty. The
    manuscript ends flagged dirty exactly when chapter 0 was already the
    one shown: otherwise the move to chapter 0 runs the effect on
    [[selectedBook, activeChapterIndex]], which flags it clean. *)
Theorem upload_replaces_the_chapters (s : Publishing.St) (b : Book.t) (text : jsstring) :
  Publishing.selectedBook s = Some b ->
  let s' := Publishing.after (Publishing.uploadResume text)
              (Publishing.after (Publishing.uploadStart b text) s) in
  Publishing.selectedBook s' =
    Some (withData b (chaptersOnly
                        [Some (BookChapter.mk (Some (js "Chapter 1 (from TXT)")) text)]))
  /\ Publishing.activeChapterIndex (snd s') = 0%nat
  /\ Publishing.manuscriptText (snd s') = text
  /\ Publishing.lastManuscriptState (snd s') = None
  /\ Publishing.isManuscriptDirty (snd s')
     = bool_decide (Publishing.activeChapterIndex (snd s) = 0%nat)
  /\ Publishing.activeTab (snd s') = Publishing.activeTab (snd s)
  /\ length (saveCalls (fst s')) = S (length (saveCalls (fst s))).
Proof.
  intros Hb. destruct s as [w c]. cbn [fst snd] in *. cbn zeta.
  set (single := [Some (BookChapter.mk (Some (js "Chapter 1 (from TXT)")) text)]).
  set (b' := withData b (chaptersOnly single)).
  assert (Hk : exists k, Publishing.selectedBookId c = Some k /\ Book.id b = k).
  { unfold Publishing.selectedBook in Hb. cbn in Hb.
    destruct (Publishing.selectedBookId c) as [k|]; [|discriminate].
    exists k. split; [reflexivity|]. eapply (find_some_id Book.id); exact Hb. }
  destruct Hk as (k & Hk & Hid).
  set (w1 := updateBook (Book.id b) (chaptersOnly single) w).
  assert (S1 : forall w2 c', books (publishing (state w2)) = books (publishing (state w1)) ->
                 Publishing.selectedBookId c' = Publishing.selectedBookId c ->
                 Publishing.selectedBook (w2, c') = Some b').
  { intros w2 c' Hw Hc'. unfold Publishing.selectedBook in *. cbn [fst snd] in *.
    rewrite Hw, Hc', Hk in *. unfold w1. cbn. rewrite Hid.
    rewrite PublishingFacts.find_updated_book by reflexivity. rewrite Hb. reflexivity. }
  (* the first half *)
  assert (F1 : exists c1,
             Publishing.after (Publishing.uploadStart b text) (w, c) = (w1, c1)
             /\ Publishing.selectedBookId c1 = Publishing.selectedBookId c
             /\ Publishing.activeChapterIndex c1 = Publishing.activeChapterIndex c
             /\ Publishing.activeTab c1 = Publishing.activeTab c).
  { unfold Publishing.after, Publishing.uploadStart. cbn [fst snd]. fold single. fold w1.
    destruct (decide (b' = b)) as [E|E].
    - exists c. split; [|auto].
      apply (Publishing_flush_same_book (w, c) (w1, c) k); try reflexivity; [exact Hk|].
      rewrite Hb, (S1 w1 c eq_refl eq_refl), E. reflexivity.
    - rewrite (RightsFacts.flush_after_rewrite w c w1 c b b' Hb (fun c' => S1 w1 c' eq_refl) E
                 eq_refl eq_refl eq_refl).
      eexists. split; [reflexivity|]. cbn zeta.
      destruct (bool_decide _); cbn; auto. }
  destruct F1 as (c1 & -> & I1 & X1 & T1).
  unfold Publishing.after, Publishing.uploadResume. cbn [fst snd].
  set (w2 := addToast Publishing.msg_uploaded success w1).
  set (c2 := Publishing.setManuscriptDirty true _).
  assert (Hb2 : Publishing.selectedBook (w2, c2) = Some b').
  { apply S1; [reflexivity|exact I1]. }
  destruct (decide (Publishing.activeChapterIndex c = 0%nat)) as [E0|E0].
  - rewrite bool_decide_eq_true_2 by exact E0.
    rewrite Publishing_flush_quiet; try reflexivity.
    + rewrite Hb2. unfold w2, w1. cbn. rewrite length_app. cbn.
      repeat split; auto; lia.
    + cbn. congruence.
  - rewrite bool_decide_eq_false_2 by exact E0.
    rewrite (UploadFacts.flush_after_index (w1, c1) (w2, c2) b'); try reflexivity.
    + cbn [fst snd].
      rewrite S1 by (reflexivity || exact I1). unfold w2, w1. cbn. rewrite length_app. cbn.
      repeat split; auto; lia.
    + cbn. congruence.
    + exact Hb2.
Qed.

Lemma upload_witness :
  Publishing.isManuscriptDirty (snd pub_uploaded) = true
  /\ Publishing.isManuscriptDirty
       (snd (Publishing.after (Publishing.uploadResume (js "It rained all night."))
               (Publishing.after
                  (Publishing.uploadStart sample_book (js "It rained all night."))
                  (Publishing.after (Publishing.handleChapterChange 1)
                     (Publishing.mount sample_world))))) = false.
Proof.
  split.
  - destruct (upload_replaces_the_chapters (Publishing.mount sample_world) sample_book
                (js "It rained all night.")) as (_ & _ & _ & _ & H & _).
    + vm_compute. reflexivity.
    + exact H.
  - destruct (upload_replaces_the_chapters
                (Publishing.after (Publishing.handleChapterChange 1)
                   (Publishing.mount sample_world))
                sample_book (js "It rained all night.")) as (_ & _ & _ & _ & H & _).
    + vm_compute. reflexivity.
    + exact H.
Defined.

(** ** Submitting a release *)

Lemma Music_effectSync_off p acc :
  Music.activeTab (snd p) <> Music.tab_splits -> Music.effectSyncCollaborators p acc = acc.
Proof.
  intros H. unfold Music.effectSyncCollaborators.
  destruct (Music.selectedRelease p); [|reflexivity].
  rewrite bool_decide_eq_false_2 by exact H. reflexivity.
Qed.

(** Away from the splits tab the effects can only select the first
    release. *)
Lemma Music_flush_off_splits p c :
  Music.activeTab (snd c) <> Music.tab_splits ->
  Music.flushEffects p c =
    (fst c,
     if changed (releases (music (state (fst p)))) (releases (music (state (fst c))))
        || changed (Music.selectedReleaseId (snd p)) (Music.selectedReleaseId (snd c))
     then Music.effectSelectFirst c (snd c) else snd c).
Proof.
  intros H. unfold Music.flushEffects.
  assert (R : forall p c : Music.St, Music.activeTab (snd c) <> Music.tab_splits ->
              Music.renderPass p c =
              (fst c,
               if changed (releases (music (state (fst p)))) (releases (music (state (fst c))))
                  || changed (Music.selectedReleaseId (snd p)) (Music.selectedReleaseId (snd c))
               then Music.effectSelectFirst c (snd c) else snd c)).
  { clear. intros p c H. unfold Music.renderPass.
    destruct (changed (Music.selectedRelease p) _ || _);
      rewrite ?Music_effectSync_off by exact H; reflexivity. }
  rewrite (R p c H).
  remember (changed (releases (music (state (fst p)))) (releases (music (state (fst c))))
            || changed (Music.selectedReleaseId (snd p)) (Music.selectedReleaseId (snd c)))
    as b0 eqn:Hb0. clear Hb0.
  set (c1 := if b0 then Music.effectSelectFirst c (snd c) else snd c).
  assert (T : Music.activeTab c1 = Music.activeTab (snd c)).
  { unfold c1, Music.effectSelectFirst.
    destruct b0; [|reflexivity].
    destruct (releases _); [reflexivity|]. destruct (Music.selectedReleaseId _); reflexivity. }
  rewrite R by (cbn [snd]; rewrite T; exact H). cbn [fst snd].
  rewrite changed_refl. cbn [orb]. f_equal.
  destruct (changed (Music.selectedReleaseId (snd c)) (Music.selectedReleaseId c1)) eqn:E;
    [|reflexivity].
  unfold Music.effectSelectFirst at 1. cbn [fst snd].
  destruct (releases (music (state (fst c)))) as [|r l] eqn:El; [reflexivity|].
  destruct (Music.selectedReleaseId c1) eqn:E1; [reflexivity|].
  exfalso. unfold c1 in E1, E. clear T c1.
  destruct b0.
  - unfold Music.effectSelectFirst in E1. rewrite El in E1.
    destruct (Music.selectedReleaseId (snd c)) eqn:E2; [|discriminate].
    rewrite E2 in E1. discriminate.
  - rewrite E1, changed_refl in E. discriminate.
Qed.

Lemma Music_effectSelectFirst_cells c acc :
  Music.activeTab (Music.effectSelectFirst c acc) = Music.activeTab acc
  /\ Music.collaborators (Music.effectSelectFirst c acc) = Music.collaborators acc
  /\ Music.isNavModalOpen (Music.effectSelectFirst c acc) = Music.isNavModalOpen acc
  /\ Music.nextNavigationAction (Music.effectSelectFirst c acc)
     = Music.nextNavigationAction acc
  /\ Music.selectedReleaseId (Music.effectSelectFirst c acc) =
       match releases (music (state (fst c))), Music.selectedReleaseId (snd c) with
       | r :: _, None => Some (Release.id r)
       | _, _ => Music.selectedReleaseId acc
       end.
Proof.
  unfold Music.effectSelectFirst.
  destruct (releases _); [auto 10|]. destruct (Music.selectedReleaseId (snd c)); auto 10.
Qed.

(** X18. Submitting the studio form. With the title, the artist or the
    genre empty, the only effect is an error toast: no release, no save,
    the form keeps its content. Otherwise one release is appended, with
    the clock reading as identifier, status Submitted, and one split
    row, a new row object giving the artist 100; no row that existed is
    touched; one save is issued; the form is cleared; the releases tab
    is shown; and when no release was selected the effect selects the
    first release of the list. *)

Theorem submit_release_appends_it (s : MusicStudio.St) :
  let w := fst (fst s) in
  let c := snd (fst s) in
  let f := snd s in
  let s' := MusicStudio.after MusicStudio.handleSubmitRelease s in
  if str_eqb (MusicStudio.title f) [] || str_eqb (MusicStudio.artist f) []
     || str_eqb (MusicStudio.genre f) []
  then
    fst (fst s') = addToast MusicStudio.msg_fill_in error w
    /\ snd (fst s') = c /\ snd s' = f
  else
    releases (music (state (fst (fst s')))) =
      releases (music (state w)) ++
      [Release.mk (now w) (MusicStudio.title f) (MusicStudio.artist f) Submitted
         (Some (MusicStudio.genre f)) None [length (objects w)]]
    /\ rows (objects (fst (fst s'))) [length (objects w)]
       = [Collaborator.mk (MusicStudio.artist f) (js "100")]
    /\ (forall r, (r < length (objects w))%nat ->
          deref (objects (fst (fst s'))) r = deref (objects w) r)
    /\ Music.activeTab (snd (fst s')) = Music.tab_releases
    /\ Music.selectedReleaseId (snd (fst s')) =
         match Music.selectedReleaseId c, releases (music (state w)) with
         | Some k, _ => Some k
         | None, r :: _ => Some (Release.id r)
         | None, [] => Some (now w)
         end
    /\ Music.collaborators (snd (fst s')) = Music.collaborators c
    /\ length (saveCalls (fst (fst s'))) = S (length (saveCalls w))
    /\ snd s' = {| MusicStudio.artist := []; MusicStudio.title := []; MusicStudio.genre := [];
                   MusicStudio.mood := []; MusicStudio.tags := [];
                   MusicStudio.generatedCoverArt := [] |}.
Proof.
  destruct s as [[w c] f]. cbn zeta. cbn [fst snd].
  unfold MusicStudio.after.
  destruct (str_eqb (MusicStudio.title f) [] || str_eqb (MusicStudio.artist f) []
            || str_eqb (MusicStudio.genre f) []) eqn:E.
  - unfold MusicStudio.handleSubmitRelease. cbn [fst snd]. rewrite E. cbn [fst snd].
    rewrite Music_flush_quiet by reflexivity. auto.
  - set (new := Release.mk (now w) (MusicStudio.title f) (MusicStudio.artist f) Submitted
                  (Some (MusicStudio.genre f)) None [length (objects w)]).
    set (sh := MusicStudio.handleSubmitRelease _).
    assert (Hsh : releases (music (state (fst (fst sh)))) = releases (music (state w)) ++ [new]
                  /\ objects (fst (fst sh))
                     = objects w ++ [Collaborator.mk (MusicStudio.artist f) (js "100")]
                  /\ Music.activeTab (snd (fst sh)) = Music.tab_releases
                  /\ Music.selectedReleaseId (snd (fst sh)) = Music.selectedReleaseId c
                  /\ Music.collaborators (snd (fst sh)) = Music.collaborators c
                  /\ saveCalls (fst (fst sh))
                     = saveCalls w ++
                       [(now w, {| s_music := music (state (fst (fst sh)));
                                   s_publishing := publishing (state w);
                                   s_onboardingComplete :=
                                     onboardingComplete (onboarding (state w)) |})]
                  /\ snd sh = {| MusicStudio.artist := []; MusicStudio.title := [];
                                 MusicStudio.genre := []; MusicStudio.mood := [];
                                 MusicStudio.tags := [];
                                 MusicStudio.generatedCoverArt := [] |}).
    { unfold sh, MusicStudio.handleSubmitRelease. cbn [fst snd]. rewrite E.
      repeat split. }
    destruct Hsh as (Hr & Ho & Ht & Hi & Hco & Hsv & Hf). clearbody sh.
    assert (Hoff : Music.activeTab (snd (fst sh)) <> Music.tab_splits)
      by (rewrite Ht; discriminate).
    cbn [fst snd].
    rewrite (Music_flush_off_splits (w, c) (fst sh) Hoff).
    cbn [fst snd]. rewrite Hr, Ho, Hsv, Hf.
    rewrite (changed_true (releases (music (state w)))).
    2:{ intros H. apply (f_equal (@length _)) in H.
        rewrite length_app in H. cbn in H. lia. }
    cbn [orb].
    destruct (Music_effectSelectFirst_cells (fst sh) (snd (fst sh)))
      as (A1 & A2 & _ & _ & A5).
    rewrite Ht in A1. rewrite Hco in A2. rewrite Hr, Hi in A5.
    rewrite ?A1, ?A2, ?A5.
    split; [reflexivity|]. split.
    { unfold rows, deref. cbn [map].
      rewrite list_lookup_middle by reflexivity. reflexivity. }
    split.
    { intros r Hlt. unfold deref. rewrite lookup_app_l by exact Hlt. reflexivity. }
    split; [reflexivity|]. split.
    { destruct (releases (music (state w))) as [|r l], (Music.selectedReleaseId c);
        reflexivity. }
    split; [reflexivity|]. split; [|reflexivity].
    rewrite length_app. cbn. lia.
Qed.

(** ** Mounting a view, opening the splits *)

(** X21. What a view holds once mounted, with no tab override set. The
    music view has its first release selected, if there is one, and
    every other cell at its initial value (studio tab, empty buffer, no
    prompt); the publishing view has its first book selected and shows
    the content of the book's chapter 0 (nothing when the chapter is
    missing), flagged clean, on the studio tab. On an empty collection
    either view keeps its initial cells. *)
Theorem mount_selects_the_first :
  (forall w,
     Music.mount w =
       (w, match releases (music (state w)) with
           | r :: _ => Music.setSelectedReleaseId (Some (Release.id r)) Music.initialLocal
           | [] => Music.initialLocal
           end))
  /\ (forall w,
        Publishing.mount w =
          (w, match books (publishing (state w)) with
              | b :: _ =>
                  Publishing.setManuscriptText (Publishing.chapterContent b 0)
                    (Publishing.setSelectedBookId (Some (Book.id b))
                       Publishing.initialLocal)
              | [] => Publishing.initialLocal
              end)).
Proof.
  split.
  - intros w. unfold Music.mount.
    destruct (releases (music (state w))) as [|r l] eqn:E.
    + replace (Music.effectSyncCollaborators (w, Music.initialLocal) _)
        with Music.initialLocal.
      2:{ unfold Music.effectSelectFirst. cbn [fst snd]. rewrite E. reflexivity. }
      apply Music_flush_quiet; reflexivity.
    + replace (Music.effectSyncCollaborators (w, Music.initialLocal) _)
        with (Music.setSelectedReleaseId (Some (Release.id r)) Music.initialLocal).
      2:{ unfold Music.effectSelectFirst. cbn [fst snd]. rewrite E. reflexivity. }
      rewrite Music_flush_off_splits by (cbn; discriminate).
      cbn [fst snd]. rewrite changed_refl. cbn [orb].
      rewrite changed_true by discriminate.
      unfold Music.effectSelectFirst. cbn [fst snd]. rewrite E. reflexivity.
  - intros w. unfold Publishing.mount.
    destruct (books (publishing (state w))) as [|b l] eqn:E.
    + replace (Publishing.effectSyncCollaborators (w, Publishing.initialLocal) _)
        with Publishing.initialLocal.
      2:{ unfold Publishing.effectSelectFirst. cbn [fst snd]. rewrite E. reflexivity. }
      apply Publishing_flush_quiet; reflexivity.
    + set (c1 := Publishing.setSelectedBookId (Some (Book.id b)) Publishing.initialLocal).
      replace (Publishing.effectSyncCollaborators (w, Publishing.initialLocal) _)
        with c1.
      2:{ unfold Publishing.effectSelectFirst. cbn [fst snd]. rewrite E. reflexivity. }
      assert (Hb : Publishing.selectedBook (w, c1) = Some b).
      { unfold Publishing.selectedBook. cbn [fst snd]. unfold c1. cbn. rewrite E. cbn.
        rewrite Z.eqb_refl. reflexivity. }
      unfold Publishing.flushEffects.
      assert (R : Publishing.renderPass (w, Publishing.initialLocal) (w, c1)
                  = (w, Publishing.setManuscriptText (Publishing.chapterContent b 0) c1)).
      { unfold Publishing.renderPass. cbn [fst snd]. rewrite Hb.
        rewrite (changed_true (Publishing.selectedBook (w, Publishing.initialLocal)))
          by discriminate.
        rewrite changed_refl. cbn [orb].
        rewrite (changed_true (Publishing.selectedBookId Publishing.initialLocal))
          by discriminate.
        cbn [orb]. unfold Publishing.effectSelectFirst, Publishing.effectManuscript,
          Publishing.effectSyncCollaborators. cbn [fst snd]. rewrite E, Hb.
        rewrite changed_refl. cbn [orb].
        rewrite (bool_decide_eq_false_2
                   (Publishing.activeTab c1 = Publishing.tab_rights_splits))
          by discriminate.
        reflexivity. }
      rewrite R. apply Publishing_renderPass_quiet; reflexivity.
Qed.

(** X22. Opening the splits tab. In the music view with a release
    selected, and in the publishing view with a book selected and
    nothing unsaved, moving to the splits tab (the rights tab) leaves
    the store alone and loads the saved splits into the buffer; the
    check then reports dirty exactly when the saved list holds a blank
    row. *)
Theorem opening_the_splits_tab_loads_the_saved_splits :
  (forall s r,
     Music.selectedRelease s = Some r ->
     Music.activeTab (snd s) <> Music.tab_splits ->
     let s' :=
       Music.after (Music.handleNavigate (Music.NavSetActiveTab Music.tab_splits)) s in
     fst s' = fst s
     /\ Music.activeTab (snd s') = Music.tab_splits
     /\ Music.collaborators (snd s') = Release.splits r
     /\ Music.isDirtyAt s' = negb (noBlankRow (rows (objects (fst s)) (Release.splits r))))
  /\ (forall s b,
        Publishing.selectedBook s = Some b ->
        Publishing.activeTab (snd s) <> Publishing.tab_rights_splits ->
        Publishing.isDirtyAt s = false ->
        let s' :=
          Publishing.after
            (Publishing.handleNavigate
               (Publishing.NavSetActiveTab Publishing.tab_rights_splits)) s in
        fst s' = fst s
        /\ Publishing.activeTab (snd s') = Publishing.tab_rights_splits
        /\ Publishing.collaborators (snd s') = Book.splits b
        /\ Publishing.isDirtyAt s'
           = negb (noBlankRow (rows (objects (fst s)) (Book.splits b)))).
Proof.
  assert (D : forall h S, splitsDiffer h S S = negb (noBlankRow (rows h S))).
  { intros h S. destruct (noBlankRow (rows h S)) eqn:E.
    - apply splitsDiffer_same. exact E.
    - cbn. destruct (splitsDiffer h S S) eqn:D; [reflexivity|].
      apply splitsDiffer_false, normalize_noBlank in D. congruence. }
  split.
  - intros [w c] r Hr Htab. cbn [fst snd] in *. cbn zeta.
    assert (Hclean : Music.isDirtyAt (w, c) = false).
    { unfold Music.isDirtyAt, Music.isDirty. rewrite Hr. cbn [snd].
      rewrite bool_decide_eq_false_2 by exact Htab. reflexivity. }
    unfold Music.after, Music.handleNavigate. rewrite Hclean.
    cbn [Music.runAction fst snd].
    set (c1 := Music.setActiveTab Music.tab_splits c).
    assert (Hr1 : Music.selectedRelease (w, c1) = Some r) by exact Hr.
    assert (R : Music.renderPass (w, c) (w, c1)
                = (w, Music.setCollaborators (Release.splits r) c1)).
    { unfold Music.renderPass. cbn [fst snd]. rewrite Hr, Hr1, !changed_refl.
      change (Music.selectedReleaseId c1) with (Music.selectedReleaseId c).
      rewrite ?changed_refl. cbn [orb].
      rewrite (changed_true (Music.activeTab c)) by exact Htab.
      unfold Music.effectSyncCollaborators. rewrite Hr1. reflexivity. }
    unfold Music.flushEffects. rewrite R.
    rewrite Music_renderPass_quiet by reflexivity. cbn [fst snd].
    split; [reflexivity|]. split; [reflexivity|]. split; [reflexivity|].
    unfold Music.isDirtyAt, Music.isDirty.
    replace (Music.selectedRelease (w, Music.setCollaborators (Release.splits r) c1))
      with (Some r) by (symmetry; exact Hr).
    cbn [fst snd]. unfold c1. cbn [Music.activeTab Music.setActiveTab
                                   Music.setCollaborators Music.collaborators].
    rewrite bool_decide_eq_true_2 by reflexivity. cbn [negb]. apply D.
  - intros [w c] b Hb Htab Hclean. cbn [fst snd] in *. cbn zeta.
    unfold Publishing.after, Publishing.handleNavigate. rewrite Hclean.
    cbn [Publishing.runAction fst snd].
    set (c1 := Publishing.setActiveTab Publishing.tab_rights_splits c).
    assert (Hb1 : Publishing.selectedBook (w, c1) = Some b) by exact Hb.
    assert (R : Publishing.renderPass (w, c) (w, c1)
                = (w, Publishing.setCollaborators (Book.splits b) c1)).
    { unfold Publishing.renderPass. cbn [fst snd]. rewrite Hb, Hb1, !changed_refl.
      change (Publishing.selectedBookId c1) with (Publishing.selectedBookId c).
      change (Publishing.activeChapterIndex c1) with (Publishing.activeChapterIndex c).
      rewrite ?changed_refl. cbn [orb].
      rewrite (changed_true (Publishing.activeTab c)) by exact Htab.
      unfold Publishing.effectSyncCollaborators. rewrite Hb1. reflexivity. }
    unfold Publishing.flushEffects. rewrite R.
    rewrite Publishing_renderPass_quiet by reflexivity. cbn [fst snd].
    split; [reflexivity|]. split; [reflexivity|]. split; [reflexivity|].
    unfold Publishing.isDirtyAt, Publishing.isDirty, Publishing.areSplitsDirtyAt,
      Publishing.areSplitsDirty.
    replace (Publishing.selectedBook (w, Publishing.setCollaborators (Book.splits b) c1))
      with (Some b) by (symmetry; exact Hb).
    cbn [fst snd]. unfold c1.
    cbn [Publishing.activeTab Publishing.setActiveTab Publishing.setCollaborators
         Publishing.collaborators].
    rewrite (bool_decide_eq_false_2
               (Publishing.tab_rights_splits = Publishing.tab_studio)) by discriminate.
    rewrite !bool_decide_eq_true_2 by reflexivity. cbn [negb]. apply D.
Qed.

Lemma opening_the_splits_tab_witness :
  Music.isDirtyAt sample_splits_tab = false
  /\ Music.isDirtyAt blank_splits_tab = true.
Proof.
  split.
  - destruct (proj1 opening_the_splits_tab_loads_the_saved_splits
                (Music.mount sample_world) sample_release) as (_ & _ & _ & H).
    + vm_compute. reflexivity.
    + vm_compute. discriminate.
    + exact H.
  - destruct (proj1 opening_the_splits_tab_loads_the_saved_splits
                (Music.mount blank_world) blank_release) as (_ & _ & _ & H).
    + vm_compute. reflexivity.
    + vm_compute. discriminate.
    + exact H.
Defined.

(** ** The backend *)

Module BackendFacts.
Import Backend.

Lemma groupStep_lookup {Row A} (keyOf : Row -> Z) (item : Row -> A) acc row k :
  groupStep keyOf item acc row !! k =
    if bool_decide (keyOf row = k)
    then Some (default [] (acc !! k) ++ [item row])
    else acc !! k.
Proof.
  unfold groupStep. destruct (decide (keyOf row = k)) as [<-|Hn].
  - rewrite bool_decide_eq_true_2 by reflexivity. rewrite lookup_insert_eq.
    destruct (acc !! keyOf row) eqn:E; [rewrite E; reflexivity|].
    rewrite lookup_insert_eq. reflexivity.
  - rewrite bool_decide_eq_false_2 by exact Hn. rewrite lookup_insert_ne by exact Hn.
    destruct (acc !! keyOf row); [reflexivity|]. apply lookup_insert_ne. exact Hn.
Qed.

Lemma fold_groupStep {Row A} (keyOf : Row -> Z) (item : Row -> A) rows : forall acc k,
  fold_left (groupStep keyOf item) rows acc !! k =
    match List.filter (fun r => (keyOf r =? k)%Z) rows with
    | [] => acc !! k
    | l => Some (default [] (acc !! k) ++ map item l)
    end.
Proof.
  induction rows as [|row rows IH]; intros acc k; cbn [fold_left List.filter].
  - reflexivity.
  - rewrite IH, groupStep_lookup.
    destruct (Z.eqb_spec (keyOf row) k) as [E|E].
    + rewrite bool_decide_eq_true_2 by exact E.
      destruct (List.filter _ rows); cbn; rewrite <- ?app_assoc; reflexivity.
    + rewrite bool_decide_eq_false_2 by exact E. reflexivity.
Qed.

Lemma groupRows_items {Row A} (keyOf : Row -> Z) (item : Row -> A) rows id :
  itemsOf (groupRows keyOf item rows) id
  = map item (List.filter (fun r => (keyOf r =? id)%Z) rows).
Proof.
  unfold itemsOf, groupRows. rewrite fold_groupStep, lookup_empty.
  destruct (List.filter _ rows); reflexivity.
Qed.

Lemma groupRows_missing {Row A} (keyOf : Row -> Z) (item : Row -> A) rows id :
  groupRows keyOf item rows !! id = None <-> Forall (fun r => keyOf r <> id) rows.
Proof.
  unfold groupRows. rewrite fold_groupStep, lookup_empty.
  destruct (List.filter _ rows) as [|r l] eqn:E.
  - split; [intros _|reflexivity]. apply List.Forall_forall. intros r Hr Hk.
    assert (H : In r (List.filter (fun r => (keyOf r =? id)%Z) rows)).
    { apply List.filter_In. split; [exact Hr|]. apply Z.eqb_eq. exact Hk. }
    rewrite E in H. destruct H.
  - split; [discriminate|]. intros H. exfalso.
    assert (Hr : In r (List.filter (fun r => (keyOf r =? id)%Z) rows))
      by (rewrite E; left; reflexivity).
    apply List.filter_In in Hr. destruct Hr as [Hr Hk]. apply Z.eqb_eq in Hk.
    rewrite List.Forall_forall in H. exact (H r Hr Hk).
Qed.

End BackendFacts.

(** X19. How [GET /api/data] hands rows to their owners. For the splits
    of releases, the splits, the chapters and the illustrations of
    books alike: the list an owner receives ([map[id] || []]) holds
    exactly the rows of the table that carry its identifier, each once,
    in the order of the table, and is empty when there is none; a key is
    missing from the map exactly when no row carries it, so a row whose
    identifier matches no owner reaches nobody. *)
Theorem grouped_rows_reach_their_owner {DbValue : Type} (String_ : DbValue -> jsstring)
    (id : Z) :
  (forall rows : list (@Backend.MusicSplitRow DbValue),
     Backend.itemsOf (Backend.musicSplitsMap String_ rows) id
     = map (fun split => Collaborator.mk (Backend.ms_name split)
                           (String_ (Backend.ms_share split)))
           (List.filter (fun split => (Backend.ms_release_id split =? id)%Z) rows)
     /\ (Backend.musicSplitsMap String_ rows !! id = None <->
         Forall (fun split => Backend.ms_release_id split <> id) rows))
  /\ (forall rows : list (@Backend.BookSplitRow DbValue),
        Backend.itemsOf (Backend.bookSplitsMap String_ rows) id
        = map (fun split => Collaborator.mk (Backend.bs_name split)
                              (String_ (Backend.bs_share split)))
              (List.filter (fun split => (Backend.bs_book_id split =? id)%Z) rows)
        /\ (Backend.bookSplitsMap String_ rows !! id = None <->
            Forall (fun split => Backend.bs_book_id split <> id) rows))
  /\ (forall rows,
        Backend.itemsOf (Backend.bookChaptersMap rows) id
        = map (fun chapter => BookChapter.mk (Some (Backend.bc_title chapter))
                                (Backend.bc_content chapter))
              (List.filter (fun chapter => (Backend.bc_book_id chapter =? id)%Z) rows)
        /\ (Backend.bookChaptersMap rows !! id = None <->
            Forall (fun chapter => Backend.bc_book_id chapter <> id) rows))
  /\ (forall rows,
        Backend.itemsOf (Backend.bookIllustrationsMap rows) id
        = map (fun illustration => {| url := Backend.bi_url illustration;
                                      prompt := Backend.bi_prompt illustration |})
              (List.filter (fun illustration =>
                              (Backend.bi_book_id illustration =? id)%Z) rows)
        /\ (Backend.bookIllustrationsMap rows !! id = None <->
            Forall (fun illustration => Backend.bi_book_id illustration <> id) rows)).
Proof.
  repeat split; try apply BackendFacts.groupRows_items;
    try apply (proj1 (BackendFacts.groupRows_missing _ _ _ _));
    try apply (proj2 (BackendFacts.groupRows_missing _ _ _ _)).
Qed.
